(** * MiniGit: object model, history walk and three-way merge

    A shallow embedding of the C++ sources ([blob.cpp], [commit.cpp],
    [branch.cpp], [utils.cpp], [minigit.cpp]) and the properties of the
    design document that can be settled on it.

    Conventions of the embedding:
    - [std::string] is [string]; positions and sizes are [nat], except the
      values produced by [std::stoul] / [std::stoll], which are [N] / [Z]
      with the 64-bit ranges written out;
    - a [std::shared_ptr] that may be null is an [option];
    - a C++ exception is the [Throw] outcome; a loop that may run forever
      is given fuel and reports [OutOfFuel] when the fuel is exhausted;
    - [std::map<std::string, V>] is a list of pairs kept in key order,
      because the code iterates over it;
    - the regular files are a finite map from the text of a path to the
      content; directories are no entries of it. *)

From Stdlib Require Import String Ascii List ZArith NArith Lia Bool.
From Stdlib Require Import DecimalString DecimalN DecimalZ OrderedTypeEx.
From stdpp Require Import base strings gmap.
Import ListNotations.
Open Scope string_scope.

(** ** C++ runtime behaviour the sources rely on *)

Module Cpp.

Inductive exception : Type :=
| invalid_argument   (* std::stoul / std::stoll: no digits *)
| out_of_range       (* std::stoul / std::stoll / substr / map::at *)
| null_dereference   (* [->] on a null shared_ptr *)
| filesystem_error.  (* std::filesystem::create_directories *)

Inductive outcome (A : Type) : Type :=
| Ok (a : A)
| Throw (e : exception)
| OutOfFuel.
Arguments Ok {A} a.
Arguments Throw {A} e.
Arguments OutOfFuel {A}.

Definition bind {A B} (m : outcome A) (k : A -> outcome B) : outcome B :=
  match m with
  | Ok a => k a
  | Throw e => Throw e
  | OutOfFuel => OutOfFuel
  end.

Definition nl : ascii := "010"%char.
Definition endl : string := String nl EmptyString.

(** [s.starts_with(p)] *)
Definition starts_with (s p : string) : bool := String.prefix p s.

Fixpoint string_drop (n : nat) (s : string) : string :=
  match n, s with
  | O, _ => s
  | S n', String _ s' => string_drop n' s'
  | S _, EmptyString => EmptyString
  end.

Fixpoint string_take (n : nat) (s : string) : string :=
  match n, s with
  | S n', String c s' => String c (string_take n' s')
  | _, _ => EmptyString
  end.

(** [s.substr(pos)]: throws when [pos > s.size()]. *)
Definition substr (s : string) (pos : nat) : outcome string :=
  if (pos <=? String.length s)%nat then Ok (string_drop pos s) else Throw out_of_range.

(** [s.substr(pos, n)] *)
Definition substr_n (s : string) (pos n : nat) : outcome string :=
  if (pos <=? String.length s)%nat then Ok (string_take n (string_drop pos s))
  else Throw out_of_range.

(** [s.find(c, pos)]; [None] stands for [std::string::npos]. *)
Fixpoint find_from0 (s : string) (c : ascii) : option nat :=
  match s with
  | EmptyString => None
  | String a s' =>
      if Ascii.eqb a c then Some O
      else match find_from0 s' c with
           | Some i => Some (S i)
           | None => None
           end
  end.

Definition find (s : string) (c : ascii) (pos : nat) : option nat :=
  match find_from0 (string_drop pos s) c with
  | Some i => Some (pos + i)%nat
  | None => None
  end.

(** [p + 1] on a [size_t] that may be [npos]: [npos + 1] wraps to 0. *)
Definition plus1 (p : option nat) : nat :=
  match p with
  | Some i => S i
  | None => O
  end.

(** [isspace] in the "C" locale. *)
Definition isspace (c : ascii) : bool :=
  let n := N_of_ascii c in
  (n =? 32)%N || ((9 <=? n)%N && (n <=? 13)%N).

Definition isdigit (c : ascii) : bool :=
  let n := N_of_ascii c in (48 <=? n)%N && (n <=? 57)%N.

Fixpoint skip_spaces (s : string) : string :=
  match s with
  | String c s' => if isspace c then skip_spaces s' else s
  | EmptyString => EmptyString
  end.

(** Value of the longest prefix of decimal digits, with the number of
    digits read. *)
Fixpoint digits_value (s : string) (acc : N) (read : nat) : N * nat :=
  match s with
  | String c s' =>
      if isdigit c
      then digits_value s' (10 * acc + (N_of_ascii c - 48))%N (S read)
      else (acc, read)
  | EmptyString => (acc, read)
  end.

Definition ULONG_MAX : N := 18446744073709551615.
Definition LLONG_MAX : Z := 9223372036854775807.
Definition LLONG_MIN : Z := -9223372036854775808.

Definition strip_sign (s : string) : bool * string :=
  match s with
  | String "-" s' => (true, s')
  | String "+" s' => (false, s')
  | _ => (false, s)
  end.

(** [std::stoul(str)] (base 10, 64-bit [unsigned long]): leading white
    space, an optional sign, then digits; anything after the digits is
    ignored.  A minus sign negates the value modulo 2^64. *)
Definition stoul (str : string) : outcome N :=
  let (neg, body) := strip_sign (skip_spaces str) in
  let (v, read) := digits_value body 0%N O in
  match read with
  | O => Throw invalid_argument
  | S _ =>
      if (ULONG_MAX <? v)%N then Throw out_of_range
      else Ok (if neg then ((ULONG_MAX + 1 - v) mod (ULONG_MAX + 1))%N else v)
  end.

(** [std::stoll(str)] (base 10, 64-bit [long long]). *)
Definition stoll (str : string) : outcome Z :=
  let (neg, body) := strip_sign (skip_spaces str) in
  let (v, read) := digits_value body 0%N O in
  match read with
  | O => Throw invalid_argument
  | S _ =>
      let z := if neg then (- Z.of_N v)%Z else Z.of_N v in
      if ((z <? LLONG_MIN) || (LLONG_MAX <? z))%Z then Throw out_of_range
      else Ok z
  end.

(** [ss << n] for an unsigned and for a signed integer. *)
Definition show_size (n : nat) : string :=
  NilZero.string_of_uint (N.to_uint (N.of_nat n)).

Definition show_time (t : Z) : string :=
  NilZero.string_of_int (Z.to_int t).

End Cpp.

Import Cpp.

#[global] Instance outcome_ret : MRet outcome := fun _ a => Ok a.
#[global] Instance outcome_bind : MBind outcome := fun _ _ k m => Cpp.bind m k.

(** ** [std::map<std::string, V>] *)

Module StdMap.

Definition t (V : Type) : Type := list (string * V).

Definition empty {V} : t V := [].

(** [m.find(k)] ([None] is [m.end()]). *)
Fixpoint find {V} (k : string) (m : t V) : option V :=
  match m with
  | [] => None
  | (k', v) :: m' => if String.eqb k k' then Some v else find k m'
  end.

(** [m[k] = v] *)
Fixpoint insert {V} (k : string) (v : V) (m : t V) : t V :=
  match m with
  | [] => [(k, v)]
  | (k', v') :: m' =>
      match String_as_OT.cmp k k' with
      | Lt => (k, v) :: m
      | Eq => (k, v) :: m'
      | Gt => (k', v') :: insert k v m'
      end
  end.

(** [m.at(k)] *)
Definition at_ {V} (k : string) (m : t V) : outcome V :=
  match find k m with
  | Some v => Ok v
  | None => Throw out_of_range
  end.

Definition is_empty {V} (m : t V) : bool :=
  match m with [] => true | _ => false end.

Definition size {V} (m : t V) : nat := List.length m.

Definition keys {V} (m : t V) : list string := List.map fst m.

(** [m.erase(k)] *)
Fixpoint erase {V} (k : string) (m : t V) : t V :=
  match m with
  | [] => []
  | (k', v') :: m' => if String.eqb k k' then m' else (k', v') :: erase k m'
  end.

(** The container's invariant: keys strictly increasing. *)
Fixpoint wf {V} (m : t V) : bool :=
  match m with
  | [] => true
  | (k, _) :: m' =>
      match m' with
      | [] => true
      | (k', _) :: _ =>
          match String_as_OT.cmp k k' with
          | Lt => wf m'
          | _ => false
          end
      end
  end.

(** [base] with every entry of [over] written on top of it. *)
Definition overlay {V} (base over : t V) : t V :=
  fold_left (fun m '(k, v) => insert k v m) over base.

End StdMap.

(** ** [utils.cpp] *)

Module utils.

(** [utils::sha1_hash] calls OpenSSL's SHA-1, which is not part of the
    sources; the digest function is an interface of the development. *)
Class Hasher : Type := sha1_hash : string -> string.

(** [std::getline(ss, token, delimiter)] on the unread part [ss] of the
    stream: [None] when nothing is left to read, otherwise the token and
    the part that stays unread. *)
Fixpoint getline (ss : string) (delimiter : ascii) : option (string * string) :=
  match ss with
  | EmptyString => None
  | String c rest =>
      if Ascii.eqb c delimiter then Some (EmptyString, rest)
      else match getline rest delimiter with
           | Some (token, rest') => Some (String c token, rest')
           | None => Some (String c EmptyString, EmptyString)
           end
  end.

(** The [while (std::getline(...)) tokens.push_back(token)] loop; every
    round consumes at least one character. *)
Fixpoint split_loop (fuel : nat) (ss : string) (delimiter : ascii) : list string :=
  match fuel with
  | O => []
  | S fuel' =>
      match getline ss delimiter with
      | Some (token, rest) => token :: split_loop fuel' rest delimiter
      | None => []
      end
  end.

Definition split (str : string) (delimiter : ascii) : list string :=
  split_loop (S (String.length str)) str delimiter.

Definition timestamp_to_string (timestamp : Z) : string := show_time timestamp.

Definition string_to_timestamp (str : string) : outcome Z := stoll str.

(** One hexadecimal digit, lower case as [std::hex] prints it. *)
Definition hex_digit (n : N) : ascii :=
  if (n <? 10)%N then ascii_of_N (48 + n) else ascii_of_N (87 + n).

(** [hex_encode]: every byte goes through [std::hex], [setw(2)] and
    [setfill('0')]; a value below 256 takes at most two digits, so the
    field is the high and the low nibble. *)
Definition hex_encode (data : list ascii) : string :=
  String.concat ""
    (List.map (fun byte =>
                 let n := N_of_ascii byte in
                 String (hex_digit (n / 16)) (String (hex_digit (n mod 16)) EmptyString))
              data).

(** [join]: [result = vec[0]], then [result += delimiter + vec[i]]. *)
Definition join (vec : list string) (delimiter : string) : string :=
  match vec with
  | [] => ""
  | first :: rest => fold_left (fun result v => result ++ (delimiter ++ v)) rest first
  end.

(** The characters of the set [" \t\n\r"] of [trim]. *)
Definition is_blank (c : ascii) : bool :=
  let n := N_of_ascii c in
  (n =? 32)%N || (n =? 9)%N || (n =? 10)%N || (n =? 13)%N.

(** [str.find_first_not_of(" \t\n\r")]; [None] is [npos]. *)
Fixpoint find_first_not_blank (s : string) : option nat :=
  match s with
  | EmptyString => None
  | String c s' =>
      if is_blank c
      then match find_first_not_blank s' with
           | Some i => Some (S i)
           | None => None
           end
      else Some O
  end.

(** [str.find_last_not_of(" \t\n\r")] *)
Fixpoint find_last_not_blank (s : string) : option nat :=
  match s with
  | EmptyString => None
  | String c s' =>
      match find_last_not_blank s' with
      | Some i => Some (S i)
      | None => if is_blank c then None else Some O
      end
  end.

(** [trim].  When a first non-blank character exists, a last one exists
    too; for [npos] the count [end - start + 1] would wrap and [substr]
    would take the rest of the string. *)
Definition trim (str : string) : string :=
  match find_first_not_blank str with
  | None => ""
  | Some start =>
      match find_last_not_blank str with
      | Some last => string_take (last - start + 1) (string_drop start str)
      | None => string_drop start str
      end
  end.

(** The body of the loop of [compute_diff] at index [i]. *)
Definition diff_at (old_lines new_lines : list string) (i : nat) : list string :=
  if (List.length old_lines <=? i)%nat then ["+ " ++ nth i new_lines ""]
  else if (List.length new_lines <=? i)%nat then ["- " ++ nth i old_lines ""]
  else if negb (String.eqb (nth i old_lines "") (nth i new_lines ""))
       then ["- " ++ nth i old_lines ""; "+ " ++ nth i new_lines ""]
       else ["  " ++ nth i old_lines ""].

Definition compute_diff (old_content new_content : string) : list string :=
  let old_lines := split old_content nl in
  let new_lines := split new_content nl in
  let max_lines := Nat.max (List.length old_lines) (List.length new_lines) in
  flat_map (diff_at old_lines new_lines) (seq 0 max_lines).

(** One round of the loop of [apply_patch]. *)
Definition patch_step (result : list string) (patch_line : string) : list string :=
  if (String.length patch_line <? 2)%nat then result else
  let line_content := string_drop 2 patch_line in
  match String.get 0 patch_line with
  | Some op =>
      if Ascii.eqb op "+" then (result ++ [line_content])%list
      else if Ascii.eqb op "-" then result
      else if Ascii.eqb op " " then (result ++ [line_content])%list
      else result
  | None => result
  end.

(** [apply_patch] splits [content] into lines and then never looks at
    them: the result is built from the patch alone. *)
Definition apply_patch (content : string) (patch : list string) : string :=
  join (fold_left patch_step patch []) endl.

End utils.

(** ** [blob.cpp] *)

Module Blob.

Record t : Type := mk { hash : string; content : string; filename : string }.

Definition set_hash (b : t) (h : string) : t := mk h (content b) (filename b).

Definition to_string (b : t) : string :=
  "blob " ++ hash b ++ endl ++
  "filename " ++ filename b ++ endl ++
  "content " ++ show_size (String.length (content b)) ++ endl ++
  content b.

Section WithHasher.
Context `{utils.Hasher}.

(** Constructor: the hash is the digest of the content. *)
Definition new (content filename : string) : t :=
  mk (utils.sha1_hash content) content filename.

Definition from_string (data : string) : outcome (option t) :=
  let lines := utils.split data nl in
  if (List.length lines <? 4)%nat then Ok None else
  let blob_line := nth 0 lines "" in
  let filename_line := nth 1 lines "" in
  let content_length_line := nth 2 lines "" in
  if negb (starts_with blob_line "blob ") then Ok None else
  hash ← substr blob_line 5;
  if negb (starts_with filename_line "filename ") then Ok None else
  filename ← substr filename_line 9;
  if negb (starts_with content_length_line "content ") then Ok None else
  length_text ← substr content_length_line 8;
  content_length ← stoul length_text;
  let content_start :=
    plus1 (find data nl (plus1 (find data nl (plus1 (find data nl 0))))) in
  content ← (if (content_start <? String.length data)%nat
             then substr data content_start else Ok "");
  Ok (Some (set_hash (new content filename) hash)).

End WithHasher.

End Blob.

(** ** [commit.cpp] *)

Module Commit.

Record t : Type := mk {
  hash : string;
  message : string;
  author : string;
  timestamp : Z;
  parent_hashes : list string;
  file_blobs : StdMap.t string
}.

(** Constructor; [now] is the value of [std::time(nullptr)].  The [hash]
    member is default-initialised and stays empty until [set_hash]. *)
Definition new (msg auth : string) (now : Z) : t :=
  mk "" msg auth now [] StdMap.empty.

Definition set_hash (c : t) (h : string) : t :=
  mk h (message c) (author c) (timestamp c) (parent_hashes c) (file_blobs c).

Definition set_timestamp (c : t) (ts : Z) : t :=
  mk (hash c) (message c) (author c) ts (parent_hashes c) (file_blobs c).

Definition has_parent (c : t) (parent_hash : string) : bool :=
  existsb (String.eqb parent_hash) (parent_hashes c).

Definition add_parent (c : t) (parent_hash : string) : t :=
  if has_parent c parent_hash then c
  else mk (hash c) (message c) (author c) (timestamp c)
          (parent_hashes c ++ [parent_hash]) (file_blobs c).

Definition add_file (c : t) (filename blob_hash : string) : t :=
  mk (hash c) (message c) (author c) (timestamp c) (parent_hashes c)
     (StdMap.insert filename blob_hash (file_blobs c)).

Definition is_merge_commit (c : t) : bool := (1 <? List.length (parent_hashes c))%nat.

Definition remove_file (c : t) (filename : string) : t :=
  mk (hash c) (message c) (author c) (timestamp c) (parent_hashes c)
     (StdMap.erase filename (file_blobs c)).

Definition is_initial_commit (c : t) : bool :=
  match parent_hashes c with [] => true | _ => false end.

Definition to_string (c : t) : string :=
  "commit " ++ hash c ++ endl ++
  "message " ++ message c ++ endl ++
  "author " ++ author c ++ endl ++
  "timestamp " ++ show_time (timestamp c) ++ endl ++
  "parents " ++ show_size (List.length (parent_hashes c)) ++ endl ++
  String.concat "" (List.map (fun parent => "parent " ++ parent ++ endl) (parent_hashes c)) ++
  "files " ++ show_size (StdMap.size (file_blobs c)) ++ endl ++
  String.concat ""
    (List.map (fun '(filename, blob_hash) => "file " ++ filename ++ " " ++ blob_hash ++ endl)
              (file_blobs c)).

(** The parents loop of [from_string]: [rest] is [lines] from
    [line_index] on, [count] the rounds still allowed by
    [i < parents_count].  Returns the lines left at the final
    [line_index]. *)
Fixpoint parse_parents (rest : list string) (count : N) (c : t)
  : outcome (t * list string) :=
  match rest with
  | [] => Ok (c, [])
  | line :: rest' =>
      if (count =? 0)%N then Ok (c, rest) else
      c' ← (if starts_with line "parent "
            then parent_hash ← substr line 7; Ok (add_parent c parent_hash)
            else Ok c);
      parse_parents rest' (count - 1)%N c'
  end.

(** The files loop of [from_string]. *)
Fixpoint parse_files (rest : list string) (count : N) (c : t) : outcome t :=
  match rest with
  | [] => Ok c
  | line :: rest' =>
      if (count =? 0)%N then Ok c else
      c' ← (if starts_with line "file "
            then
              file_info ← substr line 5;
              match find file_info " "%char 0 with
              | Some space_pos =>
                  filename ← substr_n file_info 0 space_pos;
                  blob_hash ← substr file_info (space_pos + 1);
                  Ok (add_file c filename blob_hash)
              | None => Ok c
              end
            else Ok c);
      parse_files rest' (count - 1)%N c'
  end.

(** [from_string] builds the object with the two-argument constructor and
    then overwrites its hash and timestamp, so the clock read by the
    constructor does not survive; the parsed timestamp is passed for it. *)
Definition from_string (data : string) : outcome (option t) :=
  let lines := utils.split data nl in
  if (List.length lines <? 5)%nat then Ok None else
  let commit_line := nth 0 lines "" in
  let message_line := nth 1 lines "" in
  let author_line := nth 2 lines "" in
  let timestamp_line := nth 3 lines "" in
  let parents_count_line := nth 4 lines "" in
  if negb (starts_with commit_line "commit ") then Ok None else
  hash ← substr commit_line 7;
  if negb (starts_with message_line "message ") then Ok None else
  message ← substr message_line 8;
  if negb (starts_with author_line "author ") then Ok None else
  author ← substr author_line 7;
  if negb (starts_with timestamp_line "timestamp ") then Ok None else
  timestamp_text ← substr timestamp_line 10;
  timestamp ← utils.string_to_timestamp timestamp_text;
  if negb (starts_with parents_count_line "parents ") then Ok None else
  parents_text ← substr parents_count_line 8;
  parents_count ← stoul parents_text;
  let commit := set_timestamp (set_hash (new message author timestamp) hash) timestamp in
  '(commit, rest) ← parse_parents (List.skipn 5 lines) parents_count commit;
  match rest with
  | line :: rest' =>
      if starts_with line "files "
      then
        files_text ← substr line 6;
        files_count ← stoul files_text;
        commit ← parse_files rest' files_count commit;
        Ok (Some commit)
      else Ok (Some commit)
  | [] => Ok (Some commit)
  end.

End Commit.

(** ** [branch.cpp] *)

Module Branch.

Record t : Type := mk { name : string; commit_hash : string }.

Definition set_commit_hash (b : t) (h : string) : t := mk (name b) h.

Definition is_empty (b : t) : bool := String.eqb (commit_hash b) "".

Definition to_string (b : t) : string :=
  "branch " ++ name b ++ endl ++
  "commit " ++ commit_hash b ++ endl.

Definition from_string (data : string) : outcome (option t) :=
  let lines := utils.split data nl in
  if (List.length lines <? 2)%nat then Ok None else
  let branch_line := nth 0 lines "" in
  let commit_line := nth 1 lines "" in
  if negb (starts_with branch_line "branch ") then Ok None else
  name ← substr branch_line 7;
  if negb (starts_with commit_line "commit ") then Ok None else
  commit_hash ← substr commit_line 7;
  Ok (Some (mk name commit_hash)).

End Branch.

(** ** [minigit.cpp] *)

Module MiniGit.

(** The fields of the [MiniGit] object together with [disk], the files
    it reads and writes (path to content). *)
Record t : Type := mk {
  repo_path : string;
  minigit_path : string;
  objects_path : string;
  refs_path : string;
  head_path : string;
  current_branch : string;
  branches : StdMap.t Branch.t;
  staging_area : StdMap.t Blob.t;
  is_initialized : bool;
  disk : gmap string string
}.

Definition set_disk (st : t) (d : gmap string string) : t :=
  mk (repo_path st) (minigit_path st) (objects_path st) (refs_path st) (head_path st)
     (current_branch st) (branches st) (staging_area st) (is_initialized st) d.

Definition set_current_branch (st : t) (b : string) : t :=
  mk (repo_path st) (minigit_path st) (objects_path st) (refs_path st) (head_path st)
     b (branches st) (staging_area st) (is_initialized st) (disk st).

Definition set_branches (st : t) (bs : StdMap.t Branch.t) : t :=
  mk (repo_path st) (minigit_path st) (objects_path st) (refs_path st) (head_path st)
     (current_branch st) bs (staging_area st) (is_initialized st) (disk st).

Definition set_staging_area (st : t) (sa : StdMap.t Blob.t) : t :=
  mk (repo_path st) (minigit_path st) (objects_path st) (refs_path st) (head_path st)
     (current_branch st) (branches st) sa (is_initialized st) (disk st).

Definition set_is_initialized (st : t) (b : bool) : t :=
  mk (repo_path st) (minigit_path st) (objects_path st) (refs_path st) (head_path st)
     (current_branch st) (branches st) (staging_area st) b (disk st).

(** The constructor run in a directory that has no [.minigit] yet. *)
Definition new (path : string) (files : gmap string string) : t :=
  mk path (path ++ "/.minigit") (path ++ "/.minigit" ++ "/objects")
     (path ++ "/.minigit" ++ "/refs") (path ++ "/.minigit" ++ "/HEAD")
     "" StdMap.empty StdMap.empty false files.

(** What an operation does besides changing the state: the messages it
    prints and the objects it hands to the [save_*] methods. *)
Inductive Event : Type :=
| print_success (message : string)
| print_error (message : string)
| print_warning (message : string)
| print_info (message : string)
| save_blob_call (blob : Blob.t)
| save_commit_call (commit : Commit.t)
| save_head_call (commit_hash : string)
| save_branch_call (branch : Branch.t).

Record Result (A : Type) : Type := mkResult {
  value : outcome A;
  final : t;
  events : list Event
}.
Arguments mkResult {A} value final events.
Arguments value {A} r.
Arguments final {A} r.
Arguments events {A} r.

(** Methods that change the object or the disk. *)
Definition M (A : Type) : Type := t -> Result A.

Definition ret {A} (a : A) : M A := fun st => mkResult (Ok a) st [].

Definition bind {A B} (m : M A) (k : A -> M B) : M B :=
  fun st =>
    let r := m st in
    match value r with
    | Ok a =>
        let r' := k a (final r) in
        mkResult (value r') (final r') (events r ++ events r')
    | Throw e => mkResult (Throw e) (final r) (events r)
    | OutOfFuel => mkResult OutOfFuel (final r) (events r)
    end.

Definition get : M t := fun st => mkResult (Ok st) st [].
Definition modify (f : t -> t) : M unit := fun st => mkResult (Ok tt) (f st) [].
Definition emit (e : Event) : M unit := fun st => mkResult (Ok tt) st [e].
Definition lift {A} (o : outcome A) : M A := fun st => mkResult o st [].

(** *** File helpers of [utils.cpp] on the disk

    [disk] holds the regular files, keyed by the text of the path they
    are opened with.  A path that ends in a slash names a directory: it
    cannot be opened for writing, and reading it yields no bytes.  A file
    that cannot be opened reads as the empty string.

    The keys are not resolved: two texts that an operating system takes
    to the same file ([refs/../HEAD] and [HEAD]) are two keys here, and a
    write to a path that does not end in a slash is taken to open its
    file, which on a real file system needs the directory above it.  A
    statement that would depend on either carries a hypothesis on the
    names involved ([plain_name]) or is stated on what is read. *)
Fixpoint ends_with_slash (path : string) : bool :=
  match path with
  | EmptyString => false
  | String c EmptyString => Ascii.eqb c "/"
  | String _ rest => ends_with_slash rest
  end.

Definition read_file (d : gmap string string) (path : string) : string :=
  if ends_with_slash path then "" else default "" (d !! path).

Definition write_file (d : gmap string string) (path content : string)
  : bool * gmap string string :=
  if ends_with_slash path then (false, d) else (true, <[path := content]> d).

Definition file_exists (d : gmap string string) (path : string) : bool :=
  negb (ends_with_slash path) && bool_decide (is_Some (d !! path)).

Definition write (path content : string) : M unit :=
  modify (fun st => set_disk st (snd (write_file (disk st) path content))).

#[global] Instance M_ret : MRet M := @ret.
#[global] Instance M_bind : MBind M := fun _ _ k m => bind m k.

(** *** Loading and saving *)

Definition object_path (st : t) (hash : string) : string :=
  objects_path st ++ "/" ++ hash.

Definition load_head (st : t) : string := read_file (disk st) (head_path st).

Definition load_commit (st : t) (hash : string) : outcome (option Commit.t) :=
  let commit_data := read_file (disk st) (object_path st hash) in
  if String.eqb commit_data "" then Ok None else Commit.from_string commit_data.

Definition save_blob (blob : Blob.t) : M unit :=
  st ← get;
  _ ← emit (save_blob_call blob);
  write (object_path st (Blob.hash blob)) (Blob.to_string blob).

Definition save_commit (commit : Commit.t) : M unit :=
  st ← get;
  _ ← emit (save_commit_call commit);
  write (object_path st (Commit.hash commit)) (Commit.to_string commit).

Definition save_head (commit_hash : string) : M unit :=
  st ← get;
  _ ← emit (save_head_call commit_hash);
  write (head_path st) commit_hash.

Definition save_branch (branch : Branch.t) : M unit :=
  st ← get;
  _ ← emit (save_branch_call branch);
  write (refs_path st ++ "/" ++ Branch.name branch) (Branch.to_string branch).

(** [branches[current_branch]->set_commit_hash(h); save_branch(...)],
    guarded by [branches.find(current_branch) != branches.end()]. *)
Definition update_current_branch (commit_hash : string) : M unit :=
  st ← get;
  match StdMap.find (current_branch st) (branches st) with
  | Some branch =>
      let branch := Branch.set_commit_hash branch commit_hash in
      _ ← modify (fun st => set_branches st
                    (StdMap.insert (current_branch st) branch (branches st)));
      save_branch branch
  | None => mret tt
  end.

(** *** History *)

(** The [while (!current.empty())] loop of [get_commit_ancestors]; one
    unit of fuel per evaluation of the loop condition. *)
Fixpoint ancestors_loop (fuel : nat) (st : t) (current : string)
                        (ancestors : list string) : outcome (list string) :=
  match fuel with
  | O => OutOfFuel
  | S fuel' =>
      if String.eqb current "" then Ok ancestors else
      commit ← load_commit st current;
      match commit with
      | None => Ok ancestors
      | Some commit =>
          let ancestors := (ancestors ++ [current])%list in
          if Commit.is_initial_commit commit then Ok ancestors else
          let current := match Commit.parent_hashes commit with
                         | [] => ""
                         | parent :: _ => parent
                         end in
          ancestors_loop fuel' st current ancestors
      end
  end.

Definition get_commit_ancestors (fuel : nat) (st : t) (commit_hash : string)
  : outcome (list string) :=
  ancestors_loop fuel st commit_hash [].

(** The scan of [ancestors2] against [set1]. *)
Fixpoint first_in_set (set1 : gset string) (ancestors2 : list string) : string :=
  match ancestors2 with
  | [] => ""
  | ancestor :: rest =>
      if bool_decide (ancestor ∈ set1) then ancestor else first_in_set set1 rest
  end.

Definition find_lowest_common_ancestor (fuel : nat) (st : t)
           (commit1_hash commit2_hash : string) : outcome string :=
  ancestors1 ← get_commit_ancestors fuel st commit1_hash;
  ancestors2 ← get_commit_ancestors fuel st commit2_hash;
  let set1 : gset string := list_to_set ancestors1 in
  Ok (first_in_set set1 ancestors2).

Definition get_file_changes (st : t) (from_hash to_hash : string)
  : outcome (StdMap.t string) :=
  from_commit ← load_commit st from_hash;
  to_commit ← load_commit st to_hash;
  match from_commit, to_commit with
  | Some from_commit, Some to_commit =>
      let from_files := Commit.file_blobs from_commit in
      let to_files := Commit.file_blobs to_commit in
      Ok (fold_left
            (fun changes '(filename, blob_hash) =>
               match StdMap.find filename from_files with
               | Some h =>
                   if String.eqb h blob_hash then changes
                   else StdMap.insert filename blob_hash changes
               | None => StdMap.insert filename blob_hash changes
               end)
            to_files StdMap.empty)
  | _, _ => Ok StdMap.empty
  end.

Definition merge_files (base_content ours_content theirs_content : string) : string :=
  if String.eqb ours_content theirs_content then ours_content
  else if String.eqb base_content ours_content then theirs_content
  else if String.eqb base_content theirs_content then ours_content
  else base_content
       ++ (endl ++ "<<<<<<< HEAD" ++ endl)
       ++ ours_content
       ++ (endl ++ "=======" ++ endl)
       ++ theirs_content
       ++ (endl ++ ">>>>>>> MERGE" ++ endl).

(** *** Commands that do not hash *)

Definition not_a_repository : M bool :=
  _ ← emit (print_error "Not a MiniGit repository");
  mret false.

(** The directories above [path]: its proper prefixes that end before
    a slash, [before] being the part of the path already read. *)
Fixpoint parent_paths (before path : string) : list string :=
  match path with
  | EmptyString => []
  | String c rest =>
      if Ascii.eqb c "/"
      then (if String.eqb before "" then [] else [before])
           ++ parent_paths (before ++ "/") rest
      else parent_paths (before ++ String c EmptyString) rest
  end.

(** [utils::create_directory]: directories are no entries of [disk], so
    making them changes nothing; [std::filesystem::create_directories]
    throws when the path, or a directory above it, is a regular file. *)
Definition create_directory (d : gmap string string) (path : string) : outcome unit :=
  if existsb (fun p => bool_decide (is_Some (d !! p))) (parent_paths "" path ++ [path])
  then Throw filesystem_error
  else Ok tt.

Definition create_directory_structure (st : t) : outcome unit :=
  _ ← create_directory (disk st) (minigit_path st);
  _ ← create_directory (disk st) (objects_path st);
  create_directory (disk st) (refs_path st).

Definition init : M bool :=
  st ← get;
  if is_initialized st
  then
    _ ← emit (print_warning "MiniGit repository already initialized");
    mret true
  else
    _ ← lift (create_directory_structure st);
    _ ← modify (fun st => set_current_branch st "main");
    let main_branch := Branch.mk "main" "" in
    _ ← modify (fun st => set_branches st (StdMap.insert "main" main_branch (branches st)));
    _ ← save_branch main_branch;
    _ ← modify (fun st => set_is_initialized st true);
    _ ← emit (print_success "Initialized empty MiniGit repository");
    mret true.

(** The loop of [commit] over the staging area. *)
Fixpoint commit_staged (staged : list (string * Blob.t)) (commit : Commit.t)
  : M Commit.t :=
  match staged with
  | [] => mret commit
  | (filename, blob) :: rest =>
      _ ← save_blob blob;
      commit_staged rest (Commit.add_file commit filename (Blob.hash blob))
  end.

(** [now] is the clock read by the [Commit] constructor; the author is
    the constructor's default argument. *)
Definition commit (message : string) (now : Z) : M bool :=
  st ← get;
  if negb (is_initialized st) then not_a_repository else
  if StdMap.is_empty (staging_area st)
  then
    _ ← emit (print_error "No changes staged for commit");
    mret false
  else
    let commit := Commit.new message "user" now in
    let head_commit := load_head st in
    let commit := if String.eqb head_commit "" then commit
                  else Commit.add_parent commit head_commit in
    commit ← commit_staged (staging_area st) commit;
    _ ← save_commit commit;
    _ ← save_head (Commit.hash commit);
    _ ← update_current_branch (Commit.hash commit);
    _ ← modify (fun st => set_staging_area st StdMap.empty);
    _ ← emit (print_success
                ("Committed " ++ show_size (StdMap.size (Commit.file_blobs commit))
                 ++ " files"));
    short ← lift (substr_n (Commit.hash commit) 0 8);
    _ ← emit (print_info ("Commit: " ++ short));
    mret true.

Definition branch (branch_name : string) : M bool :=
  st ← get;
  if negb (is_initialized st) then not_a_repository else
  match StdMap.find branch_name (branches st) with
  | Some _ =>
      _ ← emit (print_error ("Branch '" ++ branch_name ++ "' already exists"));
      mret false
  | None =>
      let current_commit := load_head st in
      let new_branch := Branch.mk branch_name current_commit in
      _ ← modify (fun st => set_branches st
                    (StdMap.insert branch_name new_branch (branches st)));
      _ ← save_branch new_branch;
      _ ← emit (print_success ("Created branch '" ++ branch_name ++ "'"));
      mret true
  end.

Definition checkout (target : string) : M bool :=
  st ← get;
  if negb (is_initialized st) then not_a_repository else
  match StdMap.find target (branches st) with
  | Some target_branch =>
      _ ← modify (fun st => set_current_branch st target);
      let commit_hash := Branch.commit_hash target_branch in
      _ ← (if String.eqb commit_hash "" then mret tt else save_head commit_hash);
      _ ← emit (print_success ("Switched to branch '" ++ target ++ "'"));
      mret true
  | None =>
      commit ← lift (load_commit st target);
      match commit with
      | Some _ =>
          _ ← save_head target;
          short ← lift (substr_n target 0 8);
          _ ← emit (print_success ("Switched to commit " ++ short));
          mret true
      | None =>
          _ ← emit (print_error ("Target '" ++ target ++ "' not found"));
          mret false
      end
  end.

(** The second loop of [merge]: files changed on the current side only. *)
Definition add_current_only (current_changes target_changes merged_files : StdMap.t string)
  : StdMap.t string :=
  fold_left
    (fun merged_files '(filename, blob_hash) =>
       match StdMap.find filename target_changes with
       | None => StdMap.insert filename blob_hash merged_files
       | Some _ => merged_files
       end)
    current_changes merged_files.

(** The merge commit built from the decided files. *)
Definition make_merge_commit (merge_message current_commit target_commit : string)
           (now : Z) (merged_files : StdMap.t string) : Commit.t :=
  let merge_commit := Commit.new merge_message "user" now in
  let merge_commit := Commit.add_parent merge_commit current_commit in
  let merge_commit := Commit.add_parent merge_commit target_commit in
  fold_left (fun c '(filename, blob_hash) => Commit.add_file c filename blob_hash)
            merged_files merge_commit.

(** *** Queries *)

Definition load_branch (st : t) (name : string) : outcome (option Branch.t) :=
  let branch_data := read_file (disk st) (refs_path st ++ "/" ++ name) in
  if String.eqb branch_data "" then Ok None else Branch.from_string branch_data.

Definition get_branches (st : t) : list string := StdMap.keys (branches st).

Definition get_head_commit (st : t) : string := load_head st.

(** *** The constructor in any directory

    Whether [.minigit] is a directory and which regular files lie in the
    refs directory is what the file system answers to [directory_exists]
    and [list_files]; directories are no entries of [disk], so the two
    answers are arguments.  [branches[branch_name] = branch] per file. *)
Fixpoint load_branches (st : t) (branch_files : list string)
         (branches : StdMap.t Branch.t) : outcome (StdMap.t Branch.t) :=
  match branch_files with
  | [] => Ok branches
  | branch_file :: rest =>
      let branch_path := refs_path st ++ "/" ++ branch_file in
      let branch_data := read_file (disk st) branch_path in
      if String.eqb branch_data "" then load_branches st rest branches else
      branch ← Branch.from_string branch_data;
      match branch with
      | Some branch => load_branches st rest (StdMap.insert branch_file branch branches)
      | None => load_branches st rest branches
      end
  end.

Definition open (path : string) (files : gmap string string)
           (minigit_directory_exists : bool) (branch_files : list string) : outcome t :=
  let st := new path files in
  if minigit_directory_exists
  then
    branches ← load_branches st branch_files StdMap.empty;
    Ok (set_branches (set_current_branch (set_is_initialized st true) "main") branches)
  else Ok st.

(** What [log] writes to [std::cout] for one commit, one element per
    [std::endl]. *)
Definition log_entry (commit : Commit.t) : list string :=
  [endl ++ "commit " ++ Commit.hash commit;
   "Author: " ++ Commit.author commit;
   "Date:   " ++ utils.timestamp_to_string (Commit.timestamp commit);
   "";
   "    " ++ Commit.message commit].

(** The [while] loop of [log]: the lines written so far and how the loop
    ended.  [commit_count] is the [int] counter of the loop. *)
Fixpoint log_loop (fuel : nat) (st : t) (commit_hash : string) (commit_count : Z)
  : list string * outcome unit :=
  match fuel with
  | O => ([], OutOfFuel)
  | S fuel' =>
      if String.eqb commit_hash "" then ([], Ok tt) else
      match load_commit st commit_hash with
      | Throw e => ([], Throw e)
      | OutOfFuel => ([], OutOfFuel)
      | Ok None => ([], Ok tt)
      | Ok (Some commit) =>
          let written := log_entry commit in
          if Commit.is_initial_commit commit then (written, Ok tt) else
          let commit_hash := match Commit.parent_hashes commit with
                             | [] => ""
                             | parent :: _ => parent
                             end in
          let commit_count := (commit_count + 1)%Z in
          if (100 <? commit_count)%Z then (written, Ok tt) else
          let (more, ending) := log_loop fuel' st commit_hash commit_count in
          ((written ++ more)%list, ending)
      end
  end.

(** [log]: the messages printed through [utils::print_*], the lines
    written to [std::cout], and the result. *)
Definition log (fuel : nat) (st : t) : list Event * list string * outcome bool :=
  if negb (is_initialized st) then ([print_error "Not a MiniGit repository"], [], Ok false)
  else
    let current_commit_hash := load_head st in
    if String.eqb current_commit_hash "" then ([print_info "No commits yet"], [], Ok true)
    else
      let (written, ending) := log_loop fuel st current_commit_hash 0 in
      ([], written, _ ← ending; Ok true).

(** *** Commands that hash content *)

Section WithHasher.
Context `{utils.Hasher}.

Definition load_blob (st : t) (hash : string) : outcome (option Blob.t) :=
  let blob_data := read_file (disk st) (object_path st hash) in
  if String.eqb blob_data "" then Ok None else Blob.from_string blob_data.

Definition add (filename : string) : M bool :=
  st ← get;
  if negb (is_initialized st) then not_a_repository else
  if negb (file_exists (disk st) filename)
  then
    _ ← emit (print_error ("File '" ++ filename ++ "' does not exist"));
    mret false
  else
    let content := read_file (disk st) filename in
    let blob := Blob.new content filename in
    _ ← modify (fun st => set_staging_area st
                  (StdMap.insert filename blob (staging_area st)));
    _ ← emit (print_success ("Added '" ++ filename ++ "' to staging area"));
    mret true.

(** The first loop of [merge], over [target_changes].  In the conflict
    branch [load_commit(lca)->get_files().at(filename)] dereferences the
    loaded commit and looks the file up with [at]. *)
Fixpoint merge_target_changes (target_changes : list (string * string))
         (lca : string) (current_changes : StdMap.t string)
         (has_conflicts : bool) (merged_files : StdMap.t string)
  : M (bool * StdMap.t string) :=
  match target_changes with
  | [] => mret (has_conflicts, merged_files)
  | (filename, blob_hash) :: rest =>
      match StdMap.find filename current_changes with
      | None =>
          merge_target_changes rest lca current_changes has_conflicts
            (StdMap.insert filename blob_hash merged_files)
      | Some ours_hash =>
          if String.eqb ours_hash blob_hash
          then
            merge_target_changes rest lca current_changes has_conflicts
              (StdMap.insert filename blob_hash merged_files)
          else
            _ ← emit (print_warning ("CONFLICT: both modified " ++ filename));
            st ← get;
            lca_commit ← lift (load_commit st lca);
            base_hash ← lift (match lca_commit with
                              | Some c => StdMap.at_ filename (Commit.file_blobs c)
                              | None => Throw null_dereference
                              end);
            base_blob ← lift (load_blob st base_hash);
            ours_blob ← lift (load_blob st ours_hash);
            theirs_blob ← lift (load_blob st blob_hash);
            merged_files ←
              match base_blob, ours_blob, theirs_blob with
              | Some base_blob, Some ours_blob, Some theirs_blob =>
                  let merged_content :=
                    merge_files (Blob.content base_blob) (Blob.content ours_blob)
                                (Blob.content theirs_blob) in
                  let merged_blob := Blob.new merged_content filename in
                  _ ← save_blob merged_blob;
                  mret (StdMap.insert filename (Blob.hash merged_blob) merged_files)
              | _, _, _ => mret merged_files
              end;
            merge_target_changes rest lca current_changes true merged_files
      end
  end.

Definition merge (fuel : nat) (branch_name : string) (now : Z) : M bool :=
  st ← get;
  if negb (is_initialized st) then not_a_repository else
  match StdMap.find branch_name (branches st) with
  | None =>
      _ ← emit (print_error ("Branch '" ++ branch_name ++ "' does not exist"));
      mret false
  | Some target_branch =>
      let current_commit := load_head st in
      let target_commit := Branch.commit_hash target_branch in
      if String.eqb current_commit target_commit
      then
        _ ← emit (print_info "Already up to date");
        mret true
      else
        lca ← lift (find_lowest_common_ancestor fuel st current_commit target_commit);
        if String.eqb lca ""
        then
          _ ← emit (print_error "No common ancestor found");
          mret false
        else
          current_changes ← lift (get_file_changes st lca current_commit);
          target_changes ← lift (get_file_changes st lca target_commit);
          '(has_conflicts, merged_files) ←
            merge_target_changes target_changes lca current_changes false StdMap.empty;
          let merged_files :=
            add_current_only current_changes target_changes merged_files in
          let merge_message :=
            "Merge branch '" ++ branch_name ++ "' into " ++ current_branch st in
          let merge_commit :=
            make_merge_commit merge_message current_commit target_commit now
                              merged_files in
          _ ← save_commit merge_commit;
          _ ← save_head (Commit.hash merge_commit);
          _ ← update_current_branch (Commit.hash merge_commit);
          _ ← emit (if (has_conflicts : bool)
                    then print_warning "Merge completed with conflicts"
                    else print_success "Merge completed successfully");
          mret true
  end.

(** The [std::set] of file names of [diff]: the keys of both tables, in
    order, each once. *)
Definition all_files (files1 files2 : StdMap.t string) : list string :=
  StdMap.keys
    (fold_left (fun names '(filename, _) => StdMap.insert filename tt names) files2
       (fold_left (fun names '(filename, _) => StdMap.insert filename tt names) files1
          StdMap.empty)).

Definition diff_header (filename : string) : string :=
  "diff --git a/" ++ filename ++ " b/" ++ filename.

Definition added_header (filename : string) : list string :=
  [diff_header filename; "new file mode 100644"; "--- /dev/null"; "+++ b/" ++ filename].

Definition deleted_header (filename : string) : list string :=
  [diff_header filename; "deleted file mode 100644"; "--- a/" ++ filename; "+++ /dev/null"].

Definition modified_header (filename : string) : list string :=
  [diff_header filename; "--- a/" ++ filename; "+++ b/" ++ filename].

(** The body of the last loop of [diff] for one file name: the lines it
    writes.  A name of [all_files] is a key of one of the two tables. *)
Definition diff_file (st : t) (files1 files2 : StdMap.t string) (filename : string)
  : outcome (list string) :=
  match StdMap.find filename files1, StdMap.find filename files2 with
  | None, Some hash2 =>
      blob2 ← load_blob st hash2;
      match blob2 with
      | Some blob2 =>
          Ok (added_header filename
              ++ List.map (String.append "+") (utils.split (Blob.content blob2) nl))%list
      | None => Ok []
      end
  | None, None => Throw null_dereference
  | Some hash1, None =>
      blob1 ← load_blob st hash1;
      match blob1 with
      | Some blob1 =>
          Ok (deleted_header filename
              ++ List.map (String.append "-") (utils.split (Blob.content blob1) nl))%list
      | None => Ok []
      end
  | Some hash1, Some hash2 =>
      if negb (String.eqb hash1 hash2)
      then
        blob1 ← load_blob st hash1;
        blob2 ← load_blob st hash2;
        match blob1, blob2 with
        | Some blob1, Some blob2 =>
            Ok (modified_header filename
                ++ utils.compute_diff (Blob.content blob1) (Blob.content blob2))%list
        | _, _ => Ok []
        end
      else Ok []
  end.

(** The last loop of [diff]: the lines written before it ended. *)
Fixpoint diff_files (st : t) (files1 files2 : StdMap.t string) (names : list string)
  : list string * outcome unit :=
  match names with
  | [] => ([], Ok tt)
  | filename :: rest =>
      match diff_file st files1 files2 filename with
      | Ok written =>
          let (more, ending) := diff_files st files1 files2 rest in
          ((written ++ more)%list, ending)
      | Throw e => ([], Throw e)
      | OutOfFuel => ([], OutOfFuel)
      end
  end.

(** [diff]: the messages printed through [utils::print_*], the lines
    written to [std::cout], and the result. *)
Definition diff (st : t) (commit1 commit2 : string)
  : list Event * list string * outcome bool :=
  if negb (is_initialized st) then ([print_error "Not a MiniGit repository"], [], Ok false)
  else
    match load_commit st commit1 with
    | Throw e => ([], [], Throw e)
    | OutOfFuel => ([], [], OutOfFuel)
    | Ok commit1_obj =>
        match load_commit st commit2 with
        | Throw e => ([], [], Throw e)
        | OutOfFuel => ([], [], OutOfFuel)
        | Ok commit2_obj =>
            match commit1_obj, commit2_obj with
            | Some commit1_obj, Some commit2_obj =>
                let files1 := Commit.file_blobs commit1_obj in
                let files2 := Commit.file_blobs commit2_obj in
                let (written, ending) :=
                  diff_files st files1 files2 (all_files files1 files2) in
                ([], written, _ ← ending; Ok true)
            | _, _ => ([print_error "Invalid commit hash"], [], Ok false)
            end
        end
    end.

End WithHasher.

End MiniGit.

(** ** Vocabulary of the statements *)

(** [sub] occurs in [s]. *)
Definition contains (s sub : string) : Prop :=
  exists before after : string, s = before ++ sub ++ after.

Definition no_newline (s : string) : Prop := find s nl 0 = None.

(** The number written by the decimal digits [d], read left to right
    after a prefix worth [acc]. *)
Fixpoint uint_value (d : Decimal.uint) (acc : N) : N :=
  match d with
  | Decimal.Nil => acc
  | Decimal.D0 l => uint_value l (10 * acc + 0)%N
  | Decimal.D1 l => uint_value l (10 * acc + 1)%N
  | Decimal.D2 l => uint_value l (10 * acc + 2)%N
  | Decimal.D3 l => uint_value l (10 * acc + 3)%N
  | Decimal.D4 l => uint_value l (10 * acc + 4)%N
  | Decimal.D5 l => uint_value l (10 * acc + 5)%N
  | Decimal.D6 l => uint_value l (10 * acc + 6)%N
  | Decimal.D7 l => uint_value l (10 * acc + 7)%N
  | Decimal.D8 l => uint_value l (10 * acc + 8)%N
  | Decimal.D9 l => uint_value l (10 * acc + 9)%N
  end.

(** The events the first loop of [merge] can emit. *)
Definition is_loop_event (e : MiniGit.Event) : Prop :=
  match e with
  | MiniGit.print_warning _ | MiniGit.save_blob_call _ => True
  | _ => False
  end.

(** A run of [m] from [st] emits only events satisfying [P] and, when it
    returns a value, the value satisfies [Q]. *)
Definition run_ok {A : Type} (P : MiniGit.Event -> Prop) (Q : A -> Prop)
           (m : MiniGit.M A) (st : MiniGit.t) : Prop :=
  List.Forall P (MiniGit.events (m st)) /\
  forall a : A, MiniGit.value (m st) = Ok a -> Q a.

(** [P] constrains the commits handed to [save_commit] and nothing else. *)
Definition on_saved_commit (P : Commit.t -> Prop) (e : MiniGit.Event) : Prop :=
  match e with
  | MiniGit.save_commit_call c => P c
  | _ => True
  end.

Ltac run_command :=
  unfold mbind, mret, MiniGit.M_bind, MiniGit.M_ret, MiniGit.bind, MiniGit.ret,
         MiniGit.get, MiniGit.emit, MiniGit.modify, MiniGit.lift,
         MiniGit.not_a_repository;
  simpl.

Module Examples.

(** A stand-in digest for running the commands on concrete data. *)
#[local] Instance length_digest : utils.Hasher :=
  fun content => "h" ++ show_size (String.length content).

Definition record (hash : string) (parents : list string)
           (files : StdMap.t string) : string :=
  Commit.to_string (Commit.mk hash "m" "user" 1 parents files).

Definition repo (current : string) (branches : StdMap.t Branch.t)
           (staged : StdMap.t Blob.t) (files : list (string * string)) : MiniGit.t :=
  MiniGit.mk "." "./.minigit" "./.minigit/objects" "./.minigit/refs" "./.minigit/HEAD"
    current branches staged true (list_to_map files).

(** Base [B]; the current branch changed [a.txt], the other one added
    [c.txt]; [b.txt] is the same in all three. *)
Definition two_branches : MiniGit.t :=
  repo "main"
    [("feat", Branch.mk "feat" "T"); ("main", Branch.mk "main" "C")] []
    [("./.minigit/HEAD", "C");
     ("./.minigit/objects/B", record "B" [] [("a.txt", "h1"); ("b.txt", "h2")]);
     ("./.minigit/objects/C", record "C" ["B"] [("a.txt", "h3"); ("b.txt", "h2")]);
     ("./.minigit/objects/T",
      record "T" ["B"] [("a.txt", "h1"); ("b.txt", "h2"); ("c.txt", "h4")])].

(** Base [B] with [a.txt]; both branches changed [a.txt], to different
    contents; the three blobs are in the object store. *)
Definition conflicting_branches : MiniGit.t :=
  repo "main"
    [("feat", Branch.mk "feat" "T"); ("main", Branch.mk "main" "C")] []
    [("./.minigit/HEAD", "C");
     ("./.minigit/objects/B", record "B" [] [("a.txt", "h4")]);
     ("./.minigit/objects/C", record "C" ["B"] [("a.txt", "h5")]);
     ("./.minigit/objects/T", record "T" ["B"] [("a.txt", "h6")]);
     ("./.minigit/objects/h4", Blob.to_string (Blob.mk "h4" "base" "a.txt"));
     ("./.minigit/objects/h5", Blob.to_string (Blob.mk "h5" "mine!" "a.txt"));
     ("./.minigit/objects/h6", Blob.to_string (Blob.mk "h6" "theirs" "a.txt"))].

Definition conflicting_branches_merge_commit : Commit.t :=
  Commit.mk "" "Merge branch 'feat' into main" "user" 5 ["C"; "T"]
            [("a.txt", "h53")].

Definition two_branches_merge_commit : Commit.t :=
  Commit.mk "" "Merge branch 'feat' into main" "user" 5 ["C"; "T"]
            [("a.txt", "h3"); ("c.txt", "h4")].

(** HEAD is at [P], which tracks [b.txt]; only [a.txt] is staged. *)
Definition one_staged : MiniGit.t :=
  repo "main" [("main", Branch.mk "main" "P")]
    [("a.txt", Blob.new "hello" "a.txt")]
    [("./.minigit/HEAD", "P");
     ("./.minigit/objects/P", record "P" [] [("b.txt", "h2")])].

Definition one_staged_commit : Commit.t :=
  Commit.mk "" "second" "user" 7 ["P"] [("a.txt", "h5")].

(** A working directory that holds [a.txt] and no repository yet, and the
    session [init], [add a.txt], [commit -m message] in it. *)
Definition working_directory (content : string) : MiniGit.t :=
  MiniGit.new "." {["a.txt" := content]}.

Definition first_commit_session (message : string) (now : Z) : MiniGit.M bool :=
  _ ← MiniGit.init;
  _ ← MiniGit.add "a.txt";
  MiniGit.commit message now.

(** An object store in which commit [a] names itself as its parent. *)
Definition self_parent : MiniGit.t :=
  repo "main" [("main", Branch.mk "main" "a")] []
    [("./.minigit/HEAD", "a");
     ("./.minigit/objects/a", record "a" ["a"] [])].

(** [main] has a commit, [topic] was created before any commit. *)
Definition unborn_branch : MiniGit.t :=
  repo "main" [("main", Branch.mk "main" "P"); ("topic", Branch.mk "topic" "")] []
    [("./.minigit/HEAD", "P");
     ("./.minigit/objects/P", record "P" [] [("b.txt", "h2")])].

End Examples.

(** ** Vocabulary of the further properties *)

(** The result [r] with the events [es] put in front of its own. *)
Definition preceded_by {A : Type} (es : list MiniGit.Event) (r : MiniGit.Result A)
  : MiniGit.Result A :=
  MiniGit.mkResult (MiniGit.value r) (MiniGit.final r) (es ++ MiniGit.events r)%list.

(** The paths of a [MiniGit] object are the ones its constructor builds
    from [repo_path]. *)
Definition standard_layout (st : MiniGit.t) : Prop :=
  MiniGit.minigit_path st = MiniGit.repo_path st ++ "/.minigit" /\
  MiniGit.objects_path st = MiniGit.minigit_path st ++ "/objects" /\
  MiniGit.refs_path st = MiniGit.minigit_path st ++ "/refs" /\
  MiniGit.head_path st = MiniGit.minigit_path st ++ "/HEAD".

(** Some file was changed to different blobs by the two sides. *)
Definition has_conflict (current_changes target_changes : StdMap.t string) : bool :=
  existsb (fun '(filename, blob_hash) =>
             match StdMap.find filename current_changes with
             | Some ours_hash => negb (String.eqb ours_hash blob_hash)
             | None => false
             end)
          target_changes.

(** The walk of [get_commit_ancestors] from a hash: it stops at the
    empty hash and at a hash that loads no commit, ends with a commit
    that has no parent, and otherwise goes on from the first parent. *)
Inductive first_parent_chain (st : MiniGit.t) : string -> list string -> Prop :=
| chain_unborn : first_parent_chain st "" []
| chain_missing (h : string) :
    h <> "" -> MiniGit.load_commit st h = Ok None -> first_parent_chain st h []
| chain_root (h : string) (c : Commit.t) :
    h <> "" -> MiniGit.load_commit st h = Ok (Some c) ->
    Commit.parent_hashes c = [] ->
    first_parent_chain st h [h]
| chain_step (h : string) (c : Commit.t) (parent : string) (others rest : list string) :
    h <> "" -> MiniGit.load_commit st h = Ok (Some c) ->
    Commit.parent_hashes c = parent :: others ->
    first_parent_chain st parent rest ->
    first_parent_chain st h (h :: rest).

(** [m] changes no field of the object, only files. *)
Definition changes_files_only {A : Type} (m : MiniGit.M A) : Prop :=
  forall st : MiniGit.t,
  exists files : gmap string string, MiniGit.final (m st) = MiniGit.set_disk st files.

(** The parent hashes named by [lines], each once, in the order of
    their first occurrence; a line that is no [parent] line names none. *)
Definition parent_entries (lines : list string) : list string :=
  fold_left
    (fun found line =>
       if starts_with line "parent "
       then if existsb (String.eqb (string_drop 7 line)) found then found
            else (found ++ [string_drop 7 line])%list
       else found)
    lines [].

(** The file name and blob hash of a [file] line: the name ends at the
    first space. *)
Definition file_entry (line : string) : option (string * string) :=
  if starts_with line "file "
  then match find (string_drop 5 line) " " 0 with
       | Some space_pos =>
           Some (string_take space_pos (string_drop 5 line),
                 string_drop (space_pos + 1) (string_drop 5 line))
       | None => None
       end
  else None.

(** The file table named by [lines]: for a name that occurs twice the
    later line counts. *)
Definition file_entries (lines : list string) : StdMap.t string :=
  fold_left
    (fun table line =>
       match file_entry line with
       | Some (filename, blob_hash) => StdMap.insert filename blob_hash table
       | None => table
       end)
    lines StdMap.empty.

(** [st] after [save_blob] of each of [blobs], in order. *)
Definition after_saving (st : MiniGit.t) (blobs : list Blob.t) : MiniGit.t :=
  fold_left (fun s blob => MiniGit.final (MiniGit.save_blob blob s)) blobs st.

(** The two sides changed [filename] to different blobs. *)
Definition changed_differently (current_changes target_changes : StdMap.t string)
           (filename : string) : Prop :=
  exists ours theirs : string,
    StdMap.find filename current_changes = Some ours /\
    StdMap.find filename target_changes = Some theirs /\
    ours <> theirs.

(** What [merge] records for a file both sides changed differently,
    from the three blobs as they load: the hash of the blob with the
    merged content, which is the digest of that content, or nothing when
    one of them does not load. *)
Definition merged_entry `{utils.Hasher} (base_blob ours_blob theirs_blob : option Blob.t)
  : option string :=
  match base_blob, ours_blob, theirs_blob with
  | Some base_blob, Some ours_blob, Some theirs_blob =>
      Some (utils.sha1_hash
              (MiniGit.merge_files (Blob.content base_blob) (Blob.content ours_blob)
                                   (Blob.content theirs_blob)))
  | _, _, _ => None
  end.

(** The blobs handed to [save_blob] among [events], in order. *)
Definition saved_blobs (events : list MiniGit.Event) : list Blob.t :=
  flat_map (fun e => match e with
                     | MiniGit.save_blob_call blob => [blob]
                     | _ => []
                     end) events.

(** [e] is the conflict warning, or the saving of the merged blob, of a
    file that both sides changed differently and that comes before
    [filename] in the order of the file names. *)
Definition earlier_conflict `{utils.Hasher} (current_changes target_changes : StdMap.t string)
           (filename : string) (e : MiniGit.Event) : Prop :=
  exists earlier : string,
    String_as_OT.cmp earlier filename = Lt /\
    changed_differently current_changes target_changes earlier /\
    (e = MiniGit.print_warning ("CONFLICT: both modified " ++ earlier) \/
     exists content : string, e = MiniGit.save_blob_call (Blob.new content earlier)).

(** How a run with the events [events] from the state [st] resolved the
    file [filename], which the current side changed to the blob [ours]
    and the target to the blob [theirs].  [before] are the events up to
    the conflict warning for the file: they belong to the conflicting
    files before it.  In the store as it was then, that is [st] after the
    merged blobs saved so far, the base commit [lca] and the three blobs
    loaded without an exception, and the base commit has an entry for the
    file.  [entry] is what the three blobs give. *)
Definition conflict_resolved `{utils.Hasher} (st : MiniGit.t) (lca : string)
           (current_changes target_changes : StdMap.t string)
           (events : list MiniGit.Event) (filename ours theirs : string)
           (entry : option string) : Prop :=
  exists (before after : list MiniGit.Event) (base_commit : Commit.t) (base_hash : string)
         (base_blob ours_blob theirs_blob : option Blob.t),
    events = (before
              ++ MiniGit.print_warning ("CONFLICT: both modified " ++ filename) :: after)%list /\
    Forall (earlier_conflict current_changes target_changes filename) before /\
    let s := after_saving st (saved_blobs before) in
    MiniGit.load_commit s lca = Ok (Some base_commit) /\
    StdMap.find filename (Commit.file_blobs base_commit) = Some base_hash /\
    MiniGit.load_blob s base_hash = Ok base_blob /\
    MiniGit.load_blob s ours = Ok ours_blob /\
    MiniGit.load_blob s theirs = Ok theirs_blob /\
    entry = merged_entry base_blob ours_blob theirs_blob.

(** A name without a path separator: the file [refs_path/name] lies in
    the refs directory. *)
Definition plain_name (name : string) : Prop := find name "/" 0 = None.

(** The record of the current branch, when there is one, has a plain
    name: the file that [update_current_branch] writes lies in the refs
    directory. *)
Definition current_branch_is_plain (st : MiniGit.t) : Prop :=
  forall b : Branch.t,
    StdMap.find (MiniGit.current_branch st) (MiniGit.branches st) = Some b ->
    plain_name (Branch.name b).

(** The calls to [save_blob], [save_commit], [save_head] and
    [save_branch] among the events of a run, in order. *)
Definition is_save (e : MiniGit.Event) : bool :=
  match e with
  | MiniGit.save_blob_call _ | MiniGit.save_commit_call _
  | MiniGit.save_head_call _ | MiniGit.save_branch_call _ => true
  | _ => false
  end.

Definition saves {A : Type} (r : MiniGit.Result A) : list MiniGit.Event :=
  filter is_save (MiniGit.events r).

Module Scenarios.

Definition empty_directory : MiniGit.t := MiniGit.new "." ∅.

(** A repository on [main] at commit [P], nothing staged, with a file
    [notes.txt] in the working directory. *)
Definition with_notes : MiniGit.t :=
  Examples.repo "main" [("main", Branch.mk "main" "P")] []
    [("notes.txt", "remember");
     ("./.minigit/HEAD", "P");
     ("./.minigit/objects/P", Examples.record "P" [] [("b.txt", "h2")])].

End Scenarios.

(** * Properties *)

(** ** Three-way content merge *)

Lemma eqb_neq_false (a b : string) : a <> b -> String.eqb a b = false.
Proof. intros Hne. apply String.eqb_neq. exact Hne. Qed.

Lemma append_nil_l (s : string) : "" ++ s = s.
Proof. reflexivity. Qed.

Lemma append_cons (c : ascii) (s1 s2 : string) : String c s1 ++ s2 = String c (s1 ++ s2).
Proof. reflexivity. Qed.

Lemma append_assoc (s1 s2 s3 : string) : (s1 ++ s2) ++ s3 = s1 ++ (s2 ++ s3).
Proof.
  induction s1 as [|c s1 IH]; [reflexivity|].
  rewrite !append_cons. now rewrite IH.
Qed.

(** C7: [merge_files] returns [ours] when both sides agree, [theirs] when
    only theirs moved away from the base, [ours] when only ours did, and
    otherwise the base followed by the conflict block (opening marker, ours,
    separator, theirs, closing marker), which contains both sides. *)
Theorem merge_files_cases (base ours theirs : string) :
  (ours = theirs -> MiniGit.merge_files base ours theirs = ours) /\
  (base = ours -> MiniGit.merge_files base ours theirs = theirs) /\
  (base = theirs -> MiniGit.merge_files base ours theirs = ours) /\
  (ours <> theirs -> base <> ours -> base <> theirs ->
     MiniGit.merge_files base ours theirs =
       base ++ (endl ++ "<<<<<<< HEAD" ++ endl) ++ ours
            ++ (endl ++ "=======" ++ endl) ++ theirs
            ++ (endl ++ ">>>>>>> MERGE" ++ endl)
     /\ contains (MiniGit.merge_files base ours theirs) ours
     /\ contains (MiniGit.merge_files base ours theirs) theirs).
Proof.
  unfold MiniGit.merge_files.
  split; [|split; [|split]].
  - intros ->. now rewrite String.eqb_refl.
  - intros ->. destruct (String.eqb ours theirs) eqn:E.
    + now apply String.eqb_eq in E.
    + now rewrite String.eqb_refl.
  - intros ->. destruct (String.eqb ours theirs) eqn:E.
    + reflexivity.
    + destruct (String.eqb theirs ours) eqn:E'.
      * apply String.eqb_eq in E'. subst. now rewrite String.eqb_refl in E.
      * now rewrite String.eqb_refl.
  - intros H1 H2 H3. rewrite !eqb_neq_false by assumption.
    split; [reflexivity|split].
    + exists (base ++ (endl ++ "<<<<<<< HEAD" ++ endl)),
             ((endl ++ "=======" ++ endl) ++ theirs ++ (endl ++ ">>>>>>> MERGE" ++ endl)).
      now rewrite !append_assoc.
    + exists (base ++ (endl ++ "<<<<<<< HEAD" ++ endl) ++ ours ++ (endl ++ "=======" ++ endl)),
             (endl ++ ">>>>>>> MERGE" ++ endl).
      now rewrite !append_assoc.
Qed.

Lemma merge_files_cases_witness :
  ("ours" <> "theirs" /\ "base" <> "ours" /\ "base" <> "theirs") /\
  MiniGit.merge_files "base" "ours" "theirs" =
    "base" ++ (endl ++ "<<<<<<< HEAD" ++ endl) ++ "ours"
           ++ (endl ++ "=======" ++ endl) ++ "theirs"
           ++ (endl ++ ">>>>>>> MERGE" ++ endl).
Proof.
  assert (H : "ours" <> "theirs" /\ "base" <> "ours" /\ "base" <> "theirs")
    by (repeat split; discriminate).
  split; [exact H|].
  destruct H as (H1 & H2 & H3).
  destruct (merge_files_cases "base" "ours" "theirs") as (_ & _ & _ & Hconflict).
  exact (proj1 (Hconflict H1 H2 H3)).
Defined.

(** C8: when HEAD already equals the target branch's commit, [merge]
    succeeds, prints "Already up to date" and leaves the whole state as it
    was: nothing is saved, and HEAD and every branch are unchanged. *)
Theorem merge_already_up_to_date `{utils.Hasher}
        (fuel : nat) (st : MiniGit.t) (branch_name : string) (now : Z)
        (target_branch : Branch.t) :
  MiniGit.is_initialized st = true ->
  StdMap.find branch_name (MiniGit.branches st) = Some target_branch ->
  MiniGit.load_head st = Branch.commit_hash target_branch ->
  MiniGit.merge fuel branch_name now st =
    MiniGit.mkResult (Ok true) st [MiniGit.print_info "Already up to date"].
Proof.
  intros Hinit Hfind Hhead.
  unfold MiniGit.merge. run_command.
  rewrite Hinit, Hfind, Hhead, String.eqb_refl. reflexivity.
Qed.

Lemma merge_already_up_to_date_witness :
  let st := MiniGit.set_disk Examples.two_branches
              (<["./.minigit/HEAD" := "T"]> (MiniGit.disk Examples.two_branches)) in
  (MiniGit.is_initialized st = true /\
   StdMap.find "feat" (MiniGit.branches st) = Some (Branch.mk "feat" "T") /\
   MiniGit.load_head st = "T") /\
  MiniGit.merge (H := Examples.length_digest) 0 "feat" 5 st =
    MiniGit.mkResult (Ok true) st [MiniGit.print_info "Already up to date"].
Proof.
  intros st.
  assert (H : MiniGit.is_initialized st = true /\
              StdMap.find "feat" (MiniGit.branches st) = Some (Branch.mk "feat" "T") /\
              MiniGit.load_head st = "T")
    by (repeat split; vm_compute; reflexivity).
  split; [exact H|].
  destruct H as (H1 & H2 & H3).
  exact (merge_already_up_to_date (H := Examples.length_digest)
           0 st "feat" 5 (Branch.mk "feat" "T") H1 H2 H3).
Defined.

(** C10: [checkout] of an existing branch whose commit hash is empty
    succeeds and makes it the current branch without touching the disk, so
    the persisted HEAD keeps its value; when the branch has a commit hash,
    HEAD is rewritten with it. *)
Theorem checkout_branch (st : MiniGit.t) (target : string) (target_branch : Branch.t) :
  MiniGit.is_initialized st = true ->
  StdMap.find target (MiniGit.branches st) = Some target_branch ->
  (Branch.commit_hash target_branch = "" ->
     MiniGit.checkout target st =
       MiniGit.mkResult (Ok true) (MiniGit.set_current_branch st target)
         [MiniGit.print_success ("Switched to branch '" ++ target ++ "'")]
     /\ MiniGit.current_branch (MiniGit.final (MiniGit.checkout target st)) = target
     /\ MiniGit.load_head (MiniGit.final (MiniGit.checkout target st)) = MiniGit.load_head st)
  /\
  (Branch.commit_hash target_branch <> "" ->
     MiniGit.checkout target st =
       MiniGit.mkResult (Ok true)
         (MiniGit.set_disk (MiniGit.set_current_branch st target)
            (snd (MiniGit.write_file (MiniGit.disk st) (MiniGit.head_path st)
                    (Branch.commit_hash target_branch))))
         [MiniGit.save_head_call (Branch.commit_hash target_branch);
          MiniGit.print_success ("Switched to branch '" ++ target ++ "'")]).
Proof.
  intros Hinit Hfind.
  unfold MiniGit.checkout. run_command.
  rewrite Hinit, Hfind. simpl.
  split.
  - intros ->. simpl. repeat split.
  - intros Hne. rewrite (eqb_neq_false _ _ Hne). reflexivity.
Qed.

Lemma checkout_branch_witness :
  let st := Examples.unborn_branch in
  (MiniGit.is_initialized st = true /\
   StdMap.find "topic" (MiniGit.branches st) = Some (Branch.mk "topic" "")) /\
  MiniGit.current_branch (MiniGit.final (MiniGit.checkout "topic" st)) = "topic" /\
  MiniGit.load_head (MiniGit.final (MiniGit.checkout "topic" st)) = "P".
Proof.
  intros st.
  assert (H : MiniGit.is_initialized st = true /\
              StdMap.find "topic" (MiniGit.branches st) = Some (Branch.mk "topic" ""))
    by (split; vm_compute; reflexivity).
  split; [exact H|].
  destruct H as (H1 & H2).
  destruct (checkout_branch st "topic" (Branch.mk "topic" "") H1 H2) as (Hempty & _).
  destruct (Hempty eq_refl) as (_ & Hcur & Hhead).
  split; [exact Hcur|]. rewrite Hhead. vm_compute. reflexivity.
Defined.

(** ** History walk *)

Lemma ancestors_loop_more_fuel (st : MiniGit.t) (fuel : nat) :
  forall (current : string) (acc result : list string),
    MiniGit.ancestors_loop fuel st current acc = Ok result ->
    forall fuel', fuel <= fuel' ->
      MiniGit.ancestors_loop fuel' st current acc = Ok result.
Proof.
  induction fuel as [|fuel IH]; intros current acc result Hrun fuel' Hle.
  - discriminate.
  - destruct fuel' as [|fuel']; [lia|].
    simpl in *.
    destruct (String.eqb current ""); [exact Hrun|].
    destruct (MiniGit.load_commit st current) as [[c|]|e|]; simpl in *;
      try exact Hrun.
    destruct (Commit.is_initial_commit c); [exact Hrun|].
    apply IH with (fuel' := fuel') in Hrun; [exact Hrun|lia].
Qed.

Lemma ancestors_loop_extends (st : MiniGit.t) (fuel : nat) :
  forall (current : string) (acc result : list string),
    MiniGit.ancestors_loop fuel st current acc = Ok result ->
    exists more : list string,
      result = (acc ++ more)%list /\ ("" ∉ more) /\
      (current <> "" -> (exists c, MiniGit.load_commit st current = Ok (Some c)) ->
       exists rest, more = current :: rest).
Proof.
  induction fuel as [|fuel IH]; intros current acc result Hrun.
  - discriminate.
  - simpl in Hrun.
    destruct (String.eqb current "") eqn:Hcur.
    { apply String.eqb_eq in Hcur. injection Hrun as <-.
      exists []. rewrite app_nil_r. repeat split; [apply not_elem_of_nil|congruence]. }
    apply String.eqb_neq in Hcur.
    destruct (MiniGit.load_commit st current) as [[c|]|e|] eqn:Hload;
      simpl in Hrun; try discriminate.
    + destruct (Commit.is_initial_commit c).
      * injection Hrun as <-. exists [current]. repeat split.
        -- intros Hin. apply list_elem_of_singleton in Hin. congruence.
        -- intros _ _. now exists [].
      * apply IH in Hrun as (more & -> & Hmore & _).
        exists (current :: more). rewrite <- app_assoc. repeat split.
        -- intros Hin. apply elem_of_cons in Hin as [Hin|Hin]; [congruence|auto].
        -- intros _ _. now exists more.
    + injection Hrun as <-. exists []. rewrite app_nil_r.
      repeat split; [apply not_elem_of_nil|].
      intros _ (c & Hc). discriminate.
Qed.

Lemma first_in_set_spec (known : list string) (scanned : list string) :
  let r := MiniGit.first_in_set (list_to_set known) scanned in
  (exists before after : list string,
      scanned = (before ++ r :: after)%list /\ r ∈ known /\
      (forall h, h ∈ before -> h ∉ known))
  \/ (r = "" /\ forall h, h ∈ scanned -> h ∉ known).
Proof.
  induction scanned as [|h scanned IH]; simpl.
  - right. split; [reflexivity|]. intros h Hin. now apply not_elem_of_nil in Hin.
  - destruct (bool_decide (h ∈ (list_to_set known : gset string))) eqn:Hmem.
    + apply bool_decide_eq_true in Hmem. apply elem_of_list_to_set in Hmem.
      left. exists [], scanned. repeat split; [exact Hmem|].
      intros h' Hin. now apply not_elem_of_nil in Hin.
    + apply bool_decide_eq_false in Hmem. rewrite elem_of_list_to_set in Hmem.
      destruct IH as [(before & after & Heq & Hin & Hbefore)|(Hr & Hnone)].
      * left. exists (h :: before), after. repeat split.
        -- simpl. now rewrite <- Heq.
        -- exact Hin.
        -- intros h' Hin'. apply elem_of_cons in Hin' as [->|Hin']; auto.
      * right. split; [exact Hr|].
        intros h' Hin'. apply elem_of_cons in Hin' as [->|Hin']; auto.
Qed.

(** The spec's [ancestors(root)] property: a commit without parents is
    its own whole ancestry. *)
Lemma ancestors_of_root (st : MiniGit.t) (fuel : nat) (root : string) (c : Commit.t) :
  root <> "" ->
  MiniGit.load_commit st root = Ok (Some c) ->
  Commit.parent_hashes c = [] ->
  MiniGit.get_commit_ancestors (S fuel) st root = Ok [root].
Proof.
  intros Hne Hload Hroot. unfold MiniGit.get_commit_ancestors. simpl.
  rewrite (eqb_neq_false _ _ Hne), Hload. simpl.
  unfold Commit.is_initial_commit. now rewrite Hroot.
Qed.

(** A hash that is not in the store ends the walk without an error. *)
Lemma ancestors_of_absent (st : MiniGit.t) (fuel : nat) (h : string) :
  MiniGit.load_commit st h = Ok None ->
  MiniGit.get_commit_ancestors (S fuel) st h = Ok [].
Proof.
  intros Hload. unfold MiniGit.get_commit_ancestors. simpl.
  destruct (String.eqb h ""); [reflexivity|]. now rewrite Hload.
Qed.

(** C5 (failing input): on a store in which commit [a] is its own first
    parent the loop of [get_commit_ancestors] has no bound: whatever fuel
    it is given, it is still running when the fuel ends. *)
Theorem ancestors_never_returns_on_cycle (fuel : nat) :
  MiniGit.get_commit_ancestors fuel Examples.self_parent "a" = OutOfFuel.
Proof.
  unfold MiniGit.get_commit_ancestors. generalize (@nil string) as acc.
  induction fuel as [|fuel IH]; intros acc; [reflexivity|].
  assert (Hload : MiniGit.load_commit Examples.self_parent "a"
                  = Ok (Some (Commit.mk "a" "m" "user" 1 ["a"] [])))
    by (vm_compute; reflexivity).
  simpl. rewrite Hload. simpl. apply IH.
Qed.

Lemma walk_on_self_parent (fuel : nat) :
  forall acc : list string,
    MiniGit.ancestors_loop fuel Examples.self_parent "a" acc = OutOfFuel.
Proof.
  induction fuel as [|fuel IH]; intros acc; [reflexivity|].
  assert (Hload : MiniGit.load_commit Examples.self_parent "a"
                  = Ok (Some (Commit.mk "a" "m" "user" 1 ["a"] [])))
    by (vm_compute; reflexivity).
  simpl. rewrite Hload. simpl. apply IH.
Qed.

(** C6 (failing input): on a store in which commit [a] is its own first
    parent, [a] is a committed hash, yet [find_lowest_common_ancestor]
    for the pair [(a, a)] does not return [a]: the walk it starts first
    is still running when the fuel ends, whatever the fuel. *)
Theorem common_ancestor_never_returns_on_cycle :
  MiniGit.load_commit Examples.self_parent "a"
  = Ok (Some (Commit.mk "a" "m" "user" 1 ["a"] [])) /\
  forall fuel : nat,
    MiniGit.find_lowest_common_ancestor fuel Examples.self_parent "a" "a" = OutOfFuel.
Proof.
  split; [vm_compute; reflexivity|].
  intros fuel. unfold MiniGit.find_lowest_common_ancestor, MiniGit.get_commit_ancestors.
  now rewrite walk_on_self_parent.
Qed.

(** ** The ordered map *)

Section StdMapFacts.
Context {V : Type}.
Implicit Types (m : StdMap.t V) (k : string) (v : V).

Lemma cmp_gt_lt k k' : String_as_OT.cmp k k' = Gt -> String_as_OT.cmp k' k = Lt.
Proof. intros H. rewrite String_as_OT.cmp_antisym, H. reflexivity. Qed.

Lemma cmp_lt_trans k1 k2 k3 :
  String_as_OT.cmp k1 k2 = Lt -> String_as_OT.cmp k2 k3 = Lt -> String_as_OT.cmp k1 k3 = Lt.
Proof.
  rewrite !String_as_OT.cmp_lt. apply String_as_OT.lt_trans.
Qed.

Lemma cmp_lt_neq k k' : String_as_OT.cmp k k' = Lt -> k <> k'.
Proof.
  intros Hlt ->. assert (String_as_OT.cmp k' k' = Eq) by now apply String_as_OT.cmp_eq.
  congruence.
Qed.

Lemma find_insert k k' v m :
  StdMap.find k' (StdMap.insert k v m) =
    if String.eqb k' k then Some v else StdMap.find k' m.
Proof.
  induction m as [|[k0 v0] m IH]; simpl; [reflexivity|].
  destruct (String_as_OT.cmp k k0) eqn:Hcmp; simpl.
  - apply String_as_OT.cmp_eq in Hcmp. subst k0.
    now destruct (String.eqb k' k).
  - reflexivity.
  - rewrite IH. destruct (String.eqb k' k0) eqn:E0; [|reflexivity].
    apply String.eqb_eq in E0. subst k0.
    destruct (String.eqb k' k) eqn:E; [|reflexivity].
    apply String.eqb_eq in E. subst k'.
    assert (String_as_OT.cmp k k = Eq) by now apply String_as_OT.cmp_eq.
    congruence.
Qed.

Lemma find_insert_same k v m : StdMap.find k (StdMap.insert k v m) = Some v.
Proof. rewrite find_insert. now rewrite String.eqb_refl. Qed.

Lemma find_insert_other k k' v m :
  k' <> k -> StdMap.find k' (StdMap.insert k v m) = StdMap.find k' m.
Proof. intros Hne. rewrite find_insert. now rewrite (eqb_neq_false _ _ Hne). Qed.

Lemma wf_cons_iff k v m :
  StdMap.wf ((k, v) :: m) = true <->
  Forall (fun p => String_as_OT.cmp k (fst p) = Lt) m /\ StdMap.wf m = true.
Proof.
  revert k v. induction m as [|[k0 v0] m IH]; intros k v.
  - simpl. split; [intros _; split; [constructor|reflexivity]|reflexivity].
  - change (StdMap.wf ((k, v) :: (k0, v0) :: m))
      with (match String_as_OT.cmp k k0 with
            | Lt => StdMap.wf ((k0, v0) :: m)
            | _ => false
            end).
    split.
    + destruct (String_as_OT.cmp k k0) eqn:Hcmp; try discriminate.
      intros Hwf. split; [|exact Hwf].
      apply IH in Hwf as (Hall & _).
      constructor; [exact Hcmp|].
      eapply Forall_impl; [exact Hall|].
      intros p Hp. eapply cmp_lt_trans; eassumption.
    + intros (Hall & Hwf). inversion Hall as [|? ? Hhead _]; subst.
      simpl in Hhead. now rewrite Hhead.
Qed.

Lemma Forall_keys_insert (Q : string -> Prop) k v m :
  Q k -> Forall (fun p => Q (fst p)) m ->
  Forall (fun p => Q (fst p)) (StdMap.insert k v m).
Proof.
  intros Hk. induction m as [|[k0 v0] m IH]; intros Hall; simpl.
  - now constructor.
  - inversion Hall as [|? ? Hhead Htail]; subst.
    destruct (String_as_OT.cmp k k0); constructor; auto.
Qed.

Lemma insert_wf k v m : StdMap.wf m = true -> StdMap.wf (StdMap.insert k v m) = true.
Proof.
  induction m as [|[k0 v0] m IH]; intros Hwf; [reflexivity|].
  pose proof Hwf as Hwf0. apply wf_cons_iff in Hwf as (Hall & Hwf).
  cbn [StdMap.insert].
  destruct (String_as_OT.cmp k k0) eqn:Hcmp.
  - apply String_as_OT.cmp_eq in Hcmp. subst k0. apply wf_cons_iff. now split.
  - apply wf_cons_iff. split; [|exact Hwf0].
    constructor; [exact Hcmp|].
    eapply Forall_impl; [exact Hall|].
    intros p Hp. eapply cmp_lt_trans; eassumption.
  - apply wf_cons_iff. split; [|now apply IH].
    apply (Forall_keys_insert (fun x => String_as_OT.cmp k0 x = Lt)); [|exact Hall].
    now apply cmp_gt_lt.
Qed.

Lemma find_none_above k m :
  Forall (fun p => String_as_OT.cmp k (fst p) = Lt) m -> StdMap.find k m = None.
Proof.
  induction 1 as [|[k0 v0] m Hhead _ IH]; simpl; [reflexivity|].
  simpl in Hhead. now rewrite (eqb_neq_false _ _ (cmp_lt_neq _ _ Hhead)).
Qed.

Lemma wf_app_below (pre : StdMap.t V) k v m :
  StdMap.wf (pre ++ (k, v) :: m)%list = true ->
  Forall (fun p => String_as_OT.cmp (fst p) k = Lt) pre.
Proof.
  induction pre as [|[k0 v0] pre IH]; intros Hwf; [constructor|].
  rewrite <- app_comm_cons in Hwf. apply (wf_cons_iff k0 v0) in Hwf as (Hall & Hwf).
  apply List.Forall_cons; [|now apply IH].
  rewrite List.Forall_forall in Hall.
  apply (Hall (k, v)). apply in_or_app. right. now left.
Qed.

Lemma insert_above_all k v m :
  Forall (fun p => String_as_OT.cmp (fst p) k = Lt) m ->
  StdMap.insert k v m = (m ++ [(k, v)])%list.
Proof.
  induction 1 as [|[k0 v0] m Hhead _ IH]; simpl; [reflexivity|].
  simpl in Hhead. rewrite String_as_OT.cmp_antisym, Hhead. simpl. now rewrite IH.
Qed.

Lemma wf_tail k v m : StdMap.wf ((k, v) :: m) = true -> StdMap.wf m = true.
Proof. intros H. now apply wf_cons_iff in H. Qed.

Lemma wf_find_In k v m :
  StdMap.wf m = true -> In (k, v) m -> StdMap.find k m = Some v.
Proof.
  induction m as [|[k0 v0] m IH]; intros Hwf Hin; [contradiction|].
  apply wf_cons_iff in Hwf as (Hall & Hwf).
  destruct Hin as [Heq|Hin].
  - injection Heq as -> ->. simpl. now rewrite String.eqb_refl.
  - simpl. destruct (String.eqb k k0) eqn:E; [|now apply IH].
    apply String.eqb_eq in E. subst k0.
    rewrite List.Forall_forall in Hall. specialize (Hall _ Hin). simpl in Hall.
    now apply cmp_lt_neq in Hall.
Qed.

Lemma find_Some_In k v m : StdMap.find k m = Some v -> In (k, v) m.
Proof.
  induction m as [|[k0 v0] m IH]; simpl; [discriminate|].
  destruct (String.eqb k k0) eqn:E.
  - apply String.eqb_eq in E. subst k0. intros [= ->]. now left.
  - intros H. right. now apply IH.
Qed.

End StdMapFacts.

(** Writing the entries of a well-formed map one by one into an empty map
    gives the same entries back, whatever is done to the values. *)
Lemma fold_insert_wf {V W : Type} (g : V -> W) (m pre : StdMap.t V) :
  StdMap.wf (pre ++ m)%list = true ->
  fold_left (fun acc '(k, v) => StdMap.insert k (g v) acc) m
            (List.map (fun '(k, v) => (k, g v)) pre)
  = List.map (fun '(k, v) => (k, g v)) (pre ++ m)%list.
Proof.
  revert pre. induction m as [|[k v] m IH]; intros pre Hwf.
  - simpl. now rewrite app_nil_r.
  - simpl. rewrite insert_above_all.
    + specialize (IH (pre ++ [(k, v)])%list).
      rewrite <- app_assoc in IH. simpl in IH.
      rewrite map_app in IH. simpl in IH. now apply IH.
    + apply wf_app_below in Hwf.
      apply Forall_map. eapply Forall_impl; [exact Hwf|].
      now intros [k0 v0].
Qed.

(** ** [commit] *)

Lemma add_file_hash (c : Commit.t) (f h : string) :
  Commit.hash (Commit.add_file c f h) = Commit.hash c.
Proof. reflexivity. Qed.

Lemma add_parent_hash (c : Commit.t) (p : string) :
  Commit.hash (Commit.add_parent c p) = Commit.hash c.
Proof. unfold Commit.add_parent. now destruct (Commit.has_parent c p). Qed.

Lemma add_parent_file_blobs (c : Commit.t) (p : string) :
  Commit.file_blobs (Commit.add_parent c p) = Commit.file_blobs c.
Proof. unfold Commit.add_parent. now destruct (Commit.has_parent c p). Qed.

Lemma fold_add_file_hash {V : Type} (g : V -> string) (l : list (string * V)) :
  forall c : Commit.t,
    Commit.hash (fold_left (fun c '(f, v) => Commit.add_file c f (g v)) l c)
    = Commit.hash c.
Proof. induction l as [|[f v] l IH]; intros c; simpl; [reflexivity|now rewrite IH]. Qed.

Lemma fold_add_file_blobs {V : Type} (g : V -> string) (l : list (string * V)) :
  forall c : Commit.t,
    Commit.file_blobs (fold_left (fun c '(f, v) => Commit.add_file c f (g v)) l c)
    = fold_left (fun acc '(f, v) => StdMap.insert f (g v) acc) l (Commit.file_blobs c).
Proof. induction l as [|[f v] l IH]; intros c; simpl; [reflexivity|now rewrite IH]. Qed.

(** The staging loop saves every staged blob, in order, and adds one file
    entry per staged file; it touches nothing but the disk. *)
Lemma commit_staged_run (staged : list (string * Blob.t)) :
  forall (c : Commit.t) (st : MiniGit.t),
    let r := MiniGit.commit_staged staged c st in
    MiniGit.value r
      = Ok (fold_left (fun c '(f, b) => Commit.add_file c f (Blob.hash b)) staged c) /\
    MiniGit.events r = List.map (fun '(_, b) => MiniGit.save_blob_call b) staged /\
    MiniGit.current_branch (MiniGit.final r) = MiniGit.current_branch st /\
    MiniGit.branches (MiniGit.final r) = MiniGit.branches st.
Proof.
  induction staged as [|[f b] staged IH]; intros c st; simpl.
  - repeat split.
  - unfold mbind, MiniGit.M_bind, MiniGit.bind. simpl.
    match goal with
    | |- context [MiniGit.commit_staged staged ?c' ?st'] =>
        destruct (IH c' st') as (Hv & He & Hc & Hb)
    end.
    rewrite Hv. simpl. rewrite He, Hc, Hb. repeat split.
Qed.

Lemma save_blob_events_no_commit {V : Type} (l : list (string * V)) (g : V -> Blob.t)
      (c : Commit.t) :
  ~ In (MiniGit.save_commit_call c) (List.map (fun '(_, b) => MiniGit.save_blob_call (g b)) l).
Proof.
  induction l as [|[f b] l IH]; simpl; [tauto|].
  intros [Heq|Hin]; [discriminate|contradiction].
Qed.

(** The one commit that [commit] hands to [save_commit]. *)
Lemma commit_saves (st : MiniGit.t) (message : string) (now : Z) (c : Commit.t) :
  In (MiniGit.save_commit_call c) (MiniGit.events (MiniGit.commit message now st)) ->
  c = fold_left (fun c '(f, b) => Commit.add_file c f (Blob.hash b))
        (MiniGit.staging_area st)
        (if String.eqb (MiniGit.load_head st) "" then Commit.new message "user" now
         else Commit.add_parent (Commit.new message "user" now) (MiniGit.load_head st)).
Proof.
  unfold MiniGit.commit. run_command.
  destruct (MiniGit.is_initialized st); simpl;
    [|intros [Heq|[]]; discriminate].
  destruct (StdMap.is_empty (MiniGit.staging_area st)); simpl;
    [intros [Heq|[]]; discriminate|].
  match goal with
  | |- context [MiniGit.commit_staged ?l ?c' ?st'] =>
      destruct (commit_staged_run l c' st') as (Hv & He & Hc & Hb);
      set (c0 := c') in *
  end.
  simpl in Hv, He, Hc, Hb. rewrite Hv. simpl. rewrite He.
  assert (Hhash : Commit.hash
                    (fold_left (fun c '(f, b) => Commit.add_file c f (Blob.hash b))
                               (MiniGit.staging_area st) c0) = "").
  { rewrite (fold_add_file_hash Blob.hash). subst c0.
    destruct (String.eqb (MiniGit.load_head st) ""); [reflexivity|].
    now rewrite add_parent_hash. }
  rewrite !Hhash.
  intros Hin. apply in_app_or in Hin as [Hin|Hin].
  - exfalso. revert Hin. apply (save_blob_events_no_commit _ (fun b => b)).
  - destruct Hin as [Heq|Hin]; [now injection Heq as <-|].
    exfalso. destruct Hin as [Heq|Hin]; [discriminate|].
    unfold MiniGit.update_current_branch in Hin. revert Hin. run_command.
    rewrite Hc, Hb.
    destruct (StdMap.find (MiniGit.current_branch st) (MiniGit.branches st)); simpl;
      intros Hin; repeat (destruct Hin as [Heq|Hin]; [discriminate|]); exact Hin.
Qed.

Lemma find_map_values {V W : Type} (g : V -> W) (k : string) (m : StdMap.t V) :
  StdMap.find k (List.map (fun '(f, v) => (f, g v)) m)
  = option_map g (StdMap.find k m).
Proof.
  induction m as [|[k0 v0] m IH]; simpl; [reflexivity|].
  now destruct (String.eqb k k0).
Qed.

(** Every commit that [commit] creates carries the empty hash: nothing
    between the constructor and [save_commit] calls [set_hash]. *)
Lemma commit_saves_empty_hash (st : MiniGit.t) (message : string) (now : Z) (c : Commit.t) :
  In (MiniGit.save_commit_call c) (MiniGit.events (MiniGit.commit message now st)) ->
  Commit.hash c = "".
Proof.
  intros Hin. apply commit_saves in Hin. subst c.
  rewrite (fold_add_file_hash Blob.hash).
  destruct (String.eqb (MiniGit.load_head st) ""); [reflexivity|].
  now rewrite add_parent_hash.
Qed.

(** C2 (failing input): the session [init], [add a.txt], [commit] run in
    two fresh directories, with different content, messages and times.
    Both commits are handed to [save_commit] with the empty hash; the write
    goes to the objects directory itself, so no commit object is stored
    (only the blob is), and HEAD and the branch are rewritten with the
    empty string. *)
Theorem commits_get_the_empty_hash :
  let first := Examples.first_commit_session "first" 100
                 (Examples.working_directory "hello") in
  let other := Examples.first_commit_session "other" 200
                 (Examples.working_directory "world!") in
  let c1 := Commit.mk "" "first" "user" 100 [] [("a.txt", "h5")] in
  let c2 := Commit.mk "" "other" "user" 200 [] [("a.txt", "h6")] in
  MiniGit.value first = Ok true /\ MiniGit.value other = Ok true /\
  In (MiniGit.save_commit_call c1) (MiniGit.events first) /\
  In (MiniGit.save_commit_call c2) (MiniGit.events other) /\
  c1 <> c2 /\ Commit.hash c1 = "" /\ Commit.hash c2 = "" /\
  MiniGit.load_head (MiniGit.final first) = "" /\
  MiniGit.load_commit (MiniGit.final first) (Commit.hash c1) = Ok None /\
  MiniGit.branches (MiniGit.final first) = [("main", Branch.mk "main" "")] /\
  MiniGit.disk (MiniGit.final first)
    = <["./.minigit/HEAD" := ""]>
        (<["./.minigit/refs/main" := Branch.to_string (Branch.mk "main" "")]>
           (<["./.minigit/objects/h5" := Blob.to_string (Blob.mk "h5" "hello" "a.txt")]>
              {["a.txt" := "hello"]})).
Proof.
  cbv zeta.
  repeat match goal with |- _ /\ _ => split end;
    try discriminate; vm_compute; try reflexivity.
  - do 4 right. left. reflexivity.
  - do 4 right. left. reflexivity.
Qed.

(** C3 (amended): the commit created by [commit] records exactly the
    staged files, each with the hash of its staged blob; a file that is
    not staged has no entry, whatever the parent commit records for it. *)
Theorem commit_file_table_is_staging_area
        (st : MiniGit.t) (message : string) (now : Z) (c : Commit.t) :
  StdMap.wf (MiniGit.staging_area st) = true ->
  In (MiniGit.save_commit_call c) (MiniGit.events (MiniGit.commit message now st)) ->
  Commit.file_blobs c
    = List.map (fun '(f, b) => (f, Blob.hash b)) (MiniGit.staging_area st) /\
  (forall f, StdMap.find f (MiniGit.staging_area st) = None ->
             StdMap.find f (Commit.file_blobs c) = None).
Proof.
  intros Hwf Hin. apply commit_saves in Hin.
  assert (Hfiles : Commit.file_blobs c
                   = List.map (fun '(f, b) => (f, Blob.hash b)) (MiniGit.staging_area st)).
  { subst c. rewrite (fold_add_file_blobs Blob.hash).
    replace (Commit.file_blobs _) with (@nil (string * string)).
    - exact (fold_insert_wf Blob.hash (MiniGit.staging_area st) [] Hwf).
    - destruct (String.eqb (MiniGit.load_head st) ""); [reflexivity|].
      now rewrite add_parent_file_blobs. }
  split; [exact Hfiles|].
  intros f Hnone. rewrite Hfiles, (find_map_values Blob.hash), Hnone. reflexivity.
Qed.

Lemma commit_file_table_is_staging_area_witness :
  (StdMap.wf (MiniGit.staging_area Examples.one_staged) = true /\
   In (MiniGit.save_commit_call Examples.one_staged_commit)
      (MiniGit.events (MiniGit.commit "second" 7 Examples.one_staged))) /\
  Commit.file_blobs Examples.one_staged_commit = [("a.txt", "h5")].
Proof.
  assert (H : StdMap.wf (MiniGit.staging_area Examples.one_staged) = true /\
              In (MiniGit.save_commit_call Examples.one_staged_commit)
                 (MiniGit.events (MiniGit.commit "second" 7 Examples.one_staged))).
  { split; [vm_compute; reflexivity|]. vm_compute. right. left. reflexivity. }
  split; [exact H|].
  destruct H as (Hwf & Hin).
  exact (proj1 (commit_file_table_is_staging_area _ _ _ _ Hwf Hin)).
Defined.

(** C3 (counterexample): HEAD is at a commit that tracks [b.txt]; after
    staging only [a.txt], the new commit has no entry for [b.txt], so its
    file table is not the parent's table overridden by the staged files. *)
Lemma commit_drops_parent_files :
  let st := Examples.one_staged in
  let parent := Commit.mk "P" "m" "user" 1 [] [("b.txt", "h2")] in
  let c := Examples.one_staged_commit in
  MiniGit.load_head st = "P" /\
  MiniGit.load_commit st "P" = Ok (Some parent) /\
  MiniGit.value (MiniGit.commit "second" 7 st) = Ok true /\
  In (MiniGit.save_commit_call c) (MiniGit.events (MiniGit.commit "second" 7 st)) /\
  StdMap.find "b.txt" (Commit.file_blobs parent) = Some "h2" /\
  StdMap.find "b.txt" (MiniGit.staging_area st) = None /\
  StdMap.find "b.txt" (Commit.file_blobs c) = None /\
  Commit.file_blobs c
    <> StdMap.overlay (Commit.file_blobs parent)
         (List.map (fun '(f, b) => (f, Blob.hash b)) (MiniGit.staging_area st)).
Proof.
  cbv zeta.
  repeat match goal with |- _ /\ _ => split end;
    try (vm_compute; reflexivity).
  - vm_compute. right. left. reflexivity.
  - vm_compute. discriminate.
Qed.

(** ** Steps of a run *)

Lemma bind_get {A} (k : MiniGit.t -> MiniGit.M A) (st : MiniGit.t) :
  (s ← MiniGit.get; k s) st = k st st.
Proof.
  unfold mbind, MiniGit.M_bind, MiniGit.bind, MiniGit.get. simpl.
  now destruct (k st st).
Qed.

Lemma bind_ok {A B} (m : MiniGit.M A) (k : A -> MiniGit.M B) (st : MiniGit.t) (a : A) :
  MiniGit.value (m st) = Ok a ->
  (x ← m; k x) st = preceded_by (MiniGit.events (m st)) (k a (MiniGit.final (m st))).
Proof.
  intros Hm. unfold mbind, MiniGit.M_bind, MiniGit.bind, preceded_by.
  cbv zeta. now rewrite Hm.
Qed.

Lemma bind_modify {A} (f : MiniGit.t -> MiniGit.t) (k : unit -> MiniGit.M A)
      (st : MiniGit.t) :
  (x ← MiniGit.modify f; k x) st = k tt (f st).
Proof.
  unfold mbind, MiniGit.M_bind, MiniGit.bind, MiniGit.modify. simpl.
  now destruct (k tt (f st)).
Qed.

Lemma bind_emit {A} (e : MiniGit.Event) (k : unit -> MiniGit.M A) (st : MiniGit.t) :
  (x ← MiniGit.emit e; k x) st = preceded_by [e] (k tt st).
Proof. reflexivity. Qed.

Lemma bind_ret {A B} (a : A) (k : A -> MiniGit.M B) (st : MiniGit.t) :
  (x ← mret a; k x) st = k a st.
Proof.
  unfold mbind, mret, MiniGit.M_bind, MiniGit.M_ret, MiniGit.bind, MiniGit.ret. simpl.
  now destruct (k a st).
Qed.

Lemma bind_lift {A B} (a : A) (k : A -> MiniGit.M B) (st : MiniGit.t) :
  (x ← MiniGit.lift (Ok a); k x) st = k a st.
Proof.
  unfold mbind, MiniGit.M_bind, MiniGit.bind, MiniGit.lift. simpl.
  now destruct (k a st).
Qed.

Lemma bind_save_branch {A} (b : Branch.t) (k : unit -> MiniGit.M A) (st : MiniGit.t) :
  (x ← MiniGit.save_branch b; k x) st
  = preceded_by [MiniGit.save_branch_call b]
      (k tt (MiniGit.set_disk st
               (MiniGit.write_file (MiniGit.disk st)
                  (MiniGit.refs_path st ++ "/" ++ Branch.name b)
                  (Branch.to_string b)).2)).
Proof. reflexivity. Qed.

Lemma bind_save_commit {A} (c : Commit.t) (k : unit -> MiniGit.M A) (st : MiniGit.t) :
  (x ← MiniGit.save_commit c; k x) st
  = preceded_by [MiniGit.save_commit_call c]
      (k tt (MiniGit.set_disk st
               (MiniGit.write_file (MiniGit.disk st)
                  (MiniGit.object_path st (Commit.hash c)) (Commit.to_string c)).2)).
Proof. reflexivity. Qed.

Lemma bind_save_head {A} (h : string) (k : unit -> MiniGit.M A) (st : MiniGit.t) :
  (x ← MiniGit.save_head h; k x) st
  = preceded_by [MiniGit.save_head_call h]
      (k tt (MiniGit.set_disk st
               (MiniGit.write_file (MiniGit.disk st) (MiniGit.head_path st) h).2)).
Proof. reflexivity. Qed.

Lemma bind_not_ok {A B} (m : MiniGit.M A) (k : A -> MiniGit.M B) (st : MiniGit.t) :
  (forall a, MiniGit.value (m st) <> Ok a) ->
  forall b, MiniGit.value ((x ← m; k x) st) <> Ok b.
Proof.
  intros Hm b. unfold mbind, MiniGit.M_bind, MiniGit.bind. cbv zeta.
  destruct (MiniGit.value (m st)) as [a| |] eqn:E; [now destruct (Hm a)| |]; discriminate.
Qed.

(** [update_current_branch] returns, prints nothing and touches neither
    the staging area nor the flag. *)
Lemma update_current_branch_run (h : string) (st : MiniGit.t) :
  let r := MiniGit.update_current_branch h st in
  MiniGit.value r = Ok tt /\
  (forall e, In e (MiniGit.events r) -> exists b, e = MiniGit.save_branch_call b) /\
  MiniGit.staging_area (MiniGit.final r) = MiniGit.staging_area st /\
  MiniGit.is_initialized (MiniGit.final r) = MiniGit.is_initialized st /\
  MiniGit.current_branch (MiniGit.final r) = MiniGit.current_branch st.
Proof.
  unfold MiniGit.update_current_branch. cbv zeta. rewrite bind_get.
  destruct (StdMap.find (MiniGit.current_branch st) (MiniGit.branches st)) as [b|].
  - rewrite bind_modify. unfold MiniGit.save_branch. rewrite bind_get, bind_emit.
    cbn. repeat split. intros e [<-|[]]. eauto.
  - cbn. repeat split. intros e [].
Qed.

Lemma bind_events_not_ok {A B} (m : MiniGit.M A) (k : A -> MiniGit.M B) (st : MiniGit.t) :
  (forall a, MiniGit.value (m st) <> Ok a) ->
  MiniGit.events ((x ← m; k x) st) = MiniGit.events (m st).
Proof.
  intros Hm. unfold mbind, MiniGit.M_bind, MiniGit.bind. cbv zeta.
  destruct (MiniGit.value (m st)) as [a| |]; [now destruct (Hm a)|reflexivity..].
Qed.

Lemma bind_events_in {A B} (m : MiniGit.M A) (k : A -> MiniGit.M B) (st : MiniGit.t)
      (e : MiniGit.Event) :
  In e (MiniGit.events ((x ← m; k x) st)) ->
  In e (MiniGit.events (m st)) \/
  exists a : A, MiniGit.value (m st) = Ok a /\
                In e (MiniGit.events (k a (MiniGit.final (m st)))).
Proof.
  unfold mbind, MiniGit.M_bind, MiniGit.bind. cbv zeta.
  destruct (MiniGit.value (m st)) as [a| |]; cbn [MiniGit.events]; [|now left..].
  intros Hin. apply in_app_or in Hin as [Hin|Hin]; [now left|right; eauto].
Qed.

(** ** [merge] *)

Section MergeFacts.
Context `{utils.Hasher}.

Lemma get_file_changes_wf (st : MiniGit.t) (from_hash to_hash : string)
      (changes : StdMap.t string) :
  MiniGit.get_file_changes st from_hash to_hash = Ok changes ->
  StdMap.wf changes = true.
Proof.
  unfold MiniGit.get_file_changes.
  destruct (MiniGit.load_commit st from_hash) as [from_commit|e|]; simpl; try discriminate.
  destruct (MiniGit.load_commit st to_hash) as [to_commit|e|]; simpl; try discriminate.
  destruct from_commit as [from_commit|], to_commit as [to_commit|];
    try (intros [= <-]; reflexivity).
  intros [= <-].
  generalize (Commit.file_blobs to_commit) as to_files.
  assert (Hempty : StdMap.wf (@StdMap.empty string) = true) by reflexivity.
  revert Hempty. generalize (@StdMap.empty string) as acc.
  intros acc Hacc to_files. revert acc Hacc.
  induction to_files as [|[f h] to_files IH]; intros acc Hacc; simpl; [exact Hacc|].
  apply IH.
  destruct (StdMap.find f (Commit.file_blobs from_commit)) as [h0|].
  - destruct (String.eqb h0 h); [exact Hacc|now apply insert_wf].
  - now apply insert_wf.
Qed.

Lemma add_current_only_wf (cc tc mf : StdMap.t string) :
  StdMap.wf mf = true -> StdMap.wf (MiniGit.add_current_only cc tc mf) = true.
Proof.
  unfold MiniGit.add_current_only. revert mf.
  induction cc as [|[f h] cc IH]; intros mf Hwf; simpl; [exact Hwf|].
  apply IH. destruct (StdMap.find f tc); [exact Hwf|now apply insert_wf].
Qed.

Lemma add_current_only_find (cc tc : StdMap.t string) (f : string) :
  forall mf : StdMap.t string,
    StdMap.wf cc = true ->
    StdMap.find f (MiniGit.add_current_only cc tc mf) =
      match StdMap.find f cc, StdMap.find f tc with
      | Some h, None => Some h
      | _, _ => StdMap.find f mf
      end.
Proof.
  unfold MiniGit.add_current_only.
  induction cc as [|[f0 h0] cc IH]; intros mf Hwf; simpl.
  - now destruct (StdMap.find f tc).
  - apply wf_cons_iff in Hwf as (Habove & Hwf).
    rewrite (IH _ Hwf).
    destruct (String.eqb f f0) eqn:Ef.
    + apply String.eqb_eq in Ef. subst f0.
      rewrite (find_none_above _ _ Habove).
      destruct (StdMap.find f tc); [reflexivity|apply find_insert_same].
    + apply String.eqb_neq in Ef.
      assert (Hstep : StdMap.find f
                        match StdMap.find f0 tc with
                        | Some _ => mf
                        | None => StdMap.insert f0 h0 mf
                        end = StdMap.find f mf).
      { destruct (StdMap.find f0 tc); [reflexivity|now apply find_insert_other]. }
      rewrite Hstep. reflexivity.
Qed.

Lemma make_merge_commit_files (message current target : string) (now : Z)
      (merged_files : StdMap.t string) :
  StdMap.wf merged_files = true ->
  Commit.file_blobs (MiniGit.make_merge_commit message current target now merged_files)
  = merged_files.
Proof.
  intros Hwf. unfold MiniGit.make_merge_commit.
  rewrite (fold_add_file_blobs (fun h : string => h)).
  rewrite !add_parent_file_blobs.
  etransitivity; [exact (fold_insert_wf (fun h : string => h) merged_files [] Hwf)|].
  simpl. clear. induction merged_files as [|[f h] m IH]; simpl; [reflexivity|now rewrite IH].
Qed.

Lemma make_merge_commit_hash (message current target : string) (now : Z)
      (merged_files : StdMap.t string) :
  Commit.hash (MiniGit.make_merge_commit message current target now merged_files) = "".
Proof.
  unfold MiniGit.make_merge_commit.
  rewrite (fold_add_file_hash (fun h : string => h)).
  now rewrite !add_parent_hash.
Qed.

End MergeFacts.

(** *** Rules for [run_ok] *)

Section RunRules.
Context {A B : Type} (P : MiniGit.Event -> Prop).

Lemma run_ret (Q : A -> Prop) (a : A) (st : MiniGit.t) :
  Q a -> run_ok P Q (mret a) st.
Proof. intros Ha. split; [constructor|]. now intros a' [= <-]. Qed.

Lemma run_bind (Q1 : A -> Prop) (Q2 : B -> Prop) (m : MiniGit.M A)
      (k : A -> MiniGit.M B) (st : MiniGit.t) :
  run_ok P Q1 m st ->
  (forall a st', Q1 a -> run_ok P Q2 (k a) st') ->
  run_ok P Q2 (a ← m; k a) st.
Proof.
  intros (Hev & Hval) Hk.
  unfold run_ok, mbind, MiniGit.M_bind, MiniGit.bind.
  destruct (MiniGit.value (m st)) as [a|e|] eqn:Hm; simpl.
  - destruct (Hk a (MiniGit.final (m st)) (Hval a eq_refl)) as (Hev' & Hval').
    split; [now apply List.Forall_app|exact Hval'].
  - split; [exact Hev|discriminate].
  - split; [exact Hev|discriminate].
Qed.

Lemma run_lift (Q : A -> Prop) (o : outcome A) (st : MiniGit.t) :
  (forall a, o = Ok a -> Q a) -> run_ok P Q (MiniGit.lift o) st.
Proof. intros Ho. split; [constructor|exact Ho]. Qed.

Lemma run_weaken (P' : MiniGit.Event -> Prop) (Q Q' : A -> Prop)
      (m : MiniGit.M A) (st : MiniGit.t) :
  run_ok P' Q m st ->
  (forall e, P' e -> P e) -> (forall a, Q a -> Q' a) ->
  run_ok P Q' m st.
Proof.
  intros (Hev & Hval) HP HQ. split.
  - eapply List.Forall_impl; [exact HP|exact Hev].
  - intros a Ha. apply HQ, Hval, Ha.
Qed.

End RunRules.

Section RunPrimitives.
Context (P : MiniGit.Event -> Prop).

Lemma run_get (Q : MiniGit.t -> Prop) (st : MiniGit.t) :
  Q st -> run_ok P Q MiniGit.get st.
Proof. intros HQ. split; [constructor|]. now intros a [= <-]. Qed.

Lemma run_emit (Q : unit -> Prop) (e : MiniGit.Event) (st : MiniGit.t) :
  P e -> Q tt -> run_ok P Q (MiniGit.emit e) st.
Proof. intros He HQ. split; [now repeat constructor|]. now intros [] _. Qed.

Lemma run_modify (Q : unit -> Prop) (f : MiniGit.t -> MiniGit.t) (st : MiniGit.t) :
  Q tt -> run_ok P Q (MiniGit.modify f) st.
Proof. intros HQ. split; [constructor|]. now intros [] _. Qed.

Lemma run_save_blob (Q : unit -> Prop) (b : Blob.t) (st : MiniGit.t) :
  P (MiniGit.save_blob_call b) -> Q tt -> run_ok P Q (MiniGit.save_blob b) st.
Proof. intros He HQ. split; [now repeat constructor|]. now intros [] _. Qed.

Lemma run_save_commit (Q : unit -> Prop) (c : Commit.t) (st : MiniGit.t) :
  P (MiniGit.save_commit_call c) -> Q tt -> run_ok P Q (MiniGit.save_commit c) st.
Proof. intros He HQ. split; [now repeat constructor|]. now intros [] _. Qed.

Lemma run_save_head (Q : unit -> Prop) (h : string) (st : MiniGit.t) :
  P (MiniGit.save_head_call h) -> Q tt -> run_ok P Q (MiniGit.save_head h) st.
Proof. intros He HQ. split; [now repeat constructor|]. now intros [] _. Qed.

Lemma run_save_branch (Q : unit -> Prop) (b : Branch.t) (st : MiniGit.t) :
  P (MiniGit.save_branch_call b) -> Q tt -> run_ok P Q (MiniGit.save_branch b) st.
Proof. intros He HQ. split; [now repeat constructor|]. now intros [] _. Qed.

Lemma run_update_current_branch (Q : unit -> Prop) (h : string) (st : MiniGit.t) :
  (forall b, P (MiniGit.save_branch_call b)) -> Q tt ->
  run_ok P Q (MiniGit.update_current_branch h) st.
Proof.
  intros He HQ. unfold MiniGit.update_current_branch.
  apply run_bind with (Q1 := fun s => s = st); [now apply run_get|].
  intros s st' ->.
  destruct (StdMap.find (MiniGit.current_branch st) (MiniGit.branches st)).
  - apply run_bind with (Q1 := fun _ => True); [now apply run_modify|].
    intros _ st'' _. now apply run_save_branch.
  - now apply run_ret.
Qed.

End RunPrimitives.

Section MergeRun.
Context `{utils.Hasher}.

(** The first loop of [merge] only prints conflict warnings and saves
    merged blobs. *)
Lemma merge_target_changes_run (lca : string) (cc : StdMap.t string)
      (l : list (string * string)) :
  forall (hc : bool) (mf : StdMap.t string) (st : MiniGit.t),
    run_ok is_loop_event (fun _ => True)
           (MiniGit.merge_target_changes l lca cc hc mf) st.
Proof.
  induction l as [|[f h] l IH]; intros hc mf st; simpl.
  - now apply run_ret.
  - destruct (StdMap.find f cc) as [ours|]; [|apply IH].
    destruct (String.eqb ours h); [apply IH|].
    apply run_bind with (Q1 := fun _ => True);
      [now apply run_emit|intros _ st1 _].
    apply run_bind with (Q1 := fun _ => True);
      [now apply run_get|intros s st2 _].
    apply run_bind with (Q1 := fun _ => True);
      [now apply run_lift|intros lca_commit st3 _].
    apply run_bind with (Q1 := fun _ => True);
      [now apply run_lift|intros base_hash st4 _].
    apply run_bind with (Q1 := fun _ => True);
      [now apply run_lift|intros base_blob st5 _].
    apply run_bind with (Q1 := fun _ => True);
      [now apply run_lift|intros ours_blob st6 _].
    apply run_bind with (Q1 := fun _ => True);
      [now apply run_lift|intros theirs_blob st7 _].
    apply run_bind with (Q1 := fun _ => True); [|intros mf1 st8 _; apply IH].
    destruct base_blob as [base_blob|], ours_blob as [ours_blob|],
      theirs_blob as [theirs_blob|]; try now apply run_ret.
    apply run_bind with (Q1 := fun _ => True);
      [now apply run_save_blob|intros _ st8 _].
    now apply run_ret.
Qed.

End MergeRun.

Section MergeCommit.
Context `{utils.Hasher}.

Lemma loop_event_not_commit (Phi : Commit.t -> Prop) (e : MiniGit.Event) :
  is_loop_event e -> on_saved_commit Phi e.
Proof. now destruct e. Qed.

Lemma loop_saves_no_commit (lca : string) (cc : StdMap.t string) (l : list (string * string))
      (hc : bool) (mf : StdMap.t string) (st : MiniGit.t) (c : Commit.t) :
  ~ In (MiniGit.save_commit_call c)
       (MiniGit.events (MiniGit.merge_target_changes l lca cc hc mf st)).
Proof.
  intros Hin. destruct (merge_target_changes_run lca cc l hc mf st) as (Hev & _).
  rewrite List.Forall_forall in Hev. exact (Hev _ Hin).
Qed.

(** A key of a well-formed map lies above the keys before it. *)
Lemma wf_cons_below {V : Type} (k k' : string) (v v' : V) (m : StdMap.t V) :
  StdMap.wf ((k, v) :: m) = true -> StdMap.find k' m = Some v' ->
  String_as_OT.cmp k k' = Lt.
Proof.
  intros Hwf Hfind. apply wf_cons_iff in Hwf as (Habove & _).
  apply find_Some_In in Hfind. rewrite List.Forall_forall in Habove.
  exact (Habove _ Hfind).
Qed.

Lemma earlier_conflict_cons (cc : StdMap.t string) (f0 h0 : string)
      (l : list (string * string)) (f : string) (es : list MiniGit.Event) :
  StdMap.wf ((f0, h0) :: l) = true ->
  Forall (earlier_conflict cc l f) es ->
  Forall (earlier_conflict cc ((f0, h0) :: l) f) es.
Proof.
  intros Hwf HF. eapply List.Forall_impl; [|exact HF].
  intros e (f' & Hlt & (ours & theirs & Ho & Ht & Hne) & He).
  exists f'. split; [exact Hlt|]. split; [|exact He].
  exists ours, theirs. split; [exact Ho|]. split; [|exact Hne].
  cbn [StdMap.find]. rewrite (eqb_neq_false f' f0); [exact Ht|].
  intros ->. pose proof (wf_cons_below _ _ _ _ _ Hwf Ht) as Hself.
  now apply cmp_lt_neq in Hself.
Qed.

(** What the first loop of [merge] leaves in [merged_files] under each
    file name, with the state in which it loaded the blobs of a file both
    sides changed. *)
Lemma merge_target_changes_table (lca : string) (cc : StdMap.t string)
      (l : list (string * string)) :
  forall (hc : bool) (mf : StdMap.t string) (st : MiniGit.t) (r : bool * StdMap.t string),
    MiniGit.value (MiniGit.merge_target_changes l lca cc hc mf st) = Ok r ->
    StdMap.wf l = true -> StdMap.wf mf = true ->
    (forall f h, StdMap.find f l = Some h -> StdMap.find f mf = None) ->
    StdMap.wf (snd r) = true /\
    forall f : string,
      match StdMap.find f l with
      | None => StdMap.find f (snd r) = StdMap.find f mf
      | Some h =>
          (StdMap.find f cc = None \/ StdMap.find f cc = Some h ->
           StdMap.find f (snd r) = Some h) /\
          (forall ours, StdMap.find f cc = Some ours -> ours <> h ->
             conflict_resolved st lca cc l
               (MiniGit.events (MiniGit.merge_target_changes l lca cc hc mf st))
               f ours h (StdMap.find f (snd r)))
      end.
Proof.
  induction l as [|[f0 h0] l IH]; intros hc mf st r Hv Hwfl Hwf Hfresh.
  - cbn in Hv. injection Hv as <-. split; [exact Hwf|]. intros f. reflexivity.
  - pose proof Hwfl as Hwfl0.
    apply wf_cons_iff in Hwfl as (Habove & Hwfl).
    assert (Hhere : StdMap.find f0 mf = None).
    { apply (Hfresh f0 h0). cbn [StdMap.find]. now rewrite String.eqb_refl. }
    assert (Hlater : forall f' h', StdMap.find f' l = Some h' ->
                       String_as_OT.cmp f0 f' = Lt /\ f' <> f0 /\
                       StdMap.find f' mf = None).
    { intros f' h' Hf'. pose proof (wf_cons_below _ _ _ _ _ Hwfl0 Hf') as Hlt.
      assert (Hne : f' <> f0) by (intros ->; now apply cmp_lt_neq in Hlt).
      split; [exact Hlt|]. split; [exact Hne|].
      apply (Hfresh f' h'). cbn [StdMap.find]. now rewrite (eqb_neq_false _ _ Hne). }
    cbn [MiniGit.merge_target_changes] in Hv |- *.
    (* a round that records the target's blob *)
    assert (Hagree : StdMap.find f0 cc = None \/ StdMap.find f0 cc = Some h0 ->
              MiniGit.value (MiniGit.merge_target_changes l lca cc hc
                               (StdMap.insert f0 h0 mf) st) = Ok r ->
              StdMap.wf (snd r) = true /\
              forall f : string,
                match StdMap.find f ((f0, h0) :: l) with
                | None => StdMap.find f (snd r) = StdMap.find f mf
                | Some h =>
                    (StdMap.find f cc = None \/ StdMap.find f cc = Some h ->
                     StdMap.find f (snd r) = Some h) /\
                    (forall ours, StdMap.find f cc = Some ours -> ours <> h ->
                       conflict_resolved st lca cc ((f0, h0) :: l)
                         (MiniGit.events (MiniGit.merge_target_changes l lca cc hc
                                            (StdMap.insert f0 h0 mf) st))
                         f ours h (StdMap.find f (snd r)))
                end).
    { intros Hsame Hv'.
      assert (Hfresh' : forall f h, StdMap.find f l = Some h ->
                          StdMap.find f (StdMap.insert f0 h0 mf) = None).
      { intros f h Hf. destruct (Hlater f h Hf) as (_ & Hne & Hnone).
        now rewrite find_insert_other. }
      destruct (IH hc _ st r Hv' Hwfl (insert_wf _ _ _ Hwf) Hfresh') as (Hwfr & Htable).
      split; [exact Hwfr|]. intros f. specialize (Htable f). cbn [StdMap.find].
      destruct (String.eqb f f0) eqn:Ef.
      - apply String.eqb_eq in Ef. subst f0.
        rewrite (find_none_above _ _ Habove) in Htable.
        rewrite find_insert_same in Htable. split; [intros _; exact Htable|].
        intros ours Hours Hne. destruct Hsame as [Hn|Hs]; congruence.
      - apply String.eqb_neq in Ef.
        destruct (StdMap.find f l) as [h|].
        + destruct Htable as (Ht1 & Ht2). split; [exact Ht1|].
          intros ours Hours Hne.
          destruct (Ht2 ours Hours Hne)
            as (before & after & bc & bh & bb & ob & tb & Hev & He & Hloads).
          exists before, after, bc, bh, bb, ob, tb.
          split; [exact Hev|]. split; [|exact Hloads].
          now apply earlier_conflict_cons.
        + rewrite Htable. now apply find_insert_other. }
    destruct (StdMap.find f0 cc) as [ours0|] eqn:Hf0; [|apply Hagree; [now left|exact Hv]].
    destruct (String.eqb ours0 h0) eqn:E0.
    { apply String.eqb_eq in E0. subst ours0. apply Hagree; [now right|exact Hv]. }
    apply String.eqb_neq in E0. clear Hagree.
    rewrite bind_emit in Hv |- *. cbn [preceded_by MiniGit.value MiniGit.events] in Hv |- *.
    rewrite bind_get in Hv |- *.
    destruct (MiniGit.load_commit st lca) as [base_commit| |] eqn:Hbase;
      [rewrite bind_lift in Hv |- *|discriminate..].
    destruct base_commit as [base_commit|]; [|discriminate].
    destruct (StdMap.at_ f0 (Commit.file_blobs base_commit)) as [base_hash| |] eqn:Hbh;
      [rewrite bind_lift in Hv |- *|discriminate..].
    destruct (MiniGit.load_blob st base_hash) as [base_blob| |] eqn:Hbb;
      [rewrite bind_lift in Hv |- *|discriminate..].
    destruct (MiniGit.load_blob st ours0) as [ours_blob| |] eqn:Hob;
      [rewrite bind_lift in Hv |- *|discriminate..].
    destruct (MiniGit.load_blob st h0) as [theirs_blob| |] eqn:Htb;
      [rewrite bind_lift in Hv |- *|discriminate..].
    assert (Hbf : StdMap.find f0 (Commit.file_blobs base_commit) = Some base_hash).
    { unfold StdMap.at_ in Hbh.
      destruct (StdMap.find f0 (Commit.file_blobs base_commit)); [|discriminate].
      now injection Hbh as ->. }
    (* what the round saves and records *)
    set (saved := match base_blob, ours_blob, theirs_blob with
                  | Some bb, Some ob, Some tb =>
                      [MiniGit.save_blob_call
                         (Blob.new (MiniGit.merge_files (Blob.content bb) (Blob.content ob)
                                                        (Blob.content tb)) f0)]
                  | _, _, _ => []
                  end).
    set (mf1 := match merged_entry base_blob ours_blob theirs_blob with
                | Some entry => StdMap.insert f0 entry mf
                | None => mf
                end).
    match goal with
    | |- context [MiniGit.events ((_ ← ?round; _) st)] =>
        assert (Hround : MiniGit.value (round st) = Ok mf1 /\
                         MiniGit.events (round st) = saved /\
                         MiniGit.final (round st) = after_saving st (saved_blobs saved))
    end.
    { subst saved mf1.
      destruct base_blob as [bb|], ours_blob as [ob|], theirs_blob as [tb|];
        cbn [merged_entry saved_blobs flat_map after_saving fold_left app];
        repeat split; reflexivity. }
    destruct Hround as (Hrv & Hre & Hrf).
    rewrite (bind_ok _ _ _ _ Hrv) in Hv |- *.
    cbn [preceded_by MiniGit.value MiniGit.events] in Hv |- *.
    rewrite Hre, Hrf in *.
    assert (Hwf1 : StdMap.wf mf1 = true).
    { subst mf1. destruct (merged_entry _ _ _); [now apply insert_wf|exact Hwf]. }
    assert (Hfresh1 : forall f h, StdMap.find f l = Some h -> StdMap.find f mf1 = None).
    { intros f h Hf. destruct (Hlater f h Hf) as (_ & Hne & Hnone). subst mf1.
      destruct (merged_entry _ _ _); [now rewrite find_insert_other|exact Hnone]. }
    destruct (IH true mf1 _ r Hv Hwfl Hwf1 Hfresh1) as (Hwfr & Htable).
    split; [exact Hwfr|]. intros f. specialize (Htable f). cbn [StdMap.find].
    destruct (String.eqb f f0) eqn:Ef.
    + apply String.eqb_eq in Ef. subst f0.
      rewrite (find_none_above _ _ Habove) in Htable.
      split; [intros [Hn|Hs]; congruence|].
      intros ours Hours Hne. assert (ours = ours0) by congruence. subst ours.
      exists [], (saved ++ MiniGit.events
                              (MiniGit.merge_target_changes l lca cc true mf1
                                 (after_saving st (saved_blobs saved))))%list,
             base_commit, base_hash, base_blob, ours_blob, theirs_blob.
      split; [reflexivity|]. split; [constructor|].
      cbn [saved_blobs flat_map after_saving fold_left].
      repeat (split; [assumption|]).
      rewrite Htable. subst mf1.
      destruct (merged_entry _ _ _); [apply find_insert_same|exact Hhere].
    + apply String.eqb_neq in Ef.
      assert (Hmf1 : StdMap.find f mf1 = StdMap.find f mf).
      { subst mf1. destruct (merged_entry _ _ _); [now apply find_insert_other|reflexivity]. }
      destruct (StdMap.find f l) as [h|] eqn:Hfl; [|now rewrite Htable].
      destruct Htable as (Ht1 & Ht2). split; [exact Ht1|].
      intros ours Hours Hne.
      destruct (Ht2 ours Hours Hne)
        as (before & after & bc & bh & bb & ob & tb & Hev & He & Hloads).
      exists (MiniGit.print_warning ("CONFLICT: both modified " ++ f0)
              :: saved ++ before)%list, after, bc, bh, bb, ob, tb.
      split; [rewrite Hev; cbn [app]; now rewrite <- List.app_assoc|].
      assert (Hthis : changed_differently cc ((f0, h0) :: l) f0).
      { exists ours0, h0. split; [exact Hf0|]. split; [|exact E0].
        cbn [StdMap.find]. now rewrite String.eqb_refl. }
      split.
      * constructor.
        { exists f0. split; [exact (proj1 (Hlater _ _ Hfl))|]. split; [exact Hthis|].
          now left. }
        apply Forall_app. split; [|now apply earlier_conflict_cons].
        subst saved.
        destruct base_blob as [bb0|], ours_blob as [ob0|], theirs_blob as [tb0|];
          try constructor; try constructor.
        exists f0. split; [exact (proj1 (Hlater _ _ Hfl))|]. split; [exact Hthis|].
        right. eexists. reflexivity.
      * assert (Hblobs : saved_blobs
                           (MiniGit.print_warning ("CONFLICT: both modified " ++ f0)
                            :: saved ++ before)
                         = (saved_blobs saved ++ saved_blobs before)%list).
        { unfold saved_blobs. cbn [flat_map app]. apply flat_map_app. }
        assert (Hafter : after_saving st (saved_blobs saved ++ saved_blobs before)
                         = after_saving (after_saving st (saved_blobs saved))
                             (saved_blobs before))
          by (unfold after_saving; apply fold_left_app).
        rewrite Hblobs, Hafter. exact Hloads.
Qed.

(** The commit that [merge] hands to [save_commit] is built from what
    the first loop returned, and comes right after the events of that
    loop. *)
Lemma merge_saved_commit (fuel : nat) (st : MiniGit.t) (branch_name : string) (now : Z)
      (c : Commit.t) :
  In (MiniGit.save_commit_call c)
     (MiniGit.events (MiniGit.merge fuel branch_name now st)) ->
  exists (target_branch : Branch.t) (lca : string) (cc tc : StdMap.t string)
         (r : bool * StdMap.t string) (rest : list MiniGit.Event),
    StdMap.find branch_name (MiniGit.branches st) = Some target_branch /\
    MiniGit.find_lowest_common_ancestor fuel st (MiniGit.load_head st)
      (Branch.commit_hash target_branch) = Ok lca /\
    MiniGit.get_file_changes st lca (MiniGit.load_head st) = Ok cc /\
    MiniGit.get_file_changes st lca (Branch.commit_hash target_branch) = Ok tc /\
    MiniGit.value (MiniGit.merge_target_changes tc lca cc false StdMap.empty st) = Ok r /\
    MiniGit.events (MiniGit.merge fuel branch_name now st)
    = (MiniGit.events (MiniGit.merge_target_changes tc lca cc false StdMap.empty st)
       ++ MiniGit.save_commit_call c :: rest)%list /\
    c = MiniGit.make_merge_commit
          ("Merge branch '" ++ branch_name ++ "' into " ++ MiniGit.current_branch st)
          (MiniGit.load_head st) (Branch.commit_hash target_branch) now
          (MiniGit.add_current_only cc tc (snd r)).
Proof.
  set (run := MiniGit.merge fuel branch_name now st).
  assert (Hrun : run = MiniGit.merge fuel branch_name now st) by reflexivity.
  clearbody run. unfold MiniGit.merge in Hrun. rewrite bind_get in Hrun.
  destruct (MiniGit.is_initialized st); cbn [negb] in Hrun.
  2:{ rewrite Hrun. intros [Hin|[]]; discriminate. }
  destruct (StdMap.find branch_name (MiniGit.branches st)) as [target_branch|] eqn:Hfind.
  2:{ rewrite Hrun. intros [Hin|[]]; discriminate. }
  cbv zeta in Hrun.
  destruct (String.eqb (MiniGit.load_head st) (Branch.commit_hash target_branch)).
  { rewrite Hrun. intros [Hin|[]]; discriminate. }
  destruct (MiniGit.find_lowest_common_ancestor fuel st (MiniGit.load_head st)
              (Branch.commit_hash target_branch)) as [lca| |] eqn:Hlca;
    [|rewrite Hrun; intros []..].
  rewrite bind_lift in Hrun.
  destruct (String.eqb lca "").
  { rewrite Hrun. intros [Hin|[]]; discriminate. }
  destruct (MiniGit.get_file_changes st lca (MiniGit.load_head st)) as [cc| |] eqn:Hcc;
    [|rewrite Hrun; intros []..].
  rewrite bind_lift in Hrun.
  destruct (MiniGit.get_file_changes st lca (Branch.commit_hash target_branch))
    as [tc| |] eqn:Htc; [|rewrite Hrun; intros []..].
  rewrite bind_lift in Hrun.
  destruct (MiniGit.value (MiniGit.merge_target_changes tc lca cc false StdMap.empty st))
    as [[hc mf]| |] eqn:Hloop.
  2,3: rewrite Hrun, bind_events_not_ok by (intros a; rewrite Hloop; discriminate);
       intros Hin; now apply loop_saves_no_commit in Hin.
  rewrite (bind_ok _ _ _ _ Hloop) in Hrun. cbv beta iota in Hrun.
  rewrite bind_save_commit, bind_save_head in Hrun.
  rewrite Hrun. cbn [preceded_by MiniGit.events app].
  intros Hin. apply in_app_or in Hin as [Hin|Hin];
    [now apply loop_saves_no_commit in Hin|].
  destruct Hin as [Hin|[Hin|Hin]]; [|discriminate|].
  - injection Hin as <-. exists target_branch, lca, cc, tc, (hc, mf).
    eexists. repeat (split; [first [assumption|reflexivity]|]). reflexivity.
  - exfalso. apply bind_events_in in Hin as [Hin|(a & _ & Hin)].
    + apply (proj1 (proj2 (update_current_branch_run _ _))) in Hin as (b & Hb).
      discriminate.
    + rewrite bind_emit in Hin. cbn [preceded_by MiniGit.events] in Hin.
      destruct Hin as [Hin|Hin]; [destruct hc; discriminate|destruct Hin].
Qed.

(** Every commit that [merge] creates carries the empty hash, for the
    same reason as in [commit]. *)
Lemma merge_saves_empty_hash (fuel : nat) (st : MiniGit.t) (branch_name : string)
      (now : Z) (c : Commit.t) :
  In (MiniGit.save_commit_call c)
     (MiniGit.events (MiniGit.merge fuel branch_name now st)) ->
  Commit.hash c = "".
Proof.
  intros Hin.
  destruct (merge_saved_commit fuel st branch_name now c Hin)
    as (tb & lca & cc & tc & r & rest & _ & _ & _ & _ & _ & _ & ->).
  apply make_merge_commit_hash.
Qed.

End MergeCommit.

(** C1 (amended): the file table of the merge commit holds the files
    decided in the two loops of [merge] and no others.  With [tc] and [cc]
    the changes of the target and of the current commit since the base: a
    file changed by neither side has no entry (it is not carried over from
    the current commit); a file changed only by the current side has the
    current blob; a file changed only by the target, or to the same blob
    by both, has the target's blob.  For a file [f] changed differently by
    both, the run printed the conflict warning for [f] after the events of
    the conflicting files before [f] only; the base commit and the three
    blobs (the base's, ours, theirs) loaded, without an exception, from
    the store as it was then, that is after the merged blobs saved before
    the warning; the base commit has an entry for [f]; and the merge commit
    has the hash of the blob merged from the three contents, or no entry
    for [f] when one of the three blobs did not load
    ([conflict_resolved]). *)
Theorem merge_commit_file_table `{utils.Hasher}
        (fuel : nat) (st : MiniGit.t) (branch_name : string) (now : Z) (c : Commit.t) :
  In (MiniGit.save_commit_call c)
     (MiniGit.events (MiniGit.merge fuel branch_name now st)) ->
  exists (target_branch : Branch.t) (lca : string) (cc tc : StdMap.t string),
    StdMap.find branch_name (MiniGit.branches st) = Some target_branch /\
    MiniGit.find_lowest_common_ancestor fuel st (MiniGit.load_head st)
      (Branch.commit_hash target_branch) = Ok lca /\
    MiniGit.get_file_changes st lca (MiniGit.load_head st) = Ok cc /\
    MiniGit.get_file_changes st lca (Branch.commit_hash target_branch) = Ok tc /\
    (forall f, StdMap.find f tc = None -> StdMap.find f cc = None ->
               StdMap.find f (Commit.file_blobs c) = None) /\
    (forall f h, StdMap.find f tc = None -> StdMap.find f cc = Some h ->
                 StdMap.find f (Commit.file_blobs c) = Some h) /\
    (forall f h, StdMap.find f tc = Some h ->
                 StdMap.find f cc = None \/ StdMap.find f cc = Some h ->
                 StdMap.find f (Commit.file_blobs c) = Some h) /\
    (forall f h ours,
       StdMap.find f tc = Some h -> StdMap.find f cc = Some ours -> ours <> h ->
       conflict_resolved st lca cc tc
         (MiniGit.events (MiniGit.merge fuel branch_name now st))
         f ours h (StdMap.find f (Commit.file_blobs c))).
Proof.
  intros Hin.
  destruct (merge_saved_commit fuel st branch_name now c Hin)
    as (tb & lca & cc & tc & r & rest & Hfind & Hlca & Hcc & Htc & Hloop & Hevents & ->).
  exists tb, lca, cc, tc.
  pose proof (get_file_changes_wf _ _ _ _ Hcc) as Hwfc.
  pose proof (get_file_changes_wf _ _ _ _ Htc) as Hwft.
  destruct (merge_target_changes_table lca cc tc false StdMap.empty st r Hloop Hwft
              eq_refl (fun _ _ _ => eq_refl))
    as (Hwf & Htable).
  rewrite make_merge_commit_files by now apply add_current_only_wf.
  repeat (split; [assumption|]).
  split; [|split; [|split]].
  - intros f Ht Hc. rewrite add_current_only_find by exact Hwfc. rewrite Hc.
    specialize (Htable f). rewrite Ht in Htable. now rewrite Htable.
  - intros f h Ht Hc. rewrite add_current_only_find by exact Hwfc. now rewrite Hc, Ht.
  - intros f h Ht Hagree. rewrite add_current_only_find by exact Hwfc. rewrite Ht.
    specialize (Htable f). rewrite Ht in Htable. destruct Htable as (Hf & _).
    specialize (Hf Hagree). now destruct (StdMap.find f cc).
  - intros f h ours Ht Hc Hne. rewrite add_current_only_find by exact Hwfc.
    rewrite Ht, Hc.
    specialize (Htable f). rewrite Ht in Htable. destruct Htable as (_ & Hf).
    destruct (Hf ours Hc Hne)
      as (before & after & bc & bh & bb & ob & tb0 & Hev & He & Hloads).
    exists before, (after ++ MiniGit.save_commit_call
                               (MiniGit.make_merge_commit
                                  ("Merge branch '" ++ branch_name ++ "' into "
                                   ++ MiniGit.current_branch st)
                                  (MiniGit.load_head st) (Branch.commit_hash tb) now
                                  (MiniGit.add_current_only cc tc (snd r))) :: rest)%list,
           bc, bh, bb, ob, tb0.
    split; [|split; [exact He|exact Hloads]].
    rewrite Hevents, Hev, <- List.app_assoc. reflexivity.
Qed.

Lemma merge_commit_file_table_witness :
  let st := Examples.conflicting_branches in
  let c := Examples.conflicting_branches_merge_commit in
  In (MiniGit.save_commit_call c)
     (MiniGit.events (MiniGit.merge (H := Examples.length_digest) 3 "feat" 5 st)) /\
  conflict_resolved (H := Examples.length_digest) st "B" [("a.txt", "h5")] [("a.txt", "h6")]
    (MiniGit.events (MiniGit.merge (H := Examples.length_digest) 3 "feat" 5 st))
    "a.txt" "h5" "h6" (StdMap.find "a.txt" (Commit.file_blobs c)).
Proof.
  intros st c.
  assert (Hin : In (MiniGit.save_commit_call c)
                   (MiniGit.events (MiniGit.merge (H := Examples.length_digest) 3 "feat" 5
                                                  st)))
    by (vm_compute; do 2 right; left; reflexivity).
  split; [exact Hin|].
  destruct (merge_commit_file_table (H := Examples.length_digest) _ _ _ _ _ Hin)
    as (tb & lca & cc & tc & Hfind & Hlca & Hcc & Htc & _ & _ & _ & Hconflict).
  vm_compute in Hfind. injection Hfind as <-.
  vm_compute in Hlca. injection Hlca as <-.
  vm_compute in Hcc. injection Hcc as <-.
  vm_compute in Htc. injection Htc as <-.
  assert (Hne : "h5" <> "h6") by discriminate.
  exact (Hconflict "a.txt" "h6" "h5" eq_refl eq_refl Hne).
Defined.

(** C1 (counterexample): [b.txt] is in the current commit's file table
    and neither side changed it since the base, yet the merge commit has
    no entry for it. *)
Lemma merge_drops_unchanged_files :
  let st := Examples.two_branches in
  let current := Commit.mk "C" "m" "user" 1 ["B"] [("a.txt", "h3"); ("b.txt", "h2")] in
  let merged := Examples.two_branches_merge_commit in
  MiniGit.load_head st = "C" /\
  MiniGit.load_commit st "C" = Ok (Some current) /\
  MiniGit.find_lowest_common_ancestor 3 st "C" "T" = Ok "B" /\
  MiniGit.get_file_changes st "B" "C" = Ok [("a.txt", "h3")] /\
  MiniGit.get_file_changes st "B" "T" = Ok [("c.txt", "h4")] /\
  MiniGit.value (MiniGit.merge (H := Examples.length_digest) 3 "feat" 5 st) = Ok true /\
  In (MiniGit.save_commit_call merged)
     (MiniGit.events (MiniGit.merge (H := Examples.length_digest) 3 "feat" 5 st)) /\
  StdMap.find "b.txt" (Commit.file_blobs current) = Some "h2" /\
  StdMap.find "b.txt" (Commit.file_blobs merged) = None.
Proof.
  cbv zeta.
  repeat match goal with |- _ /\ _ => split end; vm_compute; try reflexivity.
  left. reflexivity.
Qed.

(** ** Strings and lines *)

Lemma length_append (s1 s2 : string) :
  String.length (s1 ++ s2) = String.length s1 + String.length s2.
Proof.
  induction s1 as [|c s1 IH]; [reflexivity|].
  rewrite append_cons. simpl. now rewrite IH.
Qed.

Lemma string_drop_append (s1 s2 : string) : string_drop (String.length s1) (s1 ++ s2) = s2.
Proof. induction s1 as [|c s1 IH]; [reflexivity|]. rewrite append_cons. exact IH. Qed.

Lemma string_drop_drop (n m : nat) (s : string) : string_drop (n + m) s = string_drop m (string_drop n s).
Proof.
  revert s. induction n as [|n IH]; intros s; [reflexivity|].
  destruct s as [|c s]; simpl; [now destruct m|apply IH].
Qed.

Lemma string_drop_all (s : string) : string_drop (String.length s) s = "".
Proof. induction s as [|c s IH]; [reflexivity|exact IH]. Qed.

Lemma prefix_length (p s : string) :
  String.prefix p s = true -> String.length p <= String.length s.
Proof.
  revert s. induction p as [|c p IH]; intros s Hp; simpl; [lia|].
  destruct s as [|c' s]; simpl in Hp; [discriminate|].
  destruct (ascii_dec c c'); [|discriminate].
  simpl. apply IH in Hp. lia.
Qed.

Lemma prefix_append (p s : string) : String.prefix p (p ++ s) = true.
Proof.
  induction p as [|c p IH]; [now destruct s|].
  rewrite append_cons. simpl. now destruct (ascii_dec c c).
Qed.

(** After the guard [starts_with], [substr] at the length of the tag does
    not throw. *)
Lemma substr_after_tag (s tag : string) :
  starts_with s tag = true ->
  substr s (String.length tag) = Ok (string_drop (String.length tag) s).
Proof.
  intros Hp. apply prefix_length in Hp. unfold substr.
  destruct (Nat.leb_spec (String.length tag) (String.length s)); [reflexivity|lia].
Qed.

Lemma find_from0_append (line rest : string) (c : ascii) :
  find_from0 line c = None ->
  find_from0 (line ++ String c rest) c = Some (String.length line).
Proof.
  induction line as [|a line IH]; intros Hnone.
  - rewrite append_nil_l. simpl. now rewrite Ascii.eqb_refl.
  - rewrite append_cons. simpl in *.
    destruct (Ascii.eqb a c); [discriminate|].
    destruct (find_from0 line c); [discriminate|].
    now rewrite IH.
Qed.

Lemma no_newline_find (s : string) : no_newline s -> find_from0 s nl = None.
Proof.
  unfold no_newline, find. simpl. now destruct (find_from0 s nl).
Qed.

Lemma no_newline_append (s1 s2 : string) :
  no_newline s1 -> no_newline s2 -> no_newline (s1 ++ s2).
Proof.
  intros H1 H2. apply no_newline_find in H1. apply no_newline_find in H2.
  unfold no_newline, find. simpl.
  induction s1 as [|c s1 IH]; [rewrite append_nil_l; now rewrite H2|].
  rewrite append_cons. simpl in *.
  destruct (Ascii.eqb c nl); [discriminate|].
  destruct (find_from0 s1 nl); [discriminate|].
  specialize (IH eq_refl). now destruct (find_from0 (s1 ++ s2) nl).
Qed.

(** Looking for the end of a line that starts at [start]. *)
Lemma find_end_of_line (data line rest : string) (start : nat) :
  no_newline line ->
  string_drop start data = line ++ String nl rest ->
  find data nl start = Some (start + String.length line) /\
  string_drop (plus1 (Some (start + String.length line))) data = rest.
Proof.
  intros Hline Hdrop. unfold find. rewrite Hdrop.
  rewrite find_from0_append by now apply no_newline_find.
  split; [reflexivity|].
  unfold plus1. replace (S (start + String.length line))
    with (start + (String.length line + 1)) by lia.
  rewrite string_drop_drop, Hdrop, string_drop_drop, string_drop_append. reflexivity.
Qed.

Lemma getline_line (line rest : string) :
  no_newline line ->
  utils.getline (line ++ String nl rest) nl = Some (line, rest).
Proof.
  intros Hline. apply no_newline_find in Hline.
  induction line as [|c line IH].
  - rewrite append_nil_l. simpl. reflexivity.
  - rewrite append_cons. simpl in *.
    destruct (Ascii.eqb c nl); [discriminate|].
    destruct (find_from0 line nl); [discriminate|].
    now rewrite IH.
Qed.

Lemma getline_shorter (ss token rest : string) (d : ascii) :
  utils.getline ss d = Some (token, rest) -> String.length rest < String.length ss.
Proof.
  revert token rest. induction ss as [|c ss IH]; intros token rest; simpl; [discriminate|].
  destruct (Ascii.eqb c d).
  - intros [= <- <-]. lia.
  - destruct (utils.getline ss d) as [[t r]|] eqn:Hg.
    + intros [= <- <-]. specialize (IH _ _ eq_refl). lia.
    + intros [= <- <-]. simpl. lia.
Qed.

Lemma split_loop_fuel (fuel : nat) :
  forall (ss : string) (d : ascii) (fuel' : nat),
    String.length ss < fuel -> String.length ss < fuel' ->
    utils.split_loop fuel ss d = utils.split_loop fuel' ss d.
Proof.
  induction fuel as [|fuel IH]; intros ss d fuel' H1 H2; [lia|].
  destruct fuel' as [|fuel']; [lia|]. simpl.
  destruct (utils.getline ss d) as [[token rest]|] eqn:Hg; [|reflexivity].
  apply getline_shorter in Hg. f_equal. apply IH; lia.
Qed.

Lemma split_loop_step (fuel : nat) (ss token rest : string) (d : ascii) :
  utils.getline ss d = Some (token, rest) ->
  utils.split_loop (S fuel) ss d = token :: utils.split_loop fuel rest d.
Proof. intros Hg. simpl. now rewrite Hg. Qed.

Lemma split_line (line rest : string) :
  no_newline line ->
  utils.split (line ++ String nl rest) nl = line :: utils.split rest nl.
Proof.
  intros Hline. unfold utils.split.
  rewrite (split_loop_step _ _ line rest) by now apply getline_line.
  f_equal. apply split_loop_fuel; [|lia].
  rewrite length_append. simpl. lia.
Qed.

Lemma split_empty : utils.split "" nl = [].
Proof. reflexivity. Qed.

Lemma split_nonempty (s : string) :
  s <> "" -> exists first others, utils.split s nl = first :: others.
Proof.
  intros Hne. destruct s as [|c s]; [contradiction|].
  unfold utils.split. simpl.
  destruct (Ascii.eqb c nl); [eauto|].
  destruct (utils.getline s nl) as [[t r]|]; eauto.
Qed.

(** ** Decimal numbers *)

Lemma append_nil_r (s : string) : s ++ "" = s.
Proof. induction s as [|c s IH]; [reflexivity|]. rewrite append_cons. now rewrite IH. Qed.

Lemma uint_value_acc (l : Decimal.uint) :
  forall p : positive, N.pos (Pos.of_uint_acc l p) = uint_value l (N.pos p).
Proof.
  induction l as [|l IH|l IH|l IH|l IH|l IH|l IH|l IH|l IH|l IH|l IH]; intros p;
    simpl; [reflexivity|..]; rewrite IH; f_equal; lia.
Qed.

Lemma uint_value_of_uint (d : Decimal.uint) : uint_value d 0 = N.of_uint d.
Proof.
  unfold N.of_uint.
  induction d as [|l IH|l IH|l IH|l IH|l IH|l IH|l IH|l IH|l IH|l IH];
    simpl; [reflexivity|exact IH|..]; now rewrite uint_value_acc.
Qed.

Lemma digits_value_uint (d : Decimal.uint) (rest : string) :
  (forall a r, digits_value rest a r = (a, r)) ->
  forall acc read,
    digits_value (NilEmpty.string_of_uint d ++ rest) acc read
    = (uint_value d acc, read + Decimal.nb_digits d).
Proof.
  intros Hstop.
  induction d as [|l IH|l IH|l IH|l IH|l IH|l IH|l IH|l IH|l IH|l IH]; intros acc read;
    cbn [NilEmpty.string_of_uint uint_value Decimal.nb_digits];
    [rewrite append_nil_l, Hstop; f_equal; lia|..];
    rewrite append_cons; cbn [digits_value]; simpl isdigit; cbv iota;
    rewrite IH; f_equal; lia.
Qed.

(** [std::stoul] reads back what [operator<<] wrote for a [size_t]. *)
Lemma stoul_show_size (n : nat) :
  (N.of_nat n <= ULONG_MAX)%N -> stoul (show_size n) = Ok (N.of_nat n).
Proof.
  intros Hmax. unfold show_size.
  set (d := N.to_uint (N.of_nat n)).
  assert (Hd : exists d', NilZero.string_of_uint d = NilEmpty.string_of_uint d' /\
                          N.of_uint d' = N.of_nat n /\ d' <> Decimal.Nil).
  { assert (Hof : N.of_uint d = N.of_nat n) by apply DecimalN.Unsigned.of_to.
    destruct d; [exists (Decimal.D0 Decimal.Nil)|eexists..];
      (split; [reflexivity|split; [exact Hof|discriminate]]). }
  destruct Hd as (d' & -> & Hval & Hnil).
  pose proof (digits_value_uint d' "" (fun a r => eq_refl) 0%N 0) as Hdigits.
  rewrite append_nil_r, uint_value_of_uint, Hval in Hdigits.
  unfold stoul.
  assert (Hhead : strip_sign (skip_spaces (NilEmpty.string_of_uint d'))
                  = (false, NilEmpty.string_of_uint d'))
    by (destruct d'; [contradiction|reflexivity..]).
  rewrite Hhead, Hdigits.
  destruct d'; [contradiction|..]; simpl Decimal.nb_digits; cbv iota;
    (destruct (N.ltb_spec ULONG_MAX (N.of_nat n)); [lia|reflexivity]).
Qed.

(** ** Blob records *)

Lemma substr_tag (tag s : string) (n : nat) :
  n = String.length tag -> substr (tag ++ s) n = Ok s.
Proof.
  intros ->. rewrite substr_after_tag by apply prefix_append.
  now rewrite string_drop_append.
Qed.

Lemma length_string_drop (n : nat) (s : string) :
  String.length (string_drop n s) = String.length s - n.
Proof.
  revert s. induction n as [|n IH]; intros s; simpl; [lia|].
  destruct s as [|c s]; simpl; [reflexivity|apply IH].
Qed.

Lemma no_newline_digits (d : Decimal.uint) : no_newline (NilEmpty.string_of_uint d).
Proof.
  unfold no_newline, find. simpl.
  induction d as [|l IH|l IH|l IH|l IH|l IH|l IH|l IH|l IH|l IH|l IH];
    simpl; [reflexivity|..];
    now destruct (find_from0 (NilEmpty.string_of_uint l) nl).
Qed.

Lemma no_newline_show_size (n : nat) : no_newline (show_size n).
Proof.
  unfold show_size. destruct (N.to_uint (N.of_nat n)) eqn:E;
    [reflexivity|rewrite <- E; clear E..].
  all: destruct (N.to_uint (N.of_nat n)); [reflexivity|apply no_newline_digits..].
Qed.

Lemma to_string_lines (b : Blob.t) :
  Blob.to_string b
  = ("blob " ++ Blob.hash b)
      ++ String nl (("filename " ++ Blob.filename b)
      ++ String nl (("content " ++ show_size (String.length (Blob.content b)))
      ++ String nl (Blob.content b))).
Proof.
  unfold Blob.to_string, endl.
  now rewrite !append_assoc, !append_cons, !append_nil_l.
Qed.

Section BlobRoundTrip.
Context `{utils.Hasher}.

(** C9 (amended): for a blob whose hash and file name contain no newline,
    decoding the encoded record gives the blob back when the content is
    not empty (newlines in the content included), and gives the null
    result when the content is empty, because the record then has only
    three lines. *)
Theorem blob_round_trip (b : Blob.t) :
  no_newline (Blob.hash b) ->
  no_newline (Blob.filename b) ->
  (N.of_nat (String.length (Blob.content b)) <= ULONG_MAX)%N ->
  (Blob.content b <> "" -> Blob.from_string (Blob.to_string b) = Ok (Some b)) /\
  (Blob.content b = "" -> Blob.from_string (Blob.to_string b) = Ok None).
Proof.
  intros Hhash Hname Hlen.
  set (l0 := "blob " ++ Blob.hash b).
  set (l1 := "filename " ++ Blob.filename b).
  set (l2 := "content " ++ show_size (String.length (Blob.content b))).
  assert (H0 : no_newline l0) by (apply no_newline_append; [reflexivity|exact Hhash]).
  assert (H1 : no_newline l1) by (apply no_newline_append; [reflexivity|exact Hname]).
  assert (H2 : no_newline l2)
    by (apply no_newline_append; [reflexivity|apply no_newline_show_size]).
  assert (Hlines : utils.split (Blob.to_string b) nl
                   = l0 :: l1 :: l2 :: utils.split (Blob.content b) nl).
  { rewrite to_string_lines. fold l0 l1 l2. now rewrite !split_line. }
  unfold Blob.from_string. rewrite Hlines.
  split.
  - intros Hne.
    destruct (split_nonempty _ Hne) as (first & others & Hcontent).
    rewrite Hcontent.
    assert (Hlong : (List.length (l0 :: l1 :: l2 :: first :: others) <? 4)%nat = false)
      by reflexivity.
    rewrite Hlong. cbn [nth].
    subst l0 l1 l2. unfold starts_with.
    rewrite !prefix_append. cbn [negb].
    rewrite (substr_tag "blob " _ 5 eq_refl).
    rewrite (substr_tag "filename " _ 9 eq_refl).
    rewrite (substr_tag "content " _ 8 eq_refl).
    cbn [mbind outcome_bind Cpp.bind].
    rewrite (stoul_show_size _ Hlen).
    cbn [mbind outcome_bind Cpp.bind].
    pose proof (to_string_lines b) as Hshape.
    destruct (find_end_of_line (Blob.to_string b) _ _ 0 H0 Hshape) as (Hf0 & Hd0).
    rewrite Hf0.
    destruct (find_end_of_line (Blob.to_string b) _ _ _ H1 Hd0) as (Hf1 & Hd1).
    rewrite Hf1.
    destruct (find_end_of_line (Blob.to_string b) _ _ _ H2 Hd1) as (Hf2 & Hd2).
    rewrite Hf2.
    match goal with
    | |- context [Nat.ltb ?start _] => set (content_start := start) in *
    end.
    assert (Hstart : content_start < String.length (Blob.to_string b)).
    { pose proof (length_string_drop content_start (Blob.to_string b)) as Hl.
      rewrite Hd2 in Hl.
      assert (0 < String.length (Blob.content b))
        by (destruct (Blob.content b); [contradiction|simpl; lia]).
      lia. }
    destruct (Nat.ltb_spec content_start (String.length (Blob.to_string b))); [|lia].
    unfold substr.
    destruct (Nat.leb_spec content_start (String.length (Blob.to_string b))); [|lia].
    rewrite Hd2. cbn [mbind outcome_bind Cpp.bind].
    now destruct b.
  - intros Hempty. rewrite Hempty, split_empty. reflexivity.
Qed.

End BlobRoundTrip.

Lemma blob_round_trip_witness :
  let b := Blob.mk "h5" ("hi" ++ endl ++ "x" ++ endl) "f.txt" in
  (no_newline (Blob.hash b) /\ no_newline (Blob.filename b) /\
   (N.of_nat (String.length (Blob.content b)) <= ULONG_MAX)%N /\
   Blob.content b <> "") /\
  Blob.from_string (H := Examples.length_digest) (Blob.to_string b) = Ok (Some b).
Proof.
  intros b.
  assert (H : no_newline (Blob.hash b) /\ no_newline (Blob.filename b) /\
              (N.of_nat (String.length (Blob.content b)) <= ULONG_MAX)%N /\
              Blob.content b <> "")
    by (repeat split; try reflexivity; vm_compute; discriminate).
  split; [exact H|].
  destruct H as (H1 & H2 & H3 & H4).
  exact (proj1 (blob_round_trip (H := Examples.length_digest) b H1 H2 H3) H4).
Defined.

(** C9 (counterexample): with a newline in the file name the two halves
    of the statement fail.  A blob with content [x] and file name
    [a<newline>b] does not decode; a blob with empty content and file name
    [f<newline>content 7] decodes, to a different blob. *)
Lemma blob_round_trip_breaks_on_newline_in_name :
  let b1 := Blob.new (H := Examples.length_digest) "x" ("a" ++ endl ++ "b") in
  let b2 := Blob.new (H := Examples.length_digest) "" ("f" ++ endl ++ "content 7") in
  Blob.content b1 <> "" /\
  Blob.from_string (H := Examples.length_digest) (Blob.to_string b1) = Ok None /\
  Blob.content b2 = "" /\
  Blob.from_string (H := Examples.length_digest) (Blob.to_string b2)
    = Ok (Some (Blob.mk "h0" ("content 0" ++ endl) "f")).
Proof.
  cbv zeta. repeat split; try (vm_compute; reflexivity). vm_compute. discriminate.
Qed.

(** ** Decoding stored records *)

Lemma insert_size {V : Type} (k : string) (v : V) (m : StdMap.t V) :
  StdMap.size (StdMap.insert k v m) <= S (StdMap.size m).
Proof.
  unfold StdMap.size. induction m as [|[k0 v0] m IH]; simpl; [lia|].
  destruct (String_as_OT.cmp k k0); simpl; lia.
Qed.

Lemma add_parent_count (c : Commit.t) (p : string) :
  List.length (Commit.parent_hashes (Commit.add_parent c p))
  <= S (List.length (Commit.parent_hashes c)).
Proof.
  unfold Commit.add_parent. destruct (Commit.has_parent c p); simpl; [lia|].
  rewrite length_app. simpl. lia.
Qed.

(** The parents loop adds at most [count] parents, consumes one line per
    parent it looks at, and leaves the file table alone. *)
Lemma parse_parents_bound (rest : list string) :
  forall (count : N) (c c' : Commit.t) (rest' : list string),
    Commit.parse_parents rest count c = Ok (c', rest') ->
    (N.of_nat (List.length (Commit.parent_hashes c'))
     <= N.of_nat (List.length (Commit.parent_hashes c)) + count)%N /\
    List.length (Commit.parent_hashes c') + List.length rest'
      <= List.length (Commit.parent_hashes c) + List.length rest /\
    Commit.file_blobs c' = Commit.file_blobs c /\
    (forall line, In line rest' -> In line rest).
Proof.
  induction rest as [|line rest IH]; intros count c c' rest'; simpl.
  - intros [= <- <-]. split; [lia|split; [simpl; lia|split; [reflexivity|auto]]].
  - destruct (N.eqb_spec count 0) as [->|Hpos].
    + intros [= <- <-]. split; [lia|split; [simpl; lia|split; [reflexivity|auto]]].
    + destruct (starts_with line "parent ").
      * destruct (substr line 7) as [p| |]; simpl; try discriminate.
        intros Hrun. apply IH in Hrun as (H1 & H2 & H3 & H4).
        pose proof (add_parent_count c p) as Hadd.
        rewrite add_parent_file_blobs in H3.
        split; [lia|split; [simpl; lia|split; [exact H3|auto]]].
      * simpl. intros Hrun. apply IH in Hrun as (H1 & H2 & H3 & H4).
        split; [lia|split; [simpl; lia|split; [exact H3|auto]]].
Qed.

(** The files loop adds at most [count] entries and leaves the parents
    alone. *)
Lemma parse_files_bound (rest : list string) :
  forall (count : N) (c c' : Commit.t),
    Commit.parse_files rest count c = Ok c' ->
    (N.of_nat (StdMap.size (Commit.file_blobs c'))
     <= N.of_nat (StdMap.size (Commit.file_blobs c)) + count)%N /\
    Commit.parent_hashes c' = Commit.parent_hashes c.
Proof.
  induction rest as [|line rest IH]; intros count c c'; simpl.
  - intros [= <-]. split; [lia|reflexivity].
  - destruct (N.eqb_spec count 0) as [->|Hpos].
    + intros [= <-]. split; [lia|reflexivity].
    + destruct (starts_with line "file ").
      * destruct (substr line 5) as [info| |]; simpl; try discriminate.
        destruct (find info " " 0) as [space_pos|].
        -- destruct (substr info (space_pos + 1)) as [blob_hash| |]; simpl; try discriminate.
           intros Hrun. apply IH in Hrun as (H1 & H2).
           pose proof (insert_size (string_take space_pos info) blob_hash (Commit.file_blobs c))
             as Hins.
           unfold Commit.add_file in H1. cbn [Commit.file_blobs] in H1.
           split; [lia|exact H2].
        -- simpl. intros Hrun. apply IH in Hrun as (H1 & H2). split; [lia|exact H2].
      * simpl. intros Hrun. apply IH in Hrun as (H1 & H2). split; [lia|exact H2].
Qed.

Lemma substr_guarded (s tag : string) (n : nat) :
  n = String.length tag -> starts_with s tag = true -> substr s n = Ok (string_drop n s).
Proof. intros ->. apply substr_after_tag. Qed.

Lemma In_skipn_lines (n : nat) (lines : list string) (l : string) :
  In l (List.skipn n lines) -> In l lines.
Proof.
  revert lines. induction n as [|n IH]; intros lines; [auto|].
  destruct lines as [|l0 lines]; simpl; [auto|]. intros Hin. right. now apply IH.
Qed.

Lemma to_nat_pred (count : N) :
  count <> 0%N -> N.to_nat count = S (N.to_nat (count - 1)).
Proof. lia. Qed.

(** The parents loop reads the first [count] lines that are there and
    leaves the others. *)
Lemma parse_parents_exact (rest : list string) :
  forall (count : N) (c : Commit.t),
    Commit.parse_parents rest count c
    = Ok (Commit.mk (Commit.hash c) (Commit.message c) (Commit.author c)
                    (Commit.timestamp c)
                    (fold_left
                       (fun found line =>
                          if starts_with line "parent "
                          then if existsb (String.eqb (string_drop 7 line)) found
                               then found
                               else (found ++ [string_drop 7 line])%list
                          else found)
                       (firstn (N.to_nat count) rest) (Commit.parent_hashes c))
                    (Commit.file_blobs c),
          skipn (N.to_nat count) rest).
Proof.
  induction rest as [|line rest IH]; intros count c.
  - cbn [Commit.parse_parents]. rewrite firstn_nil, skipn_nil. now destruct c.
  - cbn [Commit.parse_parents].
    destruct (N.eqb_spec count 0) as [->|Hpos]; [now destruct c|].
    rewrite (to_nat_pred _ Hpos). cbn [firstn skipn fold_left].
    destruct (starts_with line "parent ") eqn:Htag.
    + rewrite (substr_guarded _ "parent " 7 eq_refl Htag).
      cbn [mbind outcome_bind Cpp.bind]. rewrite IH.
      unfold Commit.add_parent, Commit.has_parent.
      now destruct (existsb _ (Commit.parent_hashes c)).
    + cbn [mbind outcome_bind Cpp.bind]. apply IH.
Qed.

Lemma find_from0_lt (s : string) (c : ascii) :
  forall i : nat, find_from0 s c = Some i -> i < String.length s.
Proof.
  induction s as [|a s IH]; intros i; cbn [find_from0 String.length]; [discriminate|].
  destruct (Ascii.eqb a c); [intros [= <-]; lia|].
  destruct (find_from0 s c) as [j|]; [|discriminate].
  intros [= <-]. specialize (IH j eq_refl). lia.
Qed.

Lemma find_lt (s : string) (c : ascii) (i : nat) :
  find s c 0 = Some i -> i < String.length s.
Proof.
  unfold find. change (string_drop 0 s) with s.
  destruct (find_from0 s c) as [j|] eqn:Hj; [|discriminate].
  intros [= <-]. exact (find_from0_lt _ _ _ Hj).
Qed.

(** The files loop reads the first [count] lines that are there. *)
Lemma parse_files_exact (rest : list string) :
  forall (count : N) (c : Commit.t),
    Commit.parse_files rest count c
    = Ok (Commit.mk (Commit.hash c) (Commit.message c) (Commit.author c)
                    (Commit.timestamp c) (Commit.parent_hashes c)
                    (fold_left
                       (fun table line =>
                          match file_entry line with
                          | Some (filename, blob_hash) =>
                              StdMap.insert filename blob_hash table
                          | None => table
                          end)
                       (firstn (N.to_nat count) rest) (Commit.file_blobs c))).
Proof.
  induction rest as [|line rest IH]; intros count c.
  - cbn [Commit.parse_files]. rewrite firstn_nil. now destruct c.
  - cbn [Commit.parse_files].
    destruct (N.eqb_spec count 0) as [->|Hpos]; [now destruct c|].
    rewrite (to_nat_pred _ Hpos). cbn [firstn fold_left]. unfold file_entry at 2.
    destruct (starts_with line "file ") eqn:Htag.
    + rewrite (substr_guarded _ "file " 5 eq_refl Htag).
      cbn [mbind outcome_bind Cpp.bind].
      destruct (find (string_drop 5 line) " " 0) as [space_pos|] eqn:Hfind.
      * assert (Hlt : space_pos < String.length (string_drop 5 line))
          by exact (find_lt _ _ _ Hfind).
        set (info := string_drop 5 line) in *.
        assert (Hname : substr_n info 0 space_pos = Ok (string_take space_pos info))
          by reflexivity.
        assert (Hblob : substr info (space_pos + 1) = Ok (string_drop (space_pos + 1) info)).
        { unfold substr.
          destruct (Nat.leb_spec (space_pos + 1) (String.length info)); [reflexivity|lia]. }
        rewrite Hname, Hblob. cbn [mbind outcome_bind Cpp.bind]. now rewrite IH.
      * cbn [mbind outcome_bind Cpp.bind]. apply IH.
    + cbn [mbind outcome_bind Cpp.bind]. apply IH.
Qed.

Lemma parent_entries_fold (lines : list string) :
  parent_entries lines
  = fold_left
      (fun found line =>
         if starts_with line "parent "
         then if existsb (String.eqb (string_drop 7 line)) found
              then found
              else (found ++ [string_drop 7 line])%list
         else found) lines [].
Proof. reflexivity. Qed.

Lemma from_string_exact (data : string) (ts : Z) (declared : N) :
  let lines := utils.split data nl in
  let line := fun i => nth i lines "" in
  let body := skipn 5 lines in
  let decoded := Commit.mk (string_drop 7 (line 0)) (string_drop 8 (line 1))
                           (string_drop 7 (line 2)) ts
                           (parent_entries (firstn (N.to_nat declared) body)) in
  5 <= List.length lines ->
  starts_with (line 0) "commit " = true ->
  starts_with (line 1) "message " = true ->
  starts_with (line 2) "author " = true ->
  starts_with (line 3) "timestamp " = true ->
  starts_with (line 4) "parents " = true ->
  stoll (string_drop 10 (line 3)) = Ok ts ->
  stoul (string_drop 8 (line 4)) = Ok declared ->
  Commit.from_string data
  = match skipn (N.to_nat declared) body with
    | files_line :: file_lines =>
        if starts_with files_line "files "
        then files_declared ← stoul (string_drop 6 files_line);
             Ok (Some (decoded (file_entries (firstn (N.to_nat files_declared) file_lines))))
        else Ok (Some (decoded []))
    | [] => Ok (Some (decoded []))
    end.
Proof.
  intros lines line body decoded Hlen T0 T1 T2 T3 T4 Hts Hdecl.
  subst line decoded body. cbv beta in *.
  unfold Commit.from_string. fold lines.
  destruct (Nat.ltb_spec (List.length lines) 5) as [|_]; [lia|].
  rewrite T0, T1, T2, T3, T4. cbn [negb].
  rewrite (substr_guarded _ "commit " 7 eq_refl T0).
  rewrite (substr_guarded _ "message " 8 eq_refl T1).
  rewrite (substr_guarded _ "author " 7 eq_refl T2).
  rewrite (substr_guarded _ "timestamp " 10 eq_refl T3).
  rewrite (substr_guarded _ "parents " 8 eq_refl T4).
  cbn [mbind outcome_bind Cpp.bind].
  unfold utils.string_to_timestamp. rewrite Hts, Hdecl.
  cbn [mbind outcome_bind Cpp.bind].
  rewrite parse_parents_exact.
  cbn [mbind outcome_bind Cpp.bind Commit.new Commit.set_hash Commit.set_timestamp
       Commit.hash Commit.message Commit.author Commit.timestamp Commit.parent_hashes
       Commit.file_blobs].
  rewrite <- parent_entries_fold.
  destruct (skipn (N.to_nat declared) (skipn 5 lines)) as [|files_line file_lines];
    [reflexivity|].
  destruct (starts_with files_line "files ") eqn:T5; [|reflexivity].
  rewrite (substr_guarded _ "files " 6 eq_refl T5).
  cbn [mbind outcome_bind Cpp.bind].
  destruct (stoul (string_drop 6 files_line)) as [files_declared| |];
    cbn [mbind outcome_bind Cpp.bind]; try reflexivity.
  rewrite parse_files_exact. reflexivity.
Qed.

Section Decoding.
Context `{utils.Hasher}.

(** C4 (amended): decoding answers with the null result when the record
    has fewer lines than its header needs or a header line lacks its tag
    (for the [parents] line of a commit: once the timestamp before it has
    been read); decoding a branch record never does anything else than
    return the branch or the null result.  A commit record need not hold as
    many parent and file lines as it declares: the decoded commit has the
    entries that are present, never more than declared.  Precisely, when
    the five header lines carry their tags and the timestamp and the
    parent count [declared] are numbers, the decoder returns a commit
    made of the header fields, of the parents named by the first
    [declared] lines after the header (as many as there are), and, when
    the line after those is a [files] line, of the file table named by as
    many of the following lines as that line declares (as many as there
    are; the decoder throws when its count is not a number); without a
    [files] line there the file table is empty. *)
Theorem decoding_rejects_bad_headers (data : string) :
  let lines := utils.split data nl in
  let line := fun i => nth i lines "" in
  (Branch.from_string data =
     if (List.length lines <? 2)%nat
        || negb (starts_with (line 0) "branch ")
        || negb (starts_with (line 1) "commit ")
     then Ok None
     else Ok (Some (Branch.mk (string_drop 7 (line 0)) (string_drop 7 (line 1))))) /\
  ((List.length lines <? 4)%nat
   || negb (starts_with (line 0) "blob ")
   || negb (starts_with (line 1) "filename ")
   || negb (starts_with (line 2) "content ") = true ->
   Blob.from_string data = Ok None) /\
  ((List.length lines <? 5)%nat
   || negb (starts_with (line 0) "commit ")
   || negb (starts_with (line 1) "message ")
   || negb (starts_with (line 2) "author ")
   || negb (starts_with (line 3) "timestamp ") = true ->
   Commit.from_string data = Ok None) /\
  (forall ts : Z,
     stoll (string_drop 10 (line 3)) = Ok ts ->
     starts_with (line 4) "parents " = false ->
     Commit.from_string data = Ok None) /\
  (forall c : Commit.t,
     Commit.from_string data = Ok (Some c) ->
     exists declared : N,
       stoul (string_drop 8 (line 4)) = Ok declared /\
       (N.of_nat (List.length (Commit.parent_hashes c)) <= declared)%N /\
       List.length (Commit.parent_hashes c) + 5 <= List.length lines /\
       (Commit.file_blobs c = []
        \/ exists (files_line : string) (files_declared : N),
             In files_line lines /\
             starts_with files_line "files " = true /\
             stoul (string_drop 6 files_line) = Ok files_declared /\
             (N.of_nat (StdMap.size (Commit.file_blobs c)) <= files_declared)%N)) /\
  (forall (ts : Z) (declared : N),
     5 <= List.length lines ->
     starts_with (line 0) "commit " = true ->
     starts_with (line 1) "message " = true ->
     starts_with (line 2) "author " = true ->
     starts_with (line 3) "timestamp " = true ->
     starts_with (line 4) "parents " = true ->
     stoll (string_drop 10 (line 3)) = Ok ts ->
     stoul (string_drop 8 (line 4)) = Ok declared ->
     let body := skipn 5 lines in
     let decoded :=
       Commit.mk (string_drop 7 (line 0)) (string_drop 8 (line 1))
                 (string_drop 7 (line 2)) ts
                 (parent_entries (firstn (N.to_nat declared) body)) in
     Commit.from_string data
     = match skipn (N.to_nat declared) body with
       | files_line :: file_lines =>
           if starts_with files_line "files "
           then files_declared ← stoul (string_drop 6 files_line);
                Ok (Some (decoded
                            (file_entries (firstn (N.to_nat files_declared) file_lines))))
           else Ok (Some (decoded []))
       | [] => Ok (Some (decoded []))
       end).
Proof.
  intros lines line. subst line. cbv beta.
  split; [|split; [|split; [|split; [|split]]]].
  6:{ intros ts declared Hlen T0 T1 T2 T3 T4 Hts Hdecl.
      exact (from_string_exact data ts declared Hlen T0 T1 T2 T3 T4 Hts Hdecl). }
  - unfold Branch.from_string. fold lines.
    destruct (List.length lines <? 2)%nat; [reflexivity|].
    destruct (starts_with (nth 0 lines "") "branch ") eqn:T0; [|reflexivity].
    rewrite (substr_guarded _ "branch " 7 eq_refl T0).
    destruct (starts_with (nth 1 lines "") "commit ") eqn:T1; [|reflexivity].
    rewrite (substr_guarded _ "commit " 7 eq_refl T1). reflexivity.
  - intros Hbad. unfold Blob.from_string. fold lines.
    destruct (List.length lines <? 4)%nat; [reflexivity|].
    destruct (starts_with (nth 0 lines "") "blob ") eqn:T0; [|reflexivity].
    rewrite (substr_guarded _ "blob " 5 eq_refl T0).
    destruct (starts_with (nth 1 lines "") "filename ") eqn:T1; [|reflexivity].
    rewrite (substr_guarded _ "filename " 9 eq_refl T1).
    destruct (starts_with (nth 2 lines "") "content ") eqn:T2; [|reflexivity].
    discriminate.
  - intros Hbad. unfold Commit.from_string. fold lines.
    destruct (List.length lines <? 5)%nat; [reflexivity|].
    destruct (starts_with (nth 0 lines "") "commit ") eqn:T0; [|reflexivity].
    rewrite (substr_guarded _ "commit " 7 eq_refl T0).
    destruct (starts_with (nth 1 lines "") "message ") eqn:T1; [|reflexivity].
    rewrite (substr_guarded _ "message " 8 eq_refl T1).
    destruct (starts_with (nth 2 lines "") "author ") eqn:T2; [|reflexivity].
    rewrite (substr_guarded _ "author " 7 eq_refl T2).
    destruct (starts_with (nth 3 lines "") "timestamp ") eqn:T3; [|reflexivity].
    discriminate.
  - intros ts Hts Htag. unfold Commit.from_string. fold lines.
    destruct (List.length lines <? 5)%nat; [reflexivity|].
    destruct (starts_with (nth 0 lines "") "commit ") eqn:T0; [|reflexivity].
    rewrite (substr_guarded _ "commit " 7 eq_refl T0).
    destruct (starts_with (nth 1 lines "") "message ") eqn:T1; [|reflexivity].
    rewrite (substr_guarded _ "message " 8 eq_refl T1).
    destruct (starts_with (nth 2 lines "") "author ") eqn:T2; [|reflexivity].
    rewrite (substr_guarded _ "author " 7 eq_refl T2).
    destruct (starts_with (nth 3 lines "") "timestamp ") eqn:T3; [|reflexivity].
    rewrite (substr_guarded _ "timestamp " 10 eq_refl T3).
    cbn [mbind outcome_bind Cpp.bind negb].
    unfold utils.string_to_timestamp. rewrite Hts, Htag. reflexivity.
  - intros c. unfold Commit.from_string. fold lines.
    destruct (Nat.ltb_spec (List.length lines) 5) as [|Hlen]; [discriminate|].
    destruct (starts_with (nth 0 lines "") "commit ") eqn:T0; [|discriminate].
    rewrite (substr_guarded _ "commit " 7 eq_refl T0).
    destruct (starts_with (nth 1 lines "") "message ") eqn:T1; [|discriminate].
    rewrite (substr_guarded _ "message " 8 eq_refl T1).
    destruct (starts_with (nth 2 lines "") "author ") eqn:T2; [|discriminate].
    rewrite (substr_guarded _ "author " 7 eq_refl T2).
    destruct (starts_with (nth 3 lines "") "timestamp ") eqn:T3; [|discriminate].
    rewrite (substr_guarded _ "timestamp " 10 eq_refl T3).
    cbn [mbind outcome_bind Cpp.bind negb].
    destruct (utils.string_to_timestamp _) as [ts| |]; cbn [mbind outcome_bind Cpp.bind]; try discriminate.
    destruct (starts_with (nth 4 lines "") "parents ") eqn:T4; [|discriminate].
    rewrite (substr_guarded _ "parents " 8 eq_refl T4).
    cbn [mbind outcome_bind Cpp.bind negb].
    destruct (stoul (string_drop 8 (nth 4 lines ""))) as [declared| |];
      cbn [mbind outcome_bind Cpp.bind]; try discriminate.
    destruct (Commit.parse_parents _ declared _) as [[c1 rest]| |] eqn:Hparents;
      cbn [mbind outcome_bind Cpp.bind]; try discriminate.
    apply parse_parents_bound in Hparents as (Hcount & Hlines & Hfiles & Hrest).
    simpl in Hcount, Hlines, Hfiles. rewrite length_skipn in Hlines.
    assert (Hin : forall l, In l rest -> In l lines).
    { intros l Hl. apply Hrest in Hl. revert Hl. apply In_skipn_lines. }
    intros Hdec. exists declared. split; [reflexivity|].
    destruct rest as [|files_line rest].
    + injection Hdec as <-. split; [lia|split; [lia|now left]].
    + destruct (starts_with files_line "files ") eqn:T5.
      * rewrite (substr_guarded _ "files " 6 eq_refl T5) in Hdec.
        cbn [mbind outcome_bind Cpp.bind] in Hdec.
        destruct (stoul (string_drop 6 files_line)) as [files_declared| |] eqn:Hfd;
          cbn [mbind outcome_bind Cpp.bind] in Hdec; try discriminate.
        destruct (Commit.parse_files rest files_declared c1) as [c2| |] eqn:Hfl;
          cbn [mbind outcome_bind Cpp.bind] in Hdec; try discriminate.
        injection Hdec as <-.
        apply parse_files_bound in Hfl as (Hsize & Hsame).
        rewrite Hfiles in Hsize. rewrite Hsame.
        split; [lia|split; [simpl in Hlines; lia|]].
        right. exists files_line, files_declared.
        split; [apply Hin; now left|]. split; [exact T5|]. split; [exact Hfd|].
        simpl in Hsize. lia.
      * injection Hdec as <-. split; [lia|split; [simpl in Hlines; lia|now left]].
Qed.

End Decoding.

Lemma decoding_rejects_bad_headers_witness :
  let data := "tree h" ++ endl ++ "filename f" ++ endl ++ "content 1" ++ endl ++ "x" in
  let lines := utils.split data nl in
  let record := "commit x" ++ endl ++ "message m" ++ endl ++ "author a" ++ endl
                ++ "timestamp 1" ++ endl ++ "parents 1" ++ endl ++ "parent p" ++ endl
                ++ "files 3" ++ endl ++ "file a.txt h1" ++ endl in
  let record_lines := utils.split record nl in
  (((List.length lines <? 4)%nat
    || negb (starts_with (nth 0 lines "") "blob ")
    || negb (starts_with (nth 1 lines "") "filename ")
    || negb (starts_with (nth 2 lines "") "content ") = true) /\
   Blob.from_string (H := Examples.length_digest) data = Ok None) /\
  ((5 <= List.length record_lines /\
    starts_with (nth 0 record_lines "") "commit " = true /\
    starts_with (nth 1 record_lines "") "message " = true /\
    starts_with (nth 2 record_lines "") "author " = true /\
    starts_with (nth 3 record_lines "") "timestamp " = true /\
    starts_with (nth 4 record_lines "") "parents " = true /\
    stoll (string_drop 10 (nth 3 record_lines "")) = Ok 1%Z /\
    stoul (string_drop 8 (nth 4 record_lines "")) = Ok 1%N) /\
   Commit.from_string record
   = Ok (Some (Commit.mk "x" "m" "a" 1 ["p"] [("a.txt", "h1")]))).
Proof.
  intros data lines record record_lines.
  assert (Hbad : (List.length lines <? 4)%nat
                 || negb (starts_with (nth 0 lines "") "blob ")
                 || negb (starts_with (nth 1 lines "") "filename ")
                 || negb (starts_with (nth 2 lines "") "content ") = true)
    by (vm_compute; reflexivity).
  assert (Hgood : 5 <= List.length record_lines /\
                  starts_with (nth 0 record_lines "") "commit " = true /\
                  starts_with (nth 1 record_lines "") "message " = true /\
                  starts_with (nth 2 record_lines "") "author " = true /\
                  starts_with (nth 3 record_lines "") "timestamp " = true /\
                  starts_with (nth 4 record_lines "") "parents " = true /\
                  stoll (string_drop 10 (nth 3 record_lines "")) = Ok 1%Z /\
                  stoul (string_drop 8 (nth 4 record_lines "")) = Ok 1%N)
    by (repeat split; try (vm_compute; reflexivity); vm_compute; lia).
  split; [split; [exact Hbad|]|split; [exact Hgood|]].
  - destruct (decoding_rejects_bad_headers (H := Examples.length_digest) data)
      as (_ & Hblob & _).
    exact (Hblob Hbad).
  - destruct Hgood as (Hlen & T0 & T1 & T2 & T3 & T4 & Hts & Hdecl).
    destruct (decoding_rejects_bad_headers (H := Examples.length_digest) record)
      as (_ & _ & _ & _ & _ & Hexact).
    rewrite (Hexact 1%Z 1%N Hlen T0 T1 T2 T3 T4 Hts Hdecl).
    vm_compute. reflexivity.
Defined.

(** C4 (counterexample): a commit record whose parent count is not a
    number makes the decoder throw [std::invalid_argument]; so does a blob
    record whose content length is not a number; and a commit record that
    declares two parents and three files but holds one line of each is
    decoded into a commit with one parent and no file (the second round of
    the parents loop consumes the [files] line). *)
Lemma decoding_throws_and_returns_partial_objects :
  let header := "commit x" ++ endl ++ "message m" ++ endl ++ "author a" ++ endl
                ++ "timestamp 1" ++ endl in
  Commit.from_string (header ++ "parents two" ++ endl) = Throw invalid_argument /\
  Blob.from_string (H := Examples.length_digest)
    ("blob h" ++ endl ++ "filename f" ++ endl ++ "content abc" ++ endl ++ "xyz")
    = Throw invalid_argument /\
  Commit.from_string
    (header ++ "parents 2" ++ endl ++ "parent p" ++ endl
            ++ "files 3" ++ endl ++ "file a.txt h1" ++ endl)
    = Ok (Some (Commit.mk "x" "m" "a" 1 ["p"] [])).
Proof. cbv zeta. repeat split; vm_compute; reflexivity. Qed.

(** * Further properties of the commands *)

(** ** Guards *)

(** X1: on an object that is not initialised, [add], [commit], [branch],
    [checkout], [merge], [log] and [diff] return false after the single
    message "Not a MiniGit repository" and change nothing. *)
Theorem commands_need_a_repository `{utils.Hasher} (st : MiniGit.t) :
  MiniGit.is_initialized st = false ->
  let refused :=
    MiniGit.mkResult (Ok false) st [MiniGit.print_error "Not a MiniGit repository"] in
  (forall filename, MiniGit.add filename st = refused) /\
  (forall message now, MiniGit.commit message now st = refused) /\
  (forall name, MiniGit.branch name st = refused) /\
  (forall target, MiniGit.checkout target st = refused) /\
  (forall fuel name now, MiniGit.merge fuel name now st = refused) /\
  (forall fuel, MiniGit.log fuel st
                = ([MiniGit.print_error "Not a MiniGit repository"], [], Ok false)) /\
  (forall commit1 commit2,
      MiniGit.diff st commit1 commit2
      = ([MiniGit.print_error "Not a MiniGit repository"], [], Ok false)).
Proof.
  intros Hinit refused. subst refused.
  repeat match goal with |- _ /\ _ => split end; intros.
  - unfold MiniGit.add. rewrite bind_get, Hinit. reflexivity.
  - unfold MiniGit.commit. rewrite bind_get, Hinit. reflexivity.
  - unfold MiniGit.branch. rewrite bind_get, Hinit. reflexivity.
  - unfold MiniGit.checkout. rewrite bind_get, Hinit. reflexivity.
  - unfold MiniGit.merge. rewrite bind_get, Hinit. reflexivity.
  - unfold MiniGit.log. now rewrite Hinit.
  - unfold MiniGit.diff. now rewrite Hinit.
Qed.

Lemma commands_need_a_repository_witness :
  MiniGit.is_initialized Scenarios.empty_directory = false /\
  MiniGit.commit "first" 1 Scenarios.empty_directory
  = MiniGit.mkResult (Ok false) Scenarios.empty_directory
      [MiniGit.print_error "Not a MiniGit repository"].
Proof.
  assert (H : MiniGit.is_initialized Scenarios.empty_directory = false) by reflexivity.
  split; [exact H|].
  destruct (commands_need_a_repository (H := Examples.length_digest) _ H)
    as (_ & Hcommit & _).
  apply Hcommit.
Defined.

(** ** [init] *)

Lemma ends_with_slash_append (a b : string) :
  b <> "" -> MiniGit.ends_with_slash (a ++ b) = MiniGit.ends_with_slash b.
Proof.
  intros Hb. induction a as [|c a IH]; [reflexivity|].
  rewrite append_cons.
  change (MiniGit.ends_with_slash (String c (a ++ b)))
    with (match a ++ b with
          | EmptyString => Ascii.eqb c "/"
          | _ => MiniGit.ends_with_slash (a ++ b)
          end).
  destruct (a ++ b) eqn:E; [|exact IH].
  destruct a; [rewrite append_nil_l in E; contradiction|discriminate].
Qed.

Lemma create_directory_on_a_file (d : gmap string string) (path : string) :
  is_Some (d !! path) -> MiniGit.create_directory d path = Throw filesystem_error.
Proof.
  intros Hfile. unfold MiniGit.create_directory.
  rewrite existsb_app. cbn [existsb].
  rewrite (bool_decide_eq_true_2 _ Hfile), orb_true_r. reflexivity.
Qed.

(** X2: [init] on an object that is not initialised first makes the
    directories; when that throws (as it does when [.minigit] is a regular
    file) [init] throws the same exception and has changed and printed
    nothing.  When the directories could be made, [init] returns true,
    makes [main] the current branch, records a branch [main] with no
    commit and leaves every other branch and the staging area alone; the
    branch file it writes loads back as that branch; and a second [init]
    only prints a warning and changes nothing. *)
Theorem init_creates_main (st : MiniGit.t) :
  MiniGit.is_initialized st = false ->
  let r := MiniGit.init st in
  (MiniGit.create_directory_structure st = Ok tt ->
   MiniGit.value r = Ok true /\
   MiniGit.is_initialized (MiniGit.final r) = true /\
   MiniGit.current_branch (MiniGit.final r) = "main" /\
   StdMap.find "main" (MiniGit.branches (MiniGit.final r)) = Some (Branch.mk "main" "") /\
   (forall name, name <> "main" ->
      StdMap.find name (MiniGit.branches (MiniGit.final r))
      = StdMap.find name (MiniGit.branches st)) /\
   MiniGit.staging_area (MiniGit.final r) = MiniGit.staging_area st /\
   MiniGit.load_branch (MiniGit.final r) "main" = Ok (Some (Branch.mk "main" "")) /\
   MiniGit.init (MiniGit.final r)
   = MiniGit.mkResult (Ok true) (MiniGit.final r)
       [MiniGit.print_warning "MiniGit repository already initialized"]) /\
  (forall e : exception,
     MiniGit.create_directory_structure st = Throw e ->
     r = MiniGit.mkResult (Throw e) st []) /\
  (is_Some (MiniGit.disk st !! MiniGit.minigit_path st) ->
   r = MiniGit.mkResult (Throw filesystem_error) st []).
Proof.
  intros Hinit r.
  assert (Hthrow : forall e : exception,
             MiniGit.create_directory_structure st = Throw e ->
             r = MiniGit.mkResult (Throw e) st []).
  { intros e He. subst r. unfold MiniGit.init. rewrite bind_get, Hinit, He. reflexivity. }
  split; [|split; [exact Hthrow|]].
  2:{ intros Hfile. apply Hthrow. unfold MiniGit.create_directory_structure.
      now rewrite (create_directory_on_a_file _ _ Hfile). }
  intros Hdirs.
  assert (Hr : r = MiniGit.mkResult (Ok true)
                 (MiniGit.set_is_initialized
                    (MiniGit.set_disk
                       (MiniGit.set_branches (MiniGit.set_current_branch st "main")
                          (StdMap.insert "main" (Branch.mk "main" "") (MiniGit.branches st)))
                       (MiniGit.write_file (MiniGit.disk st)
                          (MiniGit.refs_path st ++ "/" ++ "main")
                          (Branch.to_string (Branch.mk "main" ""))).2) true)
                 [MiniGit.save_branch_call (Branch.mk "main" "");
                  MiniGit.print_success "Initialized empty MiniGit repository"]).
  { subst r. unfold MiniGit.init.
    rewrite bind_get, Hinit, Hdirs, bind_lift, !bind_modify, bind_save_branch,
            bind_modify, bind_emit.
    reflexivity. }
  rewrite Hr. cbn [MiniGit.value MiniGit.final].
  repeat match goal with |- _ /\ _ => split end; try reflexivity.
  - apply find_insert_same.
  - intros name Hne. now apply find_insert_other.
  - unfold MiniGit.load_branch, MiniGit.read_file, MiniGit.write_file.
    cbn [MiniGit.disk MiniGit.refs_path MiniGit.set_is_initialized MiniGit.set_disk
         MiniGit.set_branches MiniGit.set_current_branch].
    rewrite ends_with_slash_append by discriminate.
    change (MiniGit.ends_with_slash ("/" ++ "main")) with false.
    cbn [snd]. rewrite lookup_insert_eq. reflexivity.
Qed.

Lemma init_creates_main_witness :
  (MiniGit.is_initialized Scenarios.empty_directory = false /\
   MiniGit.create_directory_structure Scenarios.empty_directory = Ok tt) /\
  MiniGit.current_branch (MiniGit.final (MiniGit.init Scenarios.empty_directory)) = "main".
Proof.
  assert (H : MiniGit.is_initialized Scenarios.empty_directory = false /\
              MiniGit.create_directory_structure Scenarios.empty_directory = Ok tt)
    by (split; reflexivity).
  split; [exact H|]. destruct H as (Hinit & Hdirs).
  destruct (init_creates_main _ Hinit) as (Hmade & _).
  destruct (Hmade Hdirs) as (_ & _ & Hcur & _). exact Hcur.
Defined.

(** ** [add] *)



(** ** [commit] *)

Lemma layout_head_is_no_ref (st : MiniGit.t) (name : string) :
  standard_layout st ->
  MiniGit.head_path st <> MiniGit.refs_path st ++ "/" ++ name.
Proof.
  intros (_ & _ & Hrefs & Hhead). rewrite Hhead, Hrefs, append_assoc.
  intros Heq. apply String.app_inj in Heq. discriminate.
Qed.

Lemma layout_head_is_a_file (st : MiniGit.t) :
  standard_layout st -> MiniGit.ends_with_slash (MiniGit.head_path st) = false.
Proof.
  intros (_ & _ & _ & Hhead). rewrite Hhead.
  now rewrite ends_with_slash_append by discriminate.
Qed.

(** What [commit_staged] leaves on the disk does not concern HEAD when
    the blobs are written under the objects directory. *)
Lemma commit_staged_final (staged : list (string * Blob.t)) :
  forall (c : Commit.t) (st : MiniGit.t),
    let r := MiniGit.commit_staged staged c st in
    MiniGit.staging_area (MiniGit.final r) = MiniGit.staging_area st /\
    MiniGit.is_initialized (MiniGit.final r) = MiniGit.is_initialized st /\
    MiniGit.head_path (MiniGit.final r) = MiniGit.head_path st /\
    MiniGit.refs_path (MiniGit.final r) = MiniGit.refs_path st /\
    MiniGit.objects_path (MiniGit.final r) = MiniGit.objects_path st.
Proof.
  induction staged as [|[f b] staged IH]; intros c st; simpl.
  - repeat split.
  - unfold mbind, MiniGit.M_bind, MiniGit.bind. simpl.
    match goal with
    | |- context [MiniGit.commit_staged staged ?c' ?st'] =>
        destruct (IH c' st') as (H1 & H2 & H3 & H4 & H5)
    end.
    rewrite H1, H2, H3, H4, H5. repeat split.
Qed.

(** X4: in a repository, [commit] with an empty staging area returns
    false after "No changes staged for commit" and changes nothing; with a
    staged file it returns true, hands every staged blob to [save_blob] in
    key order and then one commit to [save_commit], and leaves the staging
    area empty, so that a second [commit] right after it is refused. *)
Theorem commit_consumes_the_staging_area
        (st : MiniGit.t) (message : string) (now : Z) :
  MiniGit.is_initialized st = true ->
  (MiniGit.staging_area st = [] ->
   MiniGit.commit message now st
   = MiniGit.mkResult (Ok false) st [MiniGit.print_error "No changes staged for commit"]) /\
  (MiniGit.staging_area st <> [] ->
   let r := MiniGit.commit message now st in
   MiniGit.value r = Ok true /\
   MiniGit.staging_area (MiniGit.final r) = [] /\
   (exists (c : Commit.t) (rest : list MiniGit.Event),
      MiniGit.events r
      = (List.map (fun '(_, b) => MiniGit.save_blob_call b) (MiniGit.staging_area st)
         ++ MiniGit.save_commit_call c :: MiniGit.save_head_call (Commit.hash c) :: rest)%list) /\
   (forall message' now',
      MiniGit.commit message' now' (MiniGit.final r)
      = MiniGit.mkResult (Ok false) (MiniGit.final r)
          [MiniGit.print_error "No changes staged for commit"])).
Proof.
  intros Hinit. split.
  - intros Hempty. unfold MiniGit.commit. rewrite bind_get, Hinit, Hempty. reflexivity.
  - intros Hstaged r.
    assert (Hrun : MiniGit.value r = Ok true /\
                   MiniGit.staging_area (MiniGit.final r) = [] /\
                   MiniGit.is_initialized (MiniGit.final r) = true /\
                   exists (c : Commit.t) (rest : list MiniGit.Event),
                     MiniGit.events r
                     = (List.map (fun '(_, b) => MiniGit.save_blob_call b)
                                 (MiniGit.staging_area st)
                        ++ MiniGit.save_commit_call c
                           :: MiniGit.save_head_call (Commit.hash c) :: rest)%list).
    { assert (Hr : r = MiniGit.commit message now st) by reflexivity.
      clearbody r. unfold MiniGit.commit in Hr.
      rewrite bind_get, Hinit in Hr. cbn [negb] in Hr.
      destruct (StdMap.is_empty (MiniGit.staging_area st)) eqn:Hs.
      { destruct (MiniGit.staging_area st); [contradiction|discriminate]. }
      cbv zeta in Hr.
      match type of Hr with
      | context [MiniGit.commit_staged ?l ?c'] =>
          destruct (commit_staged_run l c' st) as (Hv & He & _);
          destruct (commit_staged_final l c' st) as (_ & Hi & _);
          set (c0 := c') in *
      end.
      rewrite (bind_ok _ _ _ _ Hv), He in Hr.
      set (c := fold_left _ _ c0) in Hr.
      set (st1 := MiniGit.final _) in *.
      rewrite bind_save_commit, bind_save_head in Hr.
      set (st2 := MiniGit.set_disk _ _) in Hr.
      destruct (update_current_branch_run (Commit.hash c) st2)
        as (Hu & _ & _ & Hui & _).
      rewrite (bind_ok _ _ _ _ Hu), bind_modify, bind_emit in Hr.
      set (st3 := MiniGit.final _) in *.
      assert (Hhash : Commit.hash c = "").
      { subst c. rewrite (fold_add_file_hash Blob.hash). subst c0.
        destruct (String.eqb (MiniGit.load_head st) ""); [reflexivity|].
        now rewrite add_parent_hash. }
      assert (Hshort : substr_n (Commit.hash c) 0 8 = Ok "")
        by now rewrite Hhash.
      rewrite Hshort, bind_lift, bind_emit in Hr.
      rewrite Hr.
      cbn [preceded_by MiniGit.value MiniGit.final MiniGit.events mret MiniGit.M_ret
           MiniGit.ret MiniGit.staging_area MiniGit.is_initialized
           MiniGit.set_staging_area].
      split; [reflexivity|]. split; [reflexivity|]. split.
      - rewrite Hui. subst st2. cbn [MiniGit.is_initialized MiniGit.set_disk].
        rewrite Hi. exact Hinit.
      - eexists c, _. reflexivity. }
    destruct Hrun as (Hv & Hs & Hi & Hev).
    repeat split; try assumption.
    intros message' now'. unfold MiniGit.commit. rewrite bind_get, Hi, Hs. reflexivity.
Qed.

Lemma commit_consumes_the_staging_area_witness :
  (MiniGit.is_initialized Examples.one_staged = true /\
   MiniGit.staging_area Examples.one_staged <> []) /\
  MiniGit.staging_area (MiniGit.final (MiniGit.commit "second" 7 Examples.one_staged)) = [].
Proof.
  assert (H : MiniGit.is_initialized Examples.one_staged = true /\
              MiniGit.staging_area Examples.one_staged <> [])
    by (split; [reflexivity|discriminate]).
  split; [exact H|].
  destruct H as (Hinit & Hstaged).
  destruct (commit_consumes_the_staging_area _ "second" 7 Hinit) as (_ & Hcommit).
  destruct (Hcommit Hstaged) as (_ & Hempty & _). exact Hempty.
Defined.

(** ** [branch] and [checkout] *)

(** X5: in a repository, [branch] with a name that is taken returns false
    and changes nothing; with a new name it returns true and records a
    branch of that name at the commit HEAD names, without changing the
    current branch, the other branches or the staging area, and, when
    the name has no path separator (so that its file lies in the refs
    directory), without changing HEAD; a [checkout] of the new branch
    then succeeds and makes it current. *)
Theorem branch_points_at_head (st : MiniGit.t) (name : string) :
  MiniGit.is_initialized st = true ->
  (forall existing, StdMap.find name (MiniGit.branches st) = Some existing ->
     MiniGit.branch name st
     = MiniGit.mkResult (Ok false) st
         [MiniGit.print_error ("Branch '" ++ name ++ "' already exists")]) /\
  (StdMap.find name (MiniGit.branches st) = None ->
   let r := MiniGit.branch name st in
   MiniGit.value r = Ok true /\
   StdMap.find name (MiniGit.branches (MiniGit.final r))
   = Some (Branch.mk name (MiniGit.load_head st)) /\
   (forall other, other <> name ->
      StdMap.find other (MiniGit.branches (MiniGit.final r))
      = StdMap.find other (MiniGit.branches st)) /\
   MiniGit.current_branch (MiniGit.final r) = MiniGit.current_branch st /\
   MiniGit.staging_area (MiniGit.final r) = MiniGit.staging_area st /\
   (standard_layout st -> plain_name name ->
    MiniGit.load_head (MiniGit.final r) = MiniGit.load_head st) /\
   MiniGit.value (MiniGit.checkout name (MiniGit.final r)) = Ok true /\
   MiniGit.current_branch (MiniGit.final (MiniGit.checkout name (MiniGit.final r))) = name).
Proof.
  intros Hinit. split.
  - intros existing Hfind. unfold MiniGit.branch. run_command. now rewrite Hinit, Hfind.
  - intros Hfind r. subst r. unfold MiniGit.branch. run_command.
    rewrite Hinit, Hfind. simpl.
    split; [reflexivity|]. split; [apply find_insert_same|].
    split; [intros other Hne; now apply find_insert_other|].
    split; [reflexivity|]. split; [reflexivity|].
    split.
    + intros Hlayout _. unfold MiniGit.load_head, MiniGit.read_file, MiniGit.write_file.
      simpl. destruct (MiniGit.ends_with_slash (MiniGit.head_path st)); [reflexivity|].
      destruct (MiniGit.ends_with_slash (MiniGit.refs_path st ++ "/" ++ name));
        [reflexivity|].
      simpl. rewrite lookup_insert_ne; [reflexivity|].
      intros Heq. now apply (layout_head_is_no_ref st name).
    + unfold MiniGit.checkout. run_command. rewrite Hinit. simpl.
      rewrite find_insert_same. simpl.
      destruct (String.eqb (MiniGit.load_head st) ""); simpl; split; reflexivity.
Qed.

Lemma branch_points_at_head_witness :
  (MiniGit.is_initialized Scenarios.with_notes = true /\
   StdMap.find "dev" (MiniGit.branches Scenarios.with_notes) = None /\
   standard_layout Scenarios.with_notes /\ plain_name "dev") /\
  StdMap.find "dev"
    (MiniGit.branches (MiniGit.final (MiniGit.branch "dev" Scenarios.with_notes)))
  = Some (Branch.mk "dev" "P") /\
  MiniGit.load_head (MiniGit.final (MiniGit.branch "dev" Scenarios.with_notes)) = "P".
Proof.
  assert (H : MiniGit.is_initialized Scenarios.with_notes = true /\
              StdMap.find "dev" (MiniGit.branches Scenarios.with_notes) = None /\
              standard_layout Scenarios.with_notes /\ plain_name "dev")
    by (repeat split; reflexivity).
  split; [exact H|].
  destruct H as (Hinit & Hfind & Hlayout & Hplain).
  destruct (branch_points_at_head _ "dev" Hinit) as (_ & Hbranch).
  destruct (Hbranch Hfind) as (_ & Hnew & _ & _ & _ & Hhead & _).
  split.
  - rewrite Hnew. vm_compute. reflexivity.
  - rewrite (Hhead Hlayout Hplain). vm_compute. reflexivity.
Defined.

(** X6: in a repository, [checkout] of a target that is no branch is
    decided by the object store: when no commit loads under that name it
    returns false after "Target ... not found" and changes nothing; when a
    commit loads it returns true and writes the target to HEAD, and the
    current branch and all branch pointers stay as they were. *)
Theorem checkout_of_a_commit (st : MiniGit.t) (target : string) :
  MiniGit.is_initialized st = true ->
  StdMap.find target (MiniGit.branches st) = None ->
  (MiniGit.load_commit st target = Ok None ->
   MiniGit.checkout target st
   = MiniGit.mkResult (Ok false) st
       [MiniGit.print_error ("Target '" ++ target ++ "' not found")]) /\
  (forall c, MiniGit.load_commit st target = Ok (Some c) ->
     let r := MiniGit.checkout target st in
     MiniGit.value r = Ok true /\
     MiniGit.current_branch (MiniGit.final r) = MiniGit.current_branch st /\
     MiniGit.branches (MiniGit.final r) = MiniGit.branches st /\
     MiniGit.staging_area (MiniGit.final r) = MiniGit.staging_area st /\
     MiniGit.disk (MiniGit.final r)
     = snd (MiniGit.write_file (MiniGit.disk st) (MiniGit.head_path st) target) /\
     (standard_layout st -> MiniGit.load_head (MiniGit.final r) = target)).
Proof.
  intros Hinit Hfind. split.
  - intros Hload. unfold MiniGit.checkout. run_command.
    now rewrite Hinit, Hfind, Hload.
  - intros c Hload r. subst r. unfold MiniGit.checkout. run_command.
    rewrite Hinit, Hfind, Hload. simpl.
    repeat match goal with |- _ /\ _ => split end; try reflexivity.
    intros Hlayout. unfold MiniGit.load_head, MiniGit.read_file, MiniGit.write_file.
    simpl. rewrite (layout_head_is_a_file _ Hlayout). simpl.
    now rewrite lookup_insert_eq.
Qed.

Lemma checkout_of_a_commit_witness :
  (MiniGit.is_initialized Examples.two_branches = true /\
   StdMap.find "B" (MiniGit.branches Examples.two_branches) = None /\
   MiniGit.load_commit Examples.two_branches "B"
   = Ok (Some (Commit.mk "B" "m" "user" 1 [] [("a.txt", "h1"); ("b.txt", "h2")]))) /\
  MiniGit.current_branch (MiniGit.final (MiniGit.checkout "B" Examples.two_branches))
  = "main".
Proof.
  assert (H : MiniGit.is_initialized Examples.two_branches = true /\
              StdMap.find "B" (MiniGit.branches Examples.two_branches) = None /\
              MiniGit.load_commit Examples.two_branches "B"
              = Ok (Some (Commit.mk "B" "m" "user" 1 []
                                    [("a.txt", "h1"); ("b.txt", "h2")])))
    by (repeat split; vm_compute; reflexivity).
  split; [exact H|].
  destruct H as (Hinit & Hfind & Hload).
  destruct (checkout_of_a_commit _ "B" Hinit Hfind) as (_ & Hcommit).
  destruct (Hcommit _ Hload) as (_ & Hcur & _).
  rewrite Hcur. reflexivity.
Defined.

(** ** [merge]: refusals, parents and the conflict report *)

Lemma first_in_empty_set (l : list string) :
  MiniGit.first_in_set (list_to_set []) l = "".
Proof.
  induction l as [|h l IH]; simpl; [reflexivity|].
  rewrite bool_decide_eq_false_2; [exact IH|].
  apply not_elem_of_empty.
Qed.

(** X7: in a repository, [merge] of a branch that does not exist returns
    false and changes nothing; so does [merge] when the two commits have
    no common first-parent ancestor ("No common ancestor found"), which is
    always the case when HEAD is empty and the target branch has a
    commit. *)
Theorem merge_refusals `{utils.Hasher}
        (fuel : nat) (st : MiniGit.t) (branch_name : string) (now : Z) :
  MiniGit.is_initialized st = true ->
  (StdMap.find branch_name (MiniGit.branches st) = None ->
   MiniGit.merge fuel branch_name now st
   = MiniGit.mkResult (Ok false) st
       [MiniGit.print_error ("Branch '" ++ branch_name ++ "' does not exist")]) /\
  (forall target_branch,
     StdMap.find branch_name (MiniGit.branches st) = Some target_branch ->
     MiniGit.load_head st <> Branch.commit_hash target_branch ->
     MiniGit.find_lowest_common_ancestor fuel st (MiniGit.load_head st)
       (Branch.commit_hash target_branch) = Ok "" ->
     MiniGit.merge fuel branch_name now st
     = MiniGit.mkResult (Ok false) st [MiniGit.print_error "No common ancestor found"]) /\
  (forall target_branch ancestors,
     StdMap.find branch_name (MiniGit.branches st) = Some target_branch ->
     MiniGit.load_head st = "" ->
     Branch.commit_hash target_branch <> "" ->
     MiniGit.get_commit_ancestors fuel st (Branch.commit_hash target_branch)
     = Ok ancestors ->
     MiniGit.merge fuel branch_name now st
     = MiniGit.mkResult (Ok false) st [MiniGit.print_error "No common ancestor found"]).
Proof.
  intros Hinit.
  assert (Hno_lca : forall target_branch,
             StdMap.find branch_name (MiniGit.branches st) = Some target_branch ->
             MiniGit.load_head st <> Branch.commit_hash target_branch ->
             MiniGit.find_lowest_common_ancestor fuel st (MiniGit.load_head st)
               (Branch.commit_hash target_branch) = Ok "" ->
             MiniGit.merge fuel branch_name now st
             = MiniGit.mkResult (Ok false) st
                 [MiniGit.print_error "No common ancestor found"]).
  { intros tb Hfind Hne Hlca. unfold MiniGit.merge.
    rewrite bind_get, Hinit, Hfind. cbn [negb]. cbv zeta.
    rewrite (eqb_neq_false _ _ Hne), Hlca, bind_lift. reflexivity. }
  split; [|split; [exact Hno_lca|]].
  - intros Hfind. unfold MiniGit.merge. rewrite bind_get, Hinit, Hfind. reflexivity.
  - intros tb ancestors Hfind Hhead Htarget Hwalk.
    apply (Hno_lca tb Hfind); [rewrite Hhead; congruence|].
    unfold MiniGit.find_lowest_common_ancestor. rewrite Hhead, Hwalk.
    unfold MiniGit.get_commit_ancestors in *.
    destruct fuel as [|fuel]; [discriminate|].
    simpl. now rewrite first_in_empty_set.
Qed.

Lemma merge_refusals_witness :
  let st := MiniGit.set_disk Examples.two_branches
              (<["./.minigit/HEAD" := ""]> (MiniGit.disk Examples.two_branches)) in
  (MiniGit.is_initialized st = true /\
   StdMap.find "feat" (MiniGit.branches st) = Some (Branch.mk "feat" "T") /\
   MiniGit.load_head st = "" /\
   MiniGit.get_commit_ancestors 3 st "T" = Ok ["T"; "B"]) /\
  MiniGit.merge (H := Examples.length_digest) 3 "feat" 5 st
  = MiniGit.mkResult (Ok false) st [MiniGit.print_error "No common ancestor found"].
Proof.
  intros st.
  assert (H : MiniGit.is_initialized st = true /\
              StdMap.find "feat" (MiniGit.branches st) = Some (Branch.mk "feat" "T") /\
              MiniGit.load_head st = "" /\
              MiniGit.get_commit_ancestors 3 st "T" = Ok ["T"; "B"])
    by (repeat split; vm_compute; reflexivity).
  split; [exact H|].
  destruct H as (Hinit & Hfind & Hhead & Hwalk).
  destruct (merge_refusals (H := Examples.length_digest) 3 st "feat" 5 Hinit)
    as (_ & _ & Hunborn).
  eapply Hunborn; [exact Hfind|exact Hhead|discriminate|exact Hwalk].
Defined.

Lemma fold_add_file_fields {V : Type} (g : V -> string) (l : list (string * V)) :
  forall c : Commit.t,
    let c' := fold_left (fun c '(f, v) => Commit.add_file c f (g v)) l c in
    Commit.parent_hashes c' = Commit.parent_hashes c /\
    Commit.message c' = Commit.message c /\
    Commit.author c' = Commit.author c /\
    Commit.timestamp c' = Commit.timestamp c.
Proof.
  induction l as [|[f v] l IH]; intros c; simpl; [repeat split|].
  destruct (IH (Commit.add_file c f (g v))) as (H1 & H2 & H3 & H4).
  simpl in *. now rewrite H1, H2, H3, H4.
Qed.

Lemma make_merge_commit_fields (message current target : string) (now : Z)
      (merged_files : StdMap.t string) :
  current <> target ->
  let c := MiniGit.make_merge_commit message current target now merged_files in
  Commit.parent_hashes c = [current; target] /\
  Commit.message c = message /\ Commit.author c = "user" /\ Commit.timestamp c = now.
Proof.
  intros Hne c. subst c. unfold MiniGit.make_merge_commit.
  destruct (fold_add_file_fields (fun h : string => h) merged_files
              (Commit.add_parent
                 (Commit.add_parent (Commit.new message "user" now) current) target))
    as (H1 & H2 & H3 & H4).
  simpl in H1, H2, H3, H4. rewrite H1, H2, H3, H4.
  unfold Commit.add_parent, Commit.has_parent. simpl.
  assert (Heq : String.eqb target current = false)
    by (apply eqb_neq_false; congruence).
  rewrite Heq. simpl. repeat split.
Qed.

Section MergeShape.
Context `{utils.Hasher}.

Lemma merge_saves_a_merge_commit (fuel : nat) (st : MiniGit.t) (branch_name : string)
      (now : Z) :
  run_ok
    (on_saved_commit
       (fun c => exists (target_branch : Branch.t) (merged_files : StdMap.t string),
                   StdMap.find branch_name (MiniGit.branches st) = Some target_branch /\
                   MiniGit.load_head st <> Branch.commit_hash target_branch /\
                   c = MiniGit.make_merge_commit
                         ("Merge branch '" ++ branch_name ++ "' into "
                          ++ MiniGit.current_branch st)
                         (MiniGit.load_head st) (Branch.commit_hash target_branch) now
                         merged_files))
    (fun _ => True) (MiniGit.merge fuel branch_name now) st.
Proof.
  unfold MiniGit.merge.
  apply run_bind with (Q1 := fun s => s = st); [now apply run_get|].
  intros s st0 ->.
  destruct (MiniGit.is_initialized st); simpl.
  2:{ apply run_bind with (Q1 := fun _ => True); [now apply run_emit|].
      intros. now apply run_ret. }
  destruct (StdMap.find branch_name (MiniGit.branches st)) as [target_branch|] eqn:Hfind.
  2:{ apply run_bind with (Q1 := fun _ => True); [now apply run_emit|].
      intros. now apply run_ret. }
  destruct (String.eqb (MiniGit.load_head st) (Branch.commit_hash target_branch)) eqn:Heq.
  { apply run_bind with (Q1 := fun _ => True); [now apply run_emit|].
    intros. now apply run_ret. }
  apply String.eqb_neq in Heq.
  apply run_bind with (Q1 := fun _ => True); [now apply run_lift|].
  intros lca st1 _.
  destruct (String.eqb lca "").
  { apply run_bind with (Q1 := fun _ => True); [now apply run_emit|].
    intros. now apply run_ret. }
  apply run_bind with (Q1 := fun _ => True); [now apply run_lift|].
  intros cc st2 _.
  apply run_bind with (Q1 := fun _ => True); [now apply run_lift|].
  intros tc st3 _.
  apply run_bind with (Q1 := fun _ => True).
  { eapply run_weaken; [apply merge_target_changes_run| |auto].
    apply loop_event_not_commit. }
  intros [has_conflicts mf] st4 _.
  apply run_bind with (Q1 := fun _ => True).
  { apply run_save_commit; [|exact I]. simpl. eauto. }
  intros _ st5 _.
  apply run_bind with (Q1 := fun _ => True); [now apply run_save_head|].
  intros _ st6 _.
  apply run_bind with (Q1 := fun _ => True);
    [now apply run_update_current_branch|].
  intros _ st7 _.
  apply run_bind with (Q1 := fun _ => True);
    [apply run_emit; [now destruct has_conflicts|exact I]|].
  intros. now apply run_ret.
Qed.

(** X8: the commit that [merge] creates has exactly two parents, the
    commit of HEAD first and the commit of the merged branch second (they
    differ), the message "Merge branch '<name>' into <current branch>",
    the author "user" and the time of the merge. *)
Theorem merge_commit_has_both_parents
        (fuel : nat) (st : MiniGit.t) (branch_name : string) (now : Z) (c : Commit.t) :
  In (MiniGit.save_commit_call c)
     (MiniGit.events (MiniGit.merge fuel branch_name now st)) ->
  exists target_branch : Branch.t,
    StdMap.find branch_name (MiniGit.branches st) = Some target_branch /\
    MiniGit.load_head st <> Branch.commit_hash target_branch /\
    Commit.parent_hashes c = [MiniGit.load_head st; Branch.commit_hash target_branch] /\
    Commit.is_merge_commit c = true /\
    Commit.message c
    = "Merge branch '" ++ branch_name ++ "' into " ++ MiniGit.current_branch st /\
    Commit.author c = "user" /\
    Commit.timestamp c = now.
Proof.
  intros Hin. destruct (merge_saves_a_merge_commit fuel st branch_name now) as (Hev & _).
  rewrite List.Forall_forall in Hev. specialize (Hev _ Hin). simpl in Hev.
  destruct Hev as (tb & mf & Hfind & Hne & ->).
  destruct (make_merge_commit_fields
              ("Merge branch '" ++ branch_name ++ "' into " ++ MiniGit.current_branch st)
              _ _ now mf Hne) as (Hp & Hm & Ha & Ht).
  exists tb. unfold Commit.is_merge_commit. rewrite Hp, Hm, Ha, Ht.
  repeat split; assumption.
Qed.

End MergeShape.

Lemma merge_commit_has_both_parents_witness :
  In (MiniGit.save_commit_call Examples.two_branches_merge_commit)
     (MiniGit.events (MiniGit.merge (H := Examples.length_digest) 3 "feat" 5
                                    Examples.two_branches)) /\
  Commit.parent_hashes Examples.two_branches_merge_commit = ["C"; "T"].
Proof.
  assert (Hin : In (MiniGit.save_commit_call Examples.two_branches_merge_commit)
                   (MiniGit.events (MiniGit.merge (H := Examples.length_digest) 3 "feat" 5
                                                  Examples.two_branches)))
    by (vm_compute; left; reflexivity).
  split; [exact Hin|].
  destruct (merge_commit_has_both_parents (H := Examples.length_digest) _ _ _ _ _ Hin)
    as (tb & _ & _ & Hparents & _).
  reflexivity.
Defined.

Section MergeReport.
Context `{utils.Hasher}.

(** The flag returned by the first loop of [merge] is set exactly when
    some entry was changed to another blob by the current side. *)
Lemma merge_target_changes_flag (lca : string) (cc : StdMap.t string)
      (l : list (string * string)) :
  forall (hc : bool) (mf : StdMap.t string) (st : MiniGit.t),
    run_ok is_loop_event (fun r => fst r = hc || has_conflict cc l)
           (MiniGit.merge_target_changes l lca cc hc mf) st.
Proof.
  induction l as [|[f h] l IH]; intros hc mf st; simpl.
  - apply run_ret. simpl. now rewrite orb_false_r.
  - destruct (StdMap.find f cc) as [ours|] eqn:Hf.
    + destruct (String.eqb ours h) eqn:E.
      * eapply run_weaken; [apply IH|auto|]. intros r Hr. exact Hr.
      * apply run_bind with (Q1 := fun _ => True);
          [now apply run_emit|intros _ st1 _].
        apply run_bind with (Q1 := fun _ => True);
          [now apply run_get|intros s st2 _].
        apply run_bind with (Q1 := fun _ => True);
          [now apply run_lift|intros lca_commit st3 _].
        apply run_bind with (Q1 := fun _ => True);
          [now apply run_lift|intros base_hash st4 _].
        apply run_bind with (Q1 := fun _ => True);
          [now apply run_lift|intros base_blob st5 _].
        apply run_bind with (Q1 := fun _ => True);
          [now apply run_lift|intros ours_blob st6 _].
        apply run_bind with (Q1 := fun _ => True);
          [now apply run_lift|intros theirs_blob st7 _].
        apply run_bind with (Q1 := fun _ => True).
        -- destruct base_blob as [base_blob|], ours_blob as [ours_blob|],
             theirs_blob as [theirs_blob|]; try now apply run_ret.
           apply run_bind with (Q1 := fun _ => True);
             [now apply run_save_blob|intros _ st8 _].
           now apply run_ret.
        -- intros mf1 st8 _.
           eapply run_weaken; [apply IH|auto|].
           intros r Hr. rewrite Hr. simpl. now rewrite orb_true_r.
    + eapply run_weaken; [apply IH|auto|]. intros r Hr. exact Hr.
Qed.

(** X9: when [merge] gets as far as comparing the two sides and returns,
    it returns true, and its last message is "Merge completed with
    conflicts" exactly when some file was changed to different blobs by
    the current commit and by the target since the base; otherwise it is
    "Merge completed successfully".  Before that message it hands one
    commit to [save_commit]. *)
Theorem merge_reports_conflicts
        (fuel : nat) (st : MiniGit.t) (branch_name : string) (now : Z)
        (target_branch : Branch.t) (lca : string) (cc tc : StdMap.t string) (b : bool) :
  MiniGit.is_initialized st = true ->
  StdMap.find branch_name (MiniGit.branches st) = Some target_branch ->
  MiniGit.load_head st <> Branch.commit_hash target_branch ->
  MiniGit.find_lowest_common_ancestor fuel st (MiniGit.load_head st)
    (Branch.commit_hash target_branch) = Ok lca ->
  lca <> "" ->
  MiniGit.get_file_changes st lca (MiniGit.load_head st) = Ok cc ->
  MiniGit.get_file_changes st lca (Branch.commit_hash target_branch) = Ok tc ->
  MiniGit.value (MiniGit.merge fuel branch_name now st) = Ok b ->
  b = true /\
  exists (before between : list MiniGit.Event) (c : Commit.t),
    MiniGit.events (MiniGit.merge fuel branch_name now st)
    = (before ++ MiniGit.save_commit_call c :: between
       ++ [if has_conflict cc tc
           then MiniGit.print_warning "Merge completed with conflicts"
           else MiniGit.print_success "Merge completed successfully"])%list.
Proof.
  intros Hinit Hfind Hne Hlca Hbase Hcc Htc.
  set (r := MiniGit.merge fuel branch_name now st).
  assert (Hr : r = MiniGit.merge fuel branch_name now st) by reflexivity.
  clearbody r. unfold MiniGit.merge in Hr.
  rewrite bind_get, Hinit, Hfind in Hr. cbn [negb] in Hr. cbv zeta in Hr.
  rewrite (eqb_neq_false _ _ Hne), Hlca, bind_lift in Hr.
  rewrite (eqb_neq_false _ _ Hbase), Hcc, bind_lift, Htc, bind_lift in Hr.
  destruct (merge_target_changes_flag lca cc tc false StdMap.empty st) as (_ & Hflag).
  destruct (MiniGit.value (MiniGit.merge_target_changes tc lca cc false StdMap.empty st))
    as [[hc mf]| |] eqn:Hloop.
  2,3: intros Hb; exfalso; rewrite Hr in Hb; revert Hb;
       apply bind_not_ok; intros a; rewrite Hloop; discriminate.
  specialize (Hflag _ eq_refl). cbn [fst orb] in Hflag. subst hc.
  rewrite (bind_ok _ _ _ _ Hloop) in Hr. cbv beta iota in Hr.
  rewrite bind_save_commit, bind_save_head in Hr.
  match type of Hr with
  | context [MiniGit.update_current_branch ?h] =>
      match type of Hr with
      | context [(_ ← MiniGit.update_current_branch h; _) ?st2] =>
          destruct (update_current_branch_run h st2) as (Hu & _)
      end
  end.
  rewrite (bind_ok _ _ _ _ Hu), bind_emit in Hr.
  rewrite Hr.
  cbn [preceded_by MiniGit.value MiniGit.final MiniGit.events mret MiniGit.M_ret
       MiniGit.ret].
  intros [= <-]. split; [reflexivity|].
  eexists _, (_ :: _), _. cbn [app]. reflexivity.
Qed.

End MergeReport.

Lemma merge_reports_conflicts_witness :
  let st := Examples.two_branches in
  (MiniGit.is_initialized st = true /\
   StdMap.find "feat" (MiniGit.branches st) = Some (Branch.mk "feat" "T") /\
   MiniGit.load_head st <> "T" /\
   MiniGit.find_lowest_common_ancestor 3 st (MiniGit.load_head st) "T" = Ok "B" /\
   "B" <> "" /\
   MiniGit.get_file_changes st "B" (MiniGit.load_head st) = Ok [("a.txt", "h3")] /\
   MiniGit.get_file_changes st "B" "T" = Ok [("c.txt", "h4")] /\
   MiniGit.value (MiniGit.merge (H := Examples.length_digest) 3 "feat" 5 st) = Ok true) /\
  exists (before between : list MiniGit.Event) (c : Commit.t),
    MiniGit.events (MiniGit.merge (H := Examples.length_digest) 3 "feat" 5 st)
    = (before ++ MiniGit.save_commit_call c :: between
       ++ [MiniGit.print_success "Merge completed successfully"])%list.
Proof.
  intros st.
  assert (H : MiniGit.is_initialized st = true /\
              StdMap.find "feat" (MiniGit.branches st) = Some (Branch.mk "feat" "T") /\
              MiniGit.load_head st <> "T" /\
              MiniGit.find_lowest_common_ancestor 3 st (MiniGit.load_head st) "T"
              = Ok "B" /\
              "B" <> "" /\
              MiniGit.get_file_changes st "B" (MiniGit.load_head st)
              = Ok [("a.txt", "h3")] /\
              MiniGit.get_file_changes st "B" "T" = Ok [("c.txt", "h4")] /\
              MiniGit.value (MiniGit.merge (H := Examples.length_digest) 3 "feat" 5 st)
              = Ok true)
    by (repeat split; try discriminate; vm_compute; try reflexivity; discriminate).
  split; [exact H|].
  destruct H as (H1 & H2 & H3 & H4 & H5 & H6 & H7 & H8).
  exact (proj2 (merge_reports_conflicts (H := Examples.length_digest)
                  3 st "feat" 5 (Branch.mk "feat" "T") "B" _ _ true
                  H1 H2 H3 H4 H5 H6 H7 H8)).
Defined.

(** * Further properties of the helpers of [utils.cpp] *)

(** ** [split] and [join] *)

Lemma getline_none (ss : string) (d : ascii) : utils.getline ss d = None -> ss = "".
Proof.
  destruct ss as [|c ss]; [reflexivity|]. simpl.
  destruct (Ascii.eqb c d); [discriminate|].
  destruct (utils.getline ss d) as [[? ?]|]; discriminate.
Qed.

(** What [getline] reads: a token free of the delimiter, either followed
    by the delimiter or running to the end of the stream. *)
Lemma getline_spec (ss : string) (d : ascii) :
  forall token rest,
    utils.getline ss d = Some (token, rest) ->
    find_from0 token d = None /\
    (ss = token ++ String d rest \/ (ss = token /\ rest = "" /\ token <> "")).
Proof.
  induction ss as [|c ss IH]; intros token rest; simpl; [discriminate|].
  destruct (Ascii.eqb c d) eqn:E.
  - intros [= <- <-]. apply Ascii.eqb_eq in E as ->.
    split; [reflexivity|]. left. now rewrite append_nil_l.
  - destruct (utils.getline ss d) as [[t r]|] eqn:G.
    + intros [= <- <-]. destruct (IH t r eq_refl) as (Hn & Hs). split.
      * simpl. now rewrite E, Hn.
      * destruct Hs as [->|(-> & -> & Hne)]; [left|right].
        -- now rewrite append_cons.
        -- repeat split; discriminate.
    + intros [= <- <-]. apply getline_none in G as ->.
      split; [simpl; now rewrite E|]. right. repeat split; discriminate.
Qed.

Lemma split_cons (ss token rest : string) (d : ascii) :
  utils.getline ss d = Some (token, rest) ->
  utils.split ss d = token :: utils.split rest d.
Proof.
  intros Hg. unfold utils.split. rewrite (split_loop_step _ _ _ _ _ Hg).
  f_equal. apply split_loop_fuel; [|lia].
  apply getline_shorter in Hg. lia.
Qed.

Lemma split_nil (ss : string) (d : ascii) : utils.split ss d = [] -> ss = "".
Proof.
  destruct (utils.getline ss d) as [[token rest]|] eqn:Hg.
  - rewrite (split_cons _ _ _ _ Hg). discriminate.
  - intros _. now apply getline_none in Hg.
Qed.

Lemma fold_join (delimiter : string) (rest : list string) :
  forall a b : string,
    fold_left (fun result v => result ++ (delimiter ++ v)) rest (a ++ b)
    = a ++ fold_left (fun result v => result ++ (delimiter ++ v)) rest b.
Proof.
  induction rest as [|v rest IH]; intros a b; simpl; [reflexivity|].
  now rewrite append_assoc, IH.
Qed.

Lemma join_cons (first second : string) (rest : list string) (delimiter : string) :
  utils.join (first :: second :: rest) delimiter
  = first ++ delimiter ++ utils.join (second :: rest) delimiter.
Proof.
  unfold utils.join. simpl. rewrite fold_join.
  f_equal. rewrite <- (append_nil_l second) at 1.
  rewrite <- append_assoc, fold_join. now rewrite append_nil_r.
Qed.

(** Joining the tokens of [split] gives the string back, up to one
    delimiter at its very end. *)
Lemma join_split (str : string) (delimiter : ascii) :
  Forall (fun token => find_from0 token delimiter = None) (utils.split str delimiter) /\
  (str = utils.join (utils.split str delimiter) (String delimiter "") \/
   str = utils.join (utils.split str delimiter) (String delimiter "")
         ++ String delimiter "").
Proof.
  remember (String.length str) as n eqn:Hn.
  revert str Hn. induction n as [n IH] using lt_wf_ind. intros str Hn.
  destruct (utils.getline str delimiter) as [[token rest]|] eqn:Hg.
  2:{ apply getline_none in Hg as ->. split; [constructor|]. now left. }
  rewrite (split_cons _ _ _ _ Hg).
  pose proof (getline_shorter _ _ _ _ Hg) as Hlen.
  destruct (getline_spec _ _ _ _ Hg) as (Hfree & Hshape).
  destruct (IH (String.length rest) ltac:(lia) rest eq_refl) as (Hall & Hjoin).
  split; [now constructor|].
  destruct Hshape as [->|(-> & -> & _)]; [|now left].
  destruct (utils.split rest delimiter) as [|second others] eqn:Hs.
  - apply split_nil in Hs as ->. right. reflexivity.
  - rewrite join_cons.
    destruct Hjoin as [Hrest|Hrest]; [left|right]; rewrite Hrest at 1.
    + reflexivity.
    + now rewrite !append_assoc.
Qed.

(** X10: the tokens of [split] never contain the delimiter, and joining
    them with the delimiter gives the string back, up to one delimiter at
    its very end, which [split] drops. *)
Theorem join_of_split (str : string) (delimiter : ascii) :
  Forall (fun token => find_from0 token delimiter = None) (utils.split str delimiter) /\
  let joined := utils.join (utils.split str delimiter) (String delimiter "") in
  str = joined \/ str = joined ++ String delimiter "".
Proof. exact (join_split str delimiter). Qed.

Lemma getline_token (token rest : string) (d : ascii) :
  find_from0 token d = None ->
  utils.getline (token ++ String d rest) d = Some (token, rest).
Proof.
  induction token as [|c token IH]; simpl.
  - intros _. rewrite ?append_nil_l. simpl. now rewrite Ascii.eqb_refl.
  - destruct (Ascii.eqb c d) eqn:E; [discriminate|].
    destruct (find_from0 token d) eqn:F; [discriminate|]. intros _.
    now rewrite IH.
Qed.

Lemma getline_last (token : string) (d : ascii) :
  find_from0 token d = None -> token <> "" ->
  utils.getline token d = Some (token, "").
Proof.
  induction token as [|c token IH]; [easy|]. simpl.
  destruct (Ascii.eqb c d) eqn:E; [discriminate|].
  destruct (find_from0 token d) eqn:F; [discriminate|]. intros _ _.
  destruct token as [|c' token]; [reflexivity|].
  now rewrite IH.
Qed.

(** X11: [split] undoes [join] when no token contains the delimiter and
    the last token is not empty. *)
Theorem split_of_join (vec : list string) (delimiter : ascii) :
  Forall (fun token => find_from0 token delimiter = None) vec ->
  List.last vec "x" <> "" ->
  utils.split (utils.join vec (String delimiter "")) delimiter = vec.
Proof.
  induction vec as [|first rest IH]; intros Hfree Hlast; [reflexivity|].
  apply Forall_cons_iff in Hfree as (Hfirst & Hrest).
  destruct rest as [|second rest].
  - simpl in Hlast. unfold utils.join. simpl.
    rewrite (split_cons _ _ _ _ (getline_last _ _ Hfirst Hlast)). reflexivity.
  - rewrite join_cons, append_cons, append_nil_l.
    rewrite (split_cons _ _ _ _ (getline_token _ _ _ Hfirst)).
    f_equal. apply IH; [exact Hrest|exact Hlast].
Qed.

Lemma split_of_join_witness :
  (Forall (fun token => find_from0 token ","%char = None) ["a"; ""; "b"] /\
   List.last ["a"; ""; "b"] "x" <> "") /\
  utils.split (utils.join ["a"; ""; "b"] ",") ","%char = ["a"; ""; "b"].
Proof.
  assert (H : Forall (fun token => find_from0 token ","%char = None) ["a"; ""; "b"] /\
              List.last ["a"; ""; "b"] "x" <> "")
    by (split; [repeat constructor|discriminate]).
  split; [exact H|]. apply split_of_join; apply H.
Defined.

(** ** [compute_diff] and [apply_patch] *)

Lemma firstn_S_nth {A : Type} (d : A) (l : list A) :
  forall m : nat,
    firstn (S m) l = (firstn m l ++ if (m <? List.length l)%nat then [nth m l d] else [])%list.
Proof.
  induction l as [|a l IH]; intros m.
  - now destruct m.
  - destruct m as [|m]; [reflexivity|].
    change (firstn (S (S m)) (a :: l)) with (a :: firstn (S m) l).
    rewrite IH. reflexivity.
Qed.

(** What the lines of the diff at index [i] add to the result of
    [apply_patch]: line [i] of the new content, when it has one. *)
Lemma patch_diff_at (old_lines new_lines result : list string) (i : nat) :
  (i < Nat.max (List.length old_lines) (List.length new_lines))%nat ->
  fold_left utils.patch_step (utils.diff_at old_lines new_lines i) result
  = (result ++ if (i <? List.length new_lines)%nat then [nth i new_lines ""] else [])%list.
Proof.
  intros Hi. unfold utils.diff_at.
  destruct (Nat.leb_spec (List.length old_lines) i) as [Hold|Hold].
  - destruct (Nat.ltb_spec i (List.length new_lines)) as [Hnew|Hnew]; [|lia].
    reflexivity.
  - destruct (Nat.leb_spec (List.length new_lines) i) as [Hnew|Hnew].
    + destruct (Nat.ltb_spec i (List.length new_lines)) as [Hnew'|Hnew']; [lia|].
      simpl. now rewrite app_nil_r.
    + destruct (Nat.ltb_spec i (List.length new_lines)) as [Hnew'|Hnew']; [|lia].
      destruct (String.eqb_spec (nth i old_lines "") (nth i new_lines "")) as [Heq|Hne].
      * simpl. now rewrite Heq.
      * reflexivity.
Qed.

Lemma patch_of_diff (old_lines new_lines : list string) (m : nat) :
  (m <= Nat.max (List.length old_lines) (List.length new_lines))%nat ->
  fold_left utils.patch_step
            (flat_map (utils.diff_at old_lines new_lines) (seq 0 m)) []
  = firstn m new_lines.
Proof.
  induction m as [|m IH]; intros Hm; [reflexivity|].
  rewrite seq_S, flat_map_app, fold_left_app, IH by lia.
  simpl flat_map. rewrite app_nil_r, patch_diff_at by lia.
  now rewrite (firstn_S_nth "").
Qed.

(** X12: applying the diff from [old_content] to [new_content] gives the
    lines of [new_content] joined by newlines, whatever [content] is
    passed to [apply_patch]: that is [new_content], without its final
    newline when it has one. *)
Theorem apply_patch_of_compute_diff (content old_content new_content : string) :
  let patched := utils.apply_patch content (utils.compute_diff old_content new_content) in
  patched = utils.join (utils.split new_content nl) endl /\
  (new_content = patched \/ new_content = patched ++ endl).
Proof.
  assert (Heq : utils.apply_patch content (utils.compute_diff old_content new_content)
                = utils.join (utils.split new_content nl) endl).
  { unfold utils.apply_patch, utils.compute_diff. cbv zeta.
    rewrite patch_of_diff by lia.
    rewrite firstn_all2 by lia. reflexivity. }
  cbv zeta. rewrite Heq. split; [reflexivity|].
  exact (proj2 (join_split new_content nl)).
Qed.

Lemma diff_of_equal_lines (lines : list string) (m : nat) :
  (m <= List.length lines)%nat ->
  flat_map (utils.diff_at lines lines) (seq 0 m)
  = List.map (String.append "  ") (firstn m lines).
Proof.
  induction m as [|m IH]; intros Hm; [reflexivity|].
  rewrite seq_S, flat_map_app, IH by lia.
  rewrite (firstn_S_nth ""), map_app. f_equal.
  simpl flat_map. rewrite app_nil_r. unfold utils.diff_at.
  destruct (Nat.leb_spec (List.length lines) m) as [Hle|Hlt]; [lia|].
  destruct (Nat.ltb_spec m (List.length lines)) as [_|Hge]; [|lia].
  now rewrite String.eqb_refl.
Qed.

(** X13: the diff of a content with itself has one line per line of the
    content, each marked as unchanged by two spaces, and no other line. *)
Theorem compute_diff_of_equal_contents (content : string) :
  utils.compute_diff content content
  = List.map (String.append "  ") (utils.split content nl).
Proof.
  unfold utils.compute_diff. cbv zeta. rewrite Nat.max_id.
  rewrite diff_of_equal_lines by lia. now rewrite firstn_all.
Qed.

(** * Further properties of the history commands *)

(** ** Decoding returns or throws *)

Lemma bind_returns {A B} (m : outcome A) (k : A -> outcome B) :
  m <> OutOfFuel -> (forall a, k a <> OutOfFuel) -> (x ← m; k x) <> OutOfFuel.
Proof. intros Hm Hk. destruct m; [apply Hk|discriminate|contradiction]. Qed.

Lemma substr_returns (s : string) (n : nat) : substr s n <> OutOfFuel.
Proof. unfold substr. destruct (n <=? String.length s)%nat; discriminate. Qed.

Lemma stoul_returns (s : string) : stoul s <> OutOfFuel.
Proof.
  unfold stoul. destruct (strip_sign (skip_spaces s)) as [neg body].
  destruct (digits_value body 0 0) as [v [|read]]; [discriminate|].
  destruct (ULONG_MAX <? v)%N; discriminate.
Qed.

Lemma stoll_returns (s : string) : stoll s <> OutOfFuel.
Proof.
  unfold stoll. destruct (strip_sign (skip_spaces s)) as [neg body].
  destruct (digits_value body 0 0) as [v [|read]]; [discriminate|].
  match goal with |- (if ?b then _ else _) <> _ => destruct b end; discriminate.
Qed.

Lemma parse_parents_returns (rest : list string) :
  forall (count : N) (c : Commit.t), Commit.parse_parents rest count c <> OutOfFuel.
Proof.
  induction rest as [|line rest IH]; intros count c; simpl; [discriminate|].
  destruct (count =? 0)%N; [discriminate|].
  apply bind_returns; [|intros c'; apply IH].
  destruct (starts_with line "parent "); [|discriminate].
  apply bind_returns; [apply substr_returns|discriminate].
Qed.

Lemma parse_files_returns (rest : list string) :
  forall (count : N) (c : Commit.t), Commit.parse_files rest count c <> OutOfFuel.
Proof.
  induction rest as [|line rest IH]; intros count c; simpl; [discriminate|].
  destruct (count =? 0)%N; [discriminate|].
  apply bind_returns; [|intros c'; apply IH].
  destruct (starts_with line "file "); [|discriminate].
  apply bind_returns; [apply substr_returns|intros file_info].
  destruct (find file_info " " 0) as [space_pos|]; [|discriminate].
  apply bind_returns; [apply substr_returns|discriminate].
Qed.

Lemma from_string_returns (data : string) : Commit.from_string data <> OutOfFuel.
Proof.
  unfold Commit.from_string. cbv zeta.
  repeat match goal with
         | |- Ok _ <> OutOfFuel => discriminate
         | |- (if ?b then _ else _) <> OutOfFuel => destruct b
         | |- mbind _ (substr _ _) <> OutOfFuel =>
             apply bind_returns; [apply substr_returns|intros ?]
         | |- mbind _ (stoul _) <> OutOfFuel =>
             apply bind_returns; [apply stoul_returns|intros ?]
         | |- mbind _ (utils.string_to_timestamp _) <> OutOfFuel =>
             apply bind_returns; [apply stoll_returns|intros ?]
         | |- mbind _ (Commit.parse_parents _ _ _) <> OutOfFuel =>
             apply bind_returns; [apply parse_parents_returns|intros [? [|? ?]]]
         | |- mbind _ (Commit.parse_files _ _ _) <> OutOfFuel =>
             apply bind_returns; [apply parse_files_returns|intros ?]
         end.
Qed.

Lemma load_commit_returns (st : MiniGit.t) (hash : string) :
  MiniGit.load_commit st hash <> OutOfFuel.
Proof.
  unfold MiniGit.load_commit. cbv zeta.
  destruct (String.eqb _ ""); [discriminate|apply from_string_returns].
Qed.

(** ** [log] *)

Lemma log_entry_length (c : Commit.t) : List.length (MiniGit.log_entry c) = 5%nat.
Proof. reflexivity. Qed.

(** From a counter value [count], the loop of [log] runs at most
    [101 - count] rounds. *)
Lemma log_loop_bounded (fuel : nat) :
  forall (st : MiniGit.t) (commit_hash : string) (count : Z),
    (0 <= count <= 100)%Z ->
    (Z.of_nat fuel >= 101 - count)%Z ->
    snd (MiniGit.log_loop fuel st commit_hash count) <> OutOfFuel /\
    (Z.of_nat (List.length (fst (MiniGit.log_loop fuel st commit_hash count)))
     <= 5 * (101 - count))%Z /\
    forall fuel' : nat,
      (Z.of_nat fuel' >= 101 - count)%Z ->
      MiniGit.log_loop fuel' st commit_hash count
      = MiniGit.log_loop fuel st commit_hash count.
Proof.
  induction fuel as [|fuel IH]; intros st commit_hash count Hcount Hfuel; [lia|].
  assert (Hstep : forall fuel0 : nat,
             (Z.of_nat (S fuel0) >= 101 - count)%Z ->
             MiniGit.log_loop (S fuel0) st commit_hash count
             = if String.eqb commit_hash "" then ([], Ok tt) else
               match MiniGit.load_commit st commit_hash with
               | Throw e => ([], Throw e)
               | OutOfFuel => ([], OutOfFuel)
               | Ok None => ([], Ok tt)
               | Ok (Some commit) =>
                   if Commit.is_initial_commit commit
                   then (MiniGit.log_entry commit, Ok tt) else
                   if (100 <? count + 1)%Z then (MiniGit.log_entry commit, Ok tt) else
                   let (more, ending) :=
                     MiniGit.log_loop fuel0 st
                       match Commit.parent_hashes commit with
                       | [] => ""
                       | parent :: _ => parent
                       end (count + 1)%Z in
                   ((MiniGit.log_entry commit ++ more)%list, ending)
               end) by reflexivity.
  assert (Hshape :
            forall fuel0 : nat,
              (Z.of_nat (S fuel0) >= 101 - count)%Z ->
              MiniGit.log_loop (S fuel0) st commit_hash count
              = MiniGit.log_loop (S fuel) st commit_hash count /\
              snd (MiniGit.log_loop (S fuel) st commit_hash count) <> OutOfFuel /\
              (Z.of_nat (List.length (fst (MiniGit.log_loop (S fuel) st commit_hash count)))
               <= 5 * (101 - count))%Z).
  { intros fuel0 Hfuel0. rewrite (Hstep fuel0 Hfuel0), (Hstep fuel Hfuel).
    destruct (String.eqb commit_hash ""); [simpl; repeat split; [discriminate|lia]|].
    pose proof (load_commit_returns st commit_hash) as Hload.
    destruct (MiniGit.load_commit st commit_hash) as [[commit|]|e|];
      [|simpl; repeat split; [discriminate|lia]..|contradiction].
    destruct (Commit.is_initial_commit commit);
      [simpl; repeat split; [discriminate|lia]|].
    destruct (Z.ltb_spec 100 (count + 1)) as [Hlast|Hmore];
      [simpl; repeat split; [discriminate|lia]|].
    set (parent := match Commit.parent_hashes commit with
                   | [] => ""
                   | parent :: _ => parent
                   end).
    destruct (IH st parent (count + 1)%Z ltac:(lia) ltac:(lia)) as (Hend & Hlen & Hsame).
    rewrite (Hsame fuel0 ltac:(lia)).
    destruct (MiniGit.log_loop fuel st parent (count + 1)) as [more ending].
    cbn [fst snd] in *. repeat split; [exact Hend|].
    rewrite length_app, log_entry_length. lia. }
  destruct (Hshape fuel Hfuel) as (_ & Hend & Hlen).
  repeat split; [exact Hend|exact Hlen|].
  intros [|fuel0] Hfuel0; [lia|]. apply (Hshape fuel0 Hfuel0).
Qed.

(** X14: with fuel for 101 rounds [log] always comes to an end, by
    returning or by an exception of the decoder, also on a history that
    loops; it writes at most 101 entries of five lines, and more fuel
    changes nothing. *)
Theorem log_stops_after_101_commits (fuel : nat) (st : MiniGit.t) :
  101 <= fuel ->
  snd (MiniGit.log fuel st) <> OutOfFuel /\
  List.length (snd (fst (MiniGit.log fuel st))) <= 505 /\
  forall fuel' : nat, 101 <= fuel' -> MiniGit.log fuel' st = MiniGit.log fuel st.
Proof.
  intros Hfuel. unfold MiniGit.log.
  destruct (negb (MiniGit.is_initialized st)); [simpl; repeat split; [discriminate|lia]|].
  cbv zeta.
  destruct (String.eqb (MiniGit.load_head st) "");
    [simpl; repeat split; [discriminate|lia]|].
  destruct (log_loop_bounded fuel st (MiniGit.load_head st) 0 ltac:(lia) ltac:(lia))
    as (Hend & Hlen & Hsame).
  split; [|split].
  - destruct (MiniGit.log_loop fuel st (MiniGit.load_head st) 0) as [written ending].
    cbn [fst snd] in *. destruct ending as [[]| |]; [discriminate..|contradiction].
  - destruct (MiniGit.log_loop fuel st (MiniGit.load_head st) 0) as [written ending].
    cbn [fst snd] in *. lia.
  - intros fuel' Hfuel'. now rewrite (Hsame fuel' ltac:(lia)).
Qed.

Lemma log_stops_after_101_commits_witness :
  101 <= 101 /\
  List.length (snd (fst (MiniGit.log 101 Examples.self_parent))) = 505 /\
  snd (MiniGit.log 101 Examples.self_parent) <> OutOfFuel.
Proof.
  split; [lia|]. split; [vm_compute; reflexivity|].
  apply (log_stops_after_101_commits 101 Examples.self_parent). lia.
Defined.

(** ** [diff] *)

Lemma In_keys_find {V : Type} (k : string) (m : StdMap.t V) :
  In k (StdMap.keys m) -> exists v, StdMap.find k m = Some v.
Proof.
  induction m as [|[k' v'] m IH]; simpl; [easy|].
  intros [<-|Hin].
  - rewrite String.eqb_refl. eauto.
  - destruct (String.eqb k k'); [eauto|exact (IH Hin)].
Qed.

Lemma find_fold_insert_keys {V : Type} (name : string) (l : StdMap.t V) :
  forall init : StdMap.t unit,
    StdMap.find name
      (fold_left (fun names '(filename, _) => StdMap.insert filename tt names) l init)
    <> None ->
    In name (StdMap.keys l) \/ StdMap.find name init <> None.
Proof.
  induction l as [|[k v] l IH]; intros init; simpl; [now right|].
  intros Hfind. destruct (IH _ Hfind) as [Hin|Hinit]; [left; now right|].
  rewrite find_insert in Hinit.
  destruct (String.eqb_spec name k) as [->|Hne]; [left; now left|now right].
Qed.

Lemma all_files_keys (files1 files2 : StdMap.t string) (name : string) :
  In name (MiniGit.all_files files1 files2) ->
  In name (StdMap.keys files1) \/ In name (StdMap.keys files2).
Proof.
  intros Hin. apply In_keys_find in Hin as (v & Hfind). unfold MiniGit.all_files in Hfind.
  destruct (find_fold_insert_keys name files2 _ ltac:(rewrite Hfind; discriminate))
    as [Hin|Hfirst]; [now right|].
  destruct (find_fold_insert_keys name files1 _ Hfirst) as [Hin|Hempty]; [now left|].
  now contradiction Hempty.
Qed.

Section DiffEdges.
Context `{utils.Hasher}.

Lemma diff_files_silent (st : MiniGit.t) (files1 files2 : StdMap.t string)
      (names : list string) :
  (forall name, In name names -> MiniGit.diff_file st files1 files2 name = Ok []) ->
  MiniGit.diff_files st files1 files2 names = ([], Ok tt).
Proof.
  induction names as [|name names IH]; intros Hall; [reflexivity|].
  simpl. rewrite (Hall name (or_introl eq_refl)).
  rewrite IH; [reflexivity|]. intros name' Hin. apply Hall. now right.
Qed.

(** X15: in a repository, [diff] of two hashes of which one loads no
    commit prints "Invalid commit hash" and returns false; [diff] of two
    commits with the same file table, so of a commit with itself, writes
    nothing and returns true. *)
Theorem diff_edges (st : MiniGit.t) (commit1 commit2 : string)
        (commit1_obj commit2_obj : option Commit.t) :
  MiniGit.is_initialized st = true ->
  MiniGit.load_commit st commit1 = Ok commit1_obj ->
  MiniGit.load_commit st commit2 = Ok commit2_obj ->
  (commit1_obj = None \/ commit2_obj = None ->
   MiniGit.diff st commit1 commit2
   = ([MiniGit.print_error "Invalid commit hash"], [], Ok false)) /\
  (forall c1 c2,
     commit1_obj = Some c1 -> commit2_obj = Some c2 ->
     Commit.file_blobs c1 = Commit.file_blobs c2 ->
     MiniGit.diff st commit1 commit2 = ([], [], Ok true)).
Proof.
  intros Hinit Hload1 Hload2. unfold MiniGit.diff. rewrite Hinit, Hload1, Hload2.
  cbn [negb]. split.
  - intros [->| ->]; [reflexivity|now destruct commit1_obj].
  - intros c1 c2 -> -> Hsame. cbv zeta. rewrite Hsame.
    rewrite diff_files_silent; [reflexivity|].
    intros name Hin. unfold MiniGit.diff_file.
    assert (Hkey : In name (StdMap.keys (Commit.file_blobs c2)))
      by (apply all_files_keys in Hin; tauto).
    apply In_keys_find in Hkey as (h & ->).
    now rewrite String.eqb_refl.
Qed.

End DiffEdges.

Lemma diff_edges_witness :
  (MiniGit.is_initialized Examples.two_branches = true /\
   MiniGit.load_commit Examples.two_branches "C"
   = Ok (Some (Commit.mk "C" "m" "user" 1 ["B"] [("a.txt", "h3"); ("b.txt", "h2")]))) /\
  MiniGit.diff (H := Examples.length_digest) Examples.two_branches "C" "C"
  = ([], [], Ok true).
Proof.
  assert (H : MiniGit.is_initialized Examples.two_branches = true /\
              MiniGit.load_commit Examples.two_branches "C"
              = Ok (Some (Commit.mk "C" "m" "user" 1 ["B"]
                            [("a.txt", "h3"); ("b.txt", "h2")])))
    by (split; vm_compute; reflexivity).
  split; [exact H|]. destruct H as (Hinit & Hload).
  exact (proj2 (diff_edges (H := Examples.length_digest) _ "C" "C" _ _ Hinit Hload Hload)
           _ _ eq_refl eq_refl eq_refl).
Defined.

(** * Further properties of the object files *)

(** ** Decoded commits *)

Lemma bind_Ok_inv {A B} (m : outcome A) (k : A -> outcome B) (b : B) :
  (x ← m; k x) = Ok b -> exists a, m = Ok a /\ k a = Ok b.
Proof. destruct m as [a| |]; [eauto|discriminate..]. Qed.

Lemma add_parent_NoDup (c : Commit.t) (p : string) :
  NoDup (Commit.parent_hashes c) -> NoDup (Commit.parent_hashes (Commit.add_parent c p)).
Proof.
  intros Hnd. unfold Commit.add_parent.
  destruct (Commit.has_parent c p) eqn:Hhas; [exact Hnd|].
  cbn [Commit.parent_hashes]. apply NoDup_app.
  split; [exact Hnd|]. split; [|apply NoDup_singleton].
  intros x Hx Hp. apply list_elem_of_singleton in Hp as ->.
  apply list_elem_of_In in Hx. unfold Commit.has_parent in Hhas.
  assert (Hex : existsb (String.eqb p) (Commit.parent_hashes c) = true)
    by (apply List.existsb_exists; exists p; split; [exact Hx|apply String.eqb_refl]).
  congruence.
Qed.

Lemma parse_parents_NoDup (rest : list string) :
  forall (count : N) (c c' : Commit.t) (rest' : list string),
    Commit.parse_parents rest count c = Ok (c', rest') ->
    NoDup (Commit.parent_hashes c) -> NoDup (Commit.parent_hashes c').
Proof.
  induction rest as [|line rest IH]; intros count c c' rest'; simpl.
  - now intros [= <- <-].
  - destruct (count =? 0)%N; [now intros [= <- <-]|].
    intros Hrun Hnd. apply bind_Ok_inv in Hrun as (c1 & Hstep & Hrun).
    apply (IH _ _ _ _ Hrun).
    destruct (starts_with line "parent "); [|now injection Hstep as <-].
    apply bind_Ok_inv in Hstep as (p & _ & [= <-]). now apply add_parent_NoDup.
Qed.

Lemma parse_files_wf (rest : list string) :
  forall (count : N) (c c' : Commit.t),
    Commit.parse_files rest count c = Ok c' ->
    StdMap.wf (Commit.file_blobs c) = true -> StdMap.wf (Commit.file_blobs c') = true.
Proof.
  induction rest as [|line rest IH]; intros count c c'; simpl.
  - now intros [= <-].
  - destruct (count =? 0)%N; [now intros [= <-]|].
    intros Hrun Hwf. apply bind_Ok_inv in Hrun as (c1 & Hstep & Hrun).
    apply (IH _ _ _ Hrun).
    destruct (starts_with line "file "); [|now injection Hstep as <-].
    apply bind_Ok_inv in Hstep as (info & _ & Hstep).
    destruct (find info " " 0) as [space_pos|]; [|now injection Hstep as <-].
    apply bind_Ok_inv in Hstep as (blob_hash & _ & [= <-]).
    now apply insert_wf.
Qed.

(** Every commit that [from_string] builds names each parent once and
    has a file table with strictly increasing keys. *)
Lemma from_string_invariants (data : string) (c : Commit.t) :
  Commit.from_string data = Ok (Some c) ->
  NoDup (Commit.parent_hashes c) /\ StdMap.wf (Commit.file_blobs c) = true.
Proof.
  unfold Commit.from_string. cbv zeta.
  repeat match goal with
         | |- (if ?b then _ else _) = _ -> _ => destruct b; [discriminate|]
         | |- mbind _ _ = Ok _ -> _ =>
             let H := fresh "H" in
             intros H; apply bind_Ok_inv in H as (? & ? & H); revert H
         end.
  match goal with
  | H : Commit.parse_parents _ _ _ = Ok ?p |- _ => destruct p as [c1 rest]
  end.
  assert (Hnd : NoDup (Commit.parent_hashes c1)).
  { eapply parse_parents_NoDup; [eassumption|constructor]. }
  assert (Hwf : StdMap.wf (Commit.file_blobs c1) = true).
  { match goal with
    | H : Commit.parse_parents _ _ _ = Ok _ |- _ =>
        apply parse_parents_bound in H as (_ & _ & -> & _)
    end. reflexivity. }
  destruct rest as [|line rest]; [now intros [= <-]|].
  destruct (starts_with line "files "); [|now intros [= <-]].
  intros Hrun.
  apply bind_Ok_inv in Hrun as (files_text & _ & Hrun).
  apply bind_Ok_inv in Hrun as (files_count & _ & Hrun).
  apply bind_Ok_inv in Hrun as (c2 & Hfiles & [= <-]).
  split.
  - apply parse_files_bound in Hfiles as (_ & ->). exact Hnd.
  - exact (parse_files_wf _ _ _ _ Hfiles Hwf).
Qed.

Lemma wf_keys_NoDup {V : Type} (m : StdMap.t V) :
  StdMap.wf m = true -> NoDup (StdMap.keys m).
Proof.
  induction m as [|[k v] m IH]; intros Hwf; [constructor|].
  apply wf_cons_iff in Hwf as (Habove & Hwf).
  cbn [StdMap.keys List.map fst]. constructor; [|exact (IH Hwf)].
  intros Hin. apply list_elem_of_In, In_keys_find in Hin as (v' & Hfind).
  rewrite (find_none_above _ _ Habove) in Hfind. discriminate.
Qed.

Lemma loaded_commit_wf (st : MiniGit.t) (hash : string) (c : Commit.t) :
  MiniGit.load_commit st hash = Ok (Some c) ->
  NoDup (Commit.parent_hashes c) /\ StdMap.wf (Commit.file_blobs c) = true.
Proof.
  unfold MiniGit.load_commit. cbv zeta.
  destruct (String.eqb _ ""); [discriminate|]. apply from_string_invariants.
Qed.

(** X16: every commit that [Commit::from_string] builds, whatever the
    text, lists no parent twice and keeps its file table in strictly
    increasing key order, with one entry per file name. *)
Theorem decoded_commits_are_well_formed (data : string) (c : Commit.t) :
  Commit.from_string data = Ok (Some c) ->
  NoDup (Commit.parent_hashes c) /\
  StdMap.wf (Commit.file_blobs c) = true /\
  NoDup (StdMap.keys (Commit.file_blobs c)).
Proof.
  intros Hdecode. destruct (from_string_invariants _ _ Hdecode) as (Hnd & Hwf).
  repeat split; [exact Hnd|exact Hwf|now apply wf_keys_NoDup].
Qed.

Lemma decoded_commits_are_well_formed_witness :
  Commit.from_string
    (Examples.record "T" ["B"; "B"] [("c.txt", "h4"); ("a.txt", "h1")])
  = Ok (Some (Commit.mk "T" "m" "user" 1 ["B"] [("a.txt", "h1"); ("c.txt", "h4")])) /\
  NoDup ["B"].
Proof.
  assert (H : Commit.from_string
                (Examples.record "T" ["B"; "B"] [("c.txt", "h4"); ("a.txt", "h1")])
              = Ok (Some (Commit.mk "T" "m" "user" 1 ["B"]
                            [("a.txt", "h1"); ("c.txt", "h4")])))
    by (vm_compute; reflexivity).
  split; [exact H|]. exact (proj1 (decoded_commits_are_well_formed _ _ H)).
Defined.

(** ** [get_file_changes] *)

Lemma find_changes (from_files : StdMap.t string) (f : string)
      (to_files : StdMap.t string) :
  forall changes : StdMap.t string,
    StdMap.wf to_files = true ->
    StdMap.find f
      (fold_left
         (fun changes '(filename, blob_hash) =>
            match StdMap.find filename from_files with
            | Some h =>
                if String.eqb h blob_hash then changes
                else StdMap.insert filename blob_hash changes
            | None => StdMap.insert filename blob_hash changes
            end)
         to_files changes)
    = match StdMap.find f to_files with
      | Some blob_hash =>
          match StdMap.find f from_files with
          | Some h => if String.eqb h blob_hash then StdMap.find f changes
                      else Some blob_hash
          | None => Some blob_hash
          end
      | None => StdMap.find f changes
      end.
Proof.
  induction to_files as [|[k v] to_files IH]; intros changes Hwf; [reflexivity|].
  apply wf_cons_iff in Hwf as (Habove & Hwf).
  cbn [fold_left StdMap.find]. rewrite (IH _ Hwf).
  destruct (String.eqb_spec f k) as [->|Hne].
  - rewrite (find_none_above _ _ Habove).
    destruct (StdMap.find k from_files) as [h|]; [|apply find_insert_same].
    destruct (String.eqb h v); [reflexivity|apply find_insert_same].
  - assert (Hstep : forall changes', StdMap.find f (StdMap.insert k v changes')
                                     = StdMap.find f changes')
      by (intros; now apply find_insert_other).
    destruct (StdMap.find f to_files) as [blob_hash|].
    + destruct (StdMap.find f from_files) as [h|]; [|reflexivity].
      destruct (String.eqb h blob_hash); [|reflexivity].
      destruct (StdMap.find k from_files) as [h'|]; [|apply Hstep].
      destruct (String.eqb h' v); [reflexivity|apply Hstep].
    + destruct (StdMap.find k from_files) as [h'|]; [|apply Hstep].
      destruct (String.eqb h' v); [reflexivity|apply Hstep].
Qed.

(** X17: for two commits that load, [get_file_changes] returns exactly
    the entries of the newer file table whose blob differs from, or is
    absent in, the older one; a file that only the older commit has is
    not reported.  When one of the commits does not load, the result is
    empty. *)
Theorem file_changes_spec (st : MiniGit.t) (from_hash to_hash : string)
        (from_commit to_commit : option Commit.t) :
  MiniGit.load_commit st from_hash = Ok from_commit ->
  MiniGit.load_commit st to_hash = Ok to_commit ->
  exists changes : StdMap.t string,
    MiniGit.get_file_changes st from_hash to_hash = Ok changes /\
    (from_commit = None \/ to_commit = None -> changes = StdMap.empty) /\
    forall older newer : Commit.t,
      from_commit = Some older -> to_commit = Some newer ->
      forall filename blob_hash : string,
        StdMap.find filename changes = Some blob_hash <->
        StdMap.find filename (Commit.file_blobs newer) = Some blob_hash /\
        StdMap.find filename (Commit.file_blobs older) <> Some blob_hash.
Proof.
  intros Hfrom Hto. unfold MiniGit.get_file_changes. rewrite Hfrom, Hto.
  cbn [mbind outcome_bind Cpp.bind].
  destruct from_commit as [older|], to_commit as [newer|];
    try (eexists; split; [reflexivity|split; [reflexivity|]]; now intros).
  cbv zeta. eexists. split; [reflexivity|]. split; [intros [|]; discriminate|].
  intros ? ? [= <-] [= <-] filename blob_hash.
  destruct (loaded_commit_wf _ _ _ Hto) as (_ & Hwf).
  rewrite (find_changes _ _ _ _ Hwf). cbn [StdMap.find StdMap.empty].
  destruct (StdMap.find filename (Commit.file_blobs newer)) as [v|];
    [|split; [discriminate|now intros [? _]]].
  destruct (StdMap.find filename (Commit.file_blobs older)) as [h|].
  - destruct (String.eqb_spec h v) as [->|Hne].
    + split; [discriminate|]. intros ([= ->] & Hdiff). now contradiction Hdiff.
    + split.
      * intros [= ->]. split; [reflexivity|]. intros [= ->]. now contradiction Hne.
      * now intros ([= ->] & _).
  - split; [intros [= ->]; split; [reflexivity|discriminate]|now intros ([= ->] & _)].
Qed.

Lemma file_changes_spec_witness :
  (MiniGit.load_commit Examples.two_branches "B"
   = Ok (Some (Commit.mk "B" "m" "user" 1 [] [("a.txt", "h1"); ("b.txt", "h2")])) /\
   MiniGit.load_commit Examples.two_branches "C"
   = Ok (Some (Commit.mk "C" "m" "user" 1 ["B"] [("a.txt", "h3"); ("b.txt", "h2")]))) /\
  MiniGit.get_file_changes Examples.two_branches "B" "C" = Ok [("a.txt", "h3")].
Proof.
  assert (H : MiniGit.load_commit Examples.two_branches "B"
              = Ok (Some (Commit.mk "B" "m" "user" 1 []
                            [("a.txt", "h1"); ("b.txt", "h2")])) /\
              MiniGit.load_commit Examples.two_branches "C"
              = Ok (Some (Commit.mk "C" "m" "user" 1 ["B"]
                            [("a.txt", "h3"); ("b.txt", "h2")])))
    by (split; vm_compute; reflexivity).
  split; [exact H|]. destruct H as (Hfrom & Hto).
  destruct (file_changes_spec _ _ _ _ _ Hfrom Hto) as (changes & Hrun & _).
  rewrite Hrun. vm_compute in Hrun. injection Hrun as <-. reflexivity.
Defined.

(** ** Branch files *)

Lemma branch_to_string_lines (b : Branch.t) :
  Branch.to_string b
  = ("branch " ++ Branch.name b)
      ++ String nl (("commit " ++ Branch.commit_hash b) ++ String nl "").
Proof.
  unfold Branch.to_string, endl.
  now rewrite !append_assoc, !append_cons, !append_nil_l.
Qed.

Lemma branch_decodes (b : Branch.t) :
  no_newline (Branch.name b) ->
  no_newline (Branch.commit_hash b) ->
  Branch.from_string (Branch.to_string b) = Ok (Some b).
Proof.
  intros Hname Hhash.
  assert (H0 : no_newline ("branch " ++ Branch.name b))
    by (apply no_newline_append; [reflexivity|exact Hname]).
  assert (H1 : no_newline ("commit " ++ Branch.commit_hash b))
    by (apply no_newline_append; [reflexivity|exact Hhash]).
  unfold Branch.from_string.
  rewrite branch_to_string_lines, (split_line _ _ H0), (split_line _ _ H1), split_empty.
  cbv zeta. cbn [List.length Nat.ltb Nat.leb nth].
  unfold starts_with. rewrite !prefix_append. cbn [negb].
  rewrite (substr_tag "branch " _ 7 eq_refl), (substr_tag "commit " _ 7 eq_refl).
  now destruct b.
Qed.

(** X18: a branch whose name and commit hash contain no newline is read
    back by [Branch::from_string] from the text of [Branch::to_string];
    and [load_branch] returns it for every name whose file in the refs
    directory reads as that text. *)
Theorem branch_round_trip (b : Branch.t) :
  no_newline (Branch.name b) ->
  no_newline (Branch.commit_hash b) ->
  Branch.from_string (Branch.to_string b) = Ok (Some b) /\
  (forall (st : MiniGit.t) (name : string),
     MiniGit.read_file (MiniGit.disk st) (MiniGit.refs_path st ++ "/" ++ name)
     = Branch.to_string b ->
     MiniGit.load_branch st name = Ok (Some b)).
Proof.
  intros Hname Hhash. split; [now apply branch_decodes|].
  intros st name Hread.
  unfold MiniGit.load_branch. rewrite Hread.
  assert (Hdata : String.eqb (Branch.to_string b) "" = false)
    by (rewrite branch_to_string_lines; reflexivity).
  rewrite Hdata. now apply branch_decodes.
Qed.

Lemma branch_round_trip_witness :
  let b := Branch.mk "feat" "T" in
  let st := Examples.repo "main" [] [] [("./.minigit/refs/feat", Branch.to_string b)] in
  (no_newline (Branch.name b) /\ no_newline (Branch.commit_hash b)) /\
  Branch.from_string (Branch.to_string b) = Ok (Some b) /\
  MiniGit.load_branch st "feat" = Ok (Some b).
Proof.
  intros b st.
  assert (H : no_newline (Branch.name b) /\ no_newline (Branch.commit_hash b))
    by (split; reflexivity).
  split; [exact H|].
  destruct (branch_round_trip b (proj1 H) (proj2 H)) as (Hdecode & Hload).
  split; [exact Hdecode|]. apply Hload. vm_compute. reflexivity.
Defined.

(** ** Timestamps *)

Lemma digits_of_N (n : N) :
  exists d : Decimal.uint,
    NilZero.string_of_uint (N.to_uint n) = NilEmpty.string_of_uint d /\
    N.of_uint d = n /\ d <> Decimal.Nil.
Proof.
  assert (Hof : N.of_uint (N.to_uint n) = n) by apply DecimalN.Unsigned.of_to.
  destruct (N.to_uint n); [exists (Decimal.D0 Decimal.Nil)|eexists..];
    (split; [reflexivity|split; [exact Hof|discriminate]]).
Qed.

Lemma digits_value_of_N (d : Decimal.uint) :
  d <> Decimal.Nil ->
  exists read : nat,
    digits_value (NilEmpty.string_of_uint d) 0 0 = (N.of_uint d, S read) /\
    skip_spaces (NilEmpty.string_of_uint d) = NilEmpty.string_of_uint d /\
    strip_sign (NilEmpty.string_of_uint d) = (false, NilEmpty.string_of_uint d).
Proof.
  intros Hnil.
  pose proof (digits_value_uint d "" (fun a r => eq_refl) 0%N 0) as Hdigits.
  rewrite append_nil_r, uint_value_of_uint in Hdigits. rewrite Hdigits.
  destruct d; [contradiction|..]; eexists; (split; [reflexivity|split; reflexivity]).
Qed.

Lemma stoll_show_time (t : Z) :
  (LLONG_MIN <= t <= LLONG_MAX)%Z -> stoll (show_time t) = Ok t.
Proof.
  intros Hrange. unfold show_time.
  destruct t as [|p|p].
  - reflexivity.
  - destruct (digits_of_N (N.pos p)) as (d & Htext & Hval & Hnil).
    change (NilZero.string_of_int (Z.to_int (Z.pos p)))
      with (NilZero.string_of_uint (N.to_uint (N.pos p))).
    rewrite Htext.
    destruct (digits_value_of_N d Hnil) as (read & Hdigits & Hskip & Hsign).
    unfold stoll. rewrite Hskip, Hsign, Hdigits, Hval.
    change (Z.of_N (N.pos p)) with (Z.pos p).
    destruct (Z.ltb_spec (Z.pos p) LLONG_MIN); [unfold LLONG_MIN in *; lia|].
    destruct (Z.ltb_spec LLONG_MAX (Z.pos p)); [lia|]. reflexivity.
  - destruct (digits_of_N (N.pos p)) as (d & Htext & Hval & Hnil).
    change (NilZero.string_of_int (Z.to_int (Z.neg p)))
      with (String "-" (NilZero.string_of_uint (N.to_uint (N.pos p)))).
    rewrite Htext.
    destruct (digits_value_of_N d Hnil) as (read & Hdigits & Hskip & Hsign).
    unfold stoll.
    change (skip_spaces (String "-" (NilEmpty.string_of_uint d)))
      with (String "-" (NilEmpty.string_of_uint d)).
    cbn [strip_sign]. rewrite Hdigits, Hval.
    change (- Z.of_N (N.pos p))%Z with (Z.neg p).
    destruct (Z.ltb_spec (Z.neg p) LLONG_MIN); [lia|].
    destruct (Z.ltb_spec LLONG_MAX (Z.neg p)); [unfold LLONG_MAX in *; lia|]. reflexivity.
Qed.

Lemma no_newline_show_time (t : Z) : no_newline (show_time t).
Proof.
  unfold show_time. destruct t as [|p|p]; [reflexivity|..].
  - change (NilZero.string_of_int (Z.to_int (Z.pos p)))
      with (NilZero.string_of_uint (N.to_uint (N.pos p))).
    destruct (digits_of_N (N.pos p)) as (d & -> & _). apply no_newline_digits.
  - change (NilZero.string_of_int (Z.to_int (Z.neg p)))
      with ("-" ++ NilZero.string_of_uint (N.to_uint (N.pos p))).
    destruct (digits_of_N (N.pos p)) as (d & -> & _).
    apply no_newline_append; [reflexivity|apply no_newline_digits].
Qed.

(** X19: a time that fits the 64-bit [time_t] is read back by
    [string_to_timestamp] from the text of [timestamp_to_string], also a
    negative one; and that text never contains a newline. *)
Theorem timestamp_round_trip (timestamp : Z) :
  (LLONG_MIN <= timestamp <= LLONG_MAX)%Z ->
  utils.string_to_timestamp (utils.timestamp_to_string timestamp) = Ok timestamp /\
  no_newline (utils.timestamp_to_string timestamp).
Proof.
  intros Hrange. split; [now apply stoll_show_time|apply no_newline_show_time].
Qed.

Lemma timestamp_round_trip_witness :
  (LLONG_MIN <= -1751234567 <= LLONG_MAX)%Z /\
  utils.string_to_timestamp (utils.timestamp_to_string (-1751234567)) = Ok (-1751234567)%Z.
Proof.
  assert (H : (LLONG_MIN <= -1751234567 <= LLONG_MAX)%Z) by (unfold LLONG_MIN, LLONG_MAX; lia).
  split; [exact H|]. exact (proj1 (timestamp_round_trip _ H)).
Defined.

(** ** Commit files *)

Lemma concat_cons (x : string) (xs : list string) :
  String.concat "" (x :: xs) = x ++ String.concat "" xs.
Proof. destruct xs; [simpl; now rewrite append_nil_r|reflexivity]. Qed.

(** Splitting a text that starts with the lines of [l], each closed by a
    newline. *)
Lemma split_concat_lines {A : Type} (f line : A -> string) (l : list A) (rest : string) :
  (forall x, f x = line x ++ String nl "") ->
  Forall (fun x => no_newline (line x)) l ->
  utils.split (String.concat "" (List.map f l) ++ rest) nl
  = (List.map line l ++ utils.split rest nl)%list.
Proof.
  intros Hf Hl. induction Hl as [|x l Hx Hl IH]; [now rewrite append_nil_l|].
  cbn [List.map]. rewrite concat_cons, Hf, !append_assoc, append_cons, append_nil_l.
  rewrite (split_line _ _ Hx), IH. reflexivity.
Qed.

Lemma string_take_append (s1 s2 : string) : string_take (String.length s1) (s1 ++ s2) = s1.
Proof.
  induction s1 as [|c s1 IH]; [now destruct s2|].
  rewrite append_cons. simpl. now rewrite IH.
Qed.

Lemma fold_add_parent (ps : list string) :
  forall c : Commit.t,
    NoDup (Commit.parent_hashes c ++ ps) ->
    fold_left Commit.add_parent ps c
    = Commit.mk (Commit.hash c) (Commit.message c) (Commit.author c) (Commit.timestamp c)
                (Commit.parent_hashes c ++ ps) (Commit.file_blobs c).
Proof.
  induction ps as [|p ps IH]; intros c Hnd.
  - rewrite app_nil_r. now destruct c.
  - cbn [fold_left].
    assert (Hhas : Commit.has_parent c p = false).
    { unfold Commit.has_parent. apply not_true_is_false. intros Hex.
      apply List.existsb_exists in Hex as (x & Hx & Heq).
      apply String.eqb_eq in Heq as <-.
      apply NoDup_app in Hnd as (_ & Hdisj & _).
      apply (Hdisj p); [now apply list_elem_of_In|left]. }
    unfold Commit.add_parent at 2. rewrite Hhas.
    rewrite IH; cbn [Commit.hash Commit.message Commit.author Commit.timestamp
                     Commit.parent_hashes Commit.file_blobs].
    + now rewrite <- app_assoc.
    + now rewrite <- app_assoc.
Qed.

Lemma parse_parents_lines (ps : list string) (rest : list string) :
  forall c : Commit.t,
    Commit.parse_parents (List.map (String.append "parent ") ps ++ rest)
                         (N.of_nat (List.length ps)) c
    = Ok (fold_left Commit.add_parent ps c, rest).
Proof.
  induction ps as [|p ps IH]; intros c.
  - destruct rest; reflexivity.
  - cbn [List.map app List.length Commit.parse_parents].
    destruct (N.eqb_spec (N.of_nat (S (List.length ps))) 0) as [Hz|_]; [lia|].
    unfold starts_with. rewrite prefix_append, (substr_tag "parent " p 7 eq_refl).
    cbn [mbind outcome_bind Cpp.bind].
    replace (N.of_nat (S (List.length ps)) - 1)%N with (N.of_nat (List.length ps)) by lia.
    apply IH.
Qed.

Lemma file_line_info (f h : string) :
  find_from0 f " " = None ->
  find (f ++ " " ++ h) " " 0 = Some (String.length f) /\
  substr_n (f ++ " " ++ h) 0 (String.length f) = Ok f /\
  substr (f ++ " " ++ h) (String.length f + 1) = Ok h.
Proof.
  intros Hfree.
  assert (Hinfo : f ++ " " ++ h = f ++ String " " h)
    by now rewrite append_cons, append_nil_l.
  split; [|split].
  - unfold find. cbn [string_drop]. rewrite Hinfo, (find_from0_append _ _ _ Hfree).
    reflexivity.
  - unfold substr_n. cbn [Nat.leb string_drop]. now rewrite string_take_append.
  - rewrite <- append_assoc.
    replace (String.length f + 1) with (String.length (f ++ " "))
      by (rewrite length_append; reflexivity).
    now apply substr_tag.
Qed.

Lemma parse_files_lines (fs : list (string * string)) :
  forall c : Commit.t,
    Forall (fun '(f, _) => find_from0 f " " = None) fs ->
    Commit.parse_files
      (List.map (fun '(f, h) => "file " ++ f ++ " " ++ h) fs)
      (N.of_nat (List.length fs)) c
    = Ok (fold_left (fun c '(f, h) => Commit.add_file c f h) fs c).
Proof.
  induction fs as [|[f h] fs IH]; intros c Hfree; [reflexivity|].
  apply Forall_cons_iff in Hfree as (Hf & Hfree).
  cbn [List.map List.length Commit.parse_files].
  destruct (N.eqb_spec (N.of_nat (S (List.length fs))) 0) as [Hz|_]; [lia|].
  unfold starts_with. rewrite prefix_append, (substr_tag "file " _ 5 eq_refl).
  cbn [mbind outcome_bind Cpp.bind].
  destruct (file_line_info f h Hf) as (-> & -> & ->).
  cbn [mbind outcome_bind Cpp.bind].
  replace (N.of_nat (S (List.length fs)) - 1)%N with (N.of_nat (List.length fs)) by lia.
  cbn [fold_left]. now apply IH.
Qed.

Lemma fold_insert_sorted (files : StdMap.t string) :
  StdMap.wf files = true ->
  fold_left (fun acc '(k, v) => StdMap.insert k v acc) files StdMap.empty = files.
Proof.
  intros Hwf.
  pose proof (fold_insert_wf (fun v : string => v) files [] Hwf) as Hfold.
  cbn [List.map app] in Hfold. unfold StdMap.empty. rewrite Hfold.
  clear. induction files as [|[k v] files IH]; [reflexivity|].
  cbn [List.map]. now rewrite IH.
Qed.

Lemma commit_to_string_lines (c : Commit.t) :
  Commit.to_string c
  = ("commit " ++ Commit.hash c)
      ++ String nl (("message " ++ Commit.message c)
      ++ String nl (("author " ++ Commit.author c)
      ++ String nl (("timestamp " ++ show_time (Commit.timestamp c))
      ++ String nl (("parents " ++ show_size (List.length (Commit.parent_hashes c)))
      ++ String nl
           (String.concat ""
              (List.map (fun parent => "parent " ++ parent ++ endl) (Commit.parent_hashes c))
            ++ (("files " ++ show_size (StdMap.size (Commit.file_blobs c)))
            ++ String nl
                 (String.concat ""
                    (List.map (fun '(filename, blob_hash) =>
                                 "file " ++ filename ++ " " ++ blob_hash ++ endl)
                              (Commit.file_blobs c)) ++ ""))))))).
Proof.
  unfold Commit.to_string, endl.
  rewrite append_nil_r.
  now rewrite !append_assoc, !append_cons, !append_nil_l.
Qed.

(** The lines of the text of a commit. *)
Lemma commit_lines (c : Commit.t) :
  no_newline (Commit.hash c) ->
  no_newline (Commit.message c) ->
  no_newline (Commit.author c) ->
  Forall no_newline (Commit.parent_hashes c) ->
  Forall (fun '(f, h) => no_newline f /\ no_newline h) (Commit.file_blobs c) ->
  utils.split (Commit.to_string c) nl
  = ("commit " ++ Commit.hash c)
      :: ("message " ++ Commit.message c)
      :: ("author " ++ Commit.author c)
      :: ("timestamp " ++ show_time (Commit.timestamp c))
      :: ("parents " ++ show_size (List.length (Commit.parent_hashes c)))
      :: (List.map (String.append "parent ") (Commit.parent_hashes c)
          ++ ("files " ++ show_size (StdMap.size (Commit.file_blobs c)))%string
          :: List.map (fun '(f, h) => ("file " ++ f ++ " " ++ h)%string)
                      (Commit.file_blobs c))%list.
Proof.
  intros Hhash Hmessage Hauthor Hparents Hfiles.
  rewrite commit_to_string_lines.
  rewrite !split_line;
    try (apply no_newline_append;
         [reflexivity|first [assumption|apply no_newline_show_time
                                       |apply no_newline_show_size]]).
  do 5 f_equal.
  rewrite (split_concat_lines _ (String.append "parent ")).
  - f_equal.
    rewrite split_line
      by (apply no_newline_append; [reflexivity|apply no_newline_show_size]).
    f_equal.
    rewrite (split_concat_lines _ (fun '(f, h) => "file " ++ f ++ " " ++ h)).
    + rewrite split_empty. apply app_nil_r.
    + intros [f h]. unfold endl. now rewrite !append_assoc.
    + eapply List.Forall_impl; [|exact Hfiles]. intros [f h] (Hf & Hh).
      repeat (apply no_newline_append; [first [reflexivity|assumption]|]). exact Hh.
  - intros p. unfold endl. now rewrite !append_assoc.
  - eapply List.Forall_impl; [|exact Hparents]. intros p Hp.
    apply no_newline_append; [reflexivity|exact Hp].
Qed.

Lemma commit_decodes (c : Commit.t) :
  no_newline (Commit.hash c) ->
  no_newline (Commit.message c) ->
  no_newline (Commit.author c) ->
  (LLONG_MIN <= Commit.timestamp c <= LLONG_MAX)%Z ->
  Forall no_newline (Commit.parent_hashes c) ->
  NoDup (Commit.parent_hashes c) ->
  (N.of_nat (List.length (Commit.parent_hashes c)) <= ULONG_MAX)%N ->
  Forall (fun '(f, h) => no_newline f /\ no_newline h) (Commit.file_blobs c) ->
  Forall (fun '(f, _) => find_from0 f " " = None) (Commit.file_blobs c) ->
  StdMap.wf (Commit.file_blobs c) = true ->
  (N.of_nat (StdMap.size (Commit.file_blobs c)) <= ULONG_MAX)%N ->
  Commit.from_string (Commit.to_string c) = Ok (Some c).
Proof.
  intros Hhash Hmessage Hauthor Htime Hparents Hnd Hpn Hfiles Hnames Hwf Hfn.
  unfold Commit.from_string.
  rewrite (commit_lines c Hhash Hmessage Hauthor Hparents Hfiles).
  cbv zeta.
  match goal with
  | |- context [(List.length ?l <? 5)%nat] =>
      assert (Hlong : (List.length l <? 5)%nat = false) by reflexivity; rewrite Hlong
  end.
  cbn [nth skipn]. unfold starts_with. rewrite !prefix_append. cbn [negb].
  rewrite (substr_tag "commit " _ 7 eq_refl), (substr_tag "message " _ 8 eq_refl),
    (substr_tag "author " _ 7 eq_refl), (substr_tag "timestamp " _ 10 eq_refl),
    (substr_tag "parents " _ 8 eq_refl).
  cbn [mbind outcome_bind Cpp.bind].
  unfold utils.string_to_timestamp. rewrite (stoll_show_time _ Htime).
  cbn [mbind outcome_bind Cpp.bind].
  rewrite (stoul_show_size _ Hpn). cbn [mbind outcome_bind Cpp.bind].
  rewrite skipn_O, parse_parents_lines. cbn [mbind outcome_bind Cpp.bind].
  rewrite prefix_append, (substr_tag "files " _ 6 eq_refl).
  cbn [mbind outcome_bind Cpp.bind].
  unfold StdMap.size in *. rewrite (stoul_show_size _ Hfn).
  cbn [mbind outcome_bind Cpp.bind].
  rewrite (parse_files_lines _ _ Hnames). cbn [mbind outcome_bind Cpp.bind].
  rewrite fold_add_parent by exact Hnd.
  do 2 f_equal.
  pose proof (fold_add_file_blobs (fun v : string => v) (Commit.file_blobs c)) as Hblobs.
  pose proof (fold_add_file_fields (fun v : string => v) (Commit.file_blobs c)) as Hfields.
  match goal with
  | |- fold_left _ _ ?c0 = _ =>
      specialize (Hblobs c0); specialize (Hfields c0);
      destruct Hfields as (Hp & Hm & Ha & Ht);
      pose proof (fold_add_file_hash (fun v : string => v) (Commit.file_blobs c) c0) as Hh;
      destruct (fold_left _ _ c0) as [h m a t p fb]
  end.
  cbn [Commit.hash Commit.message Commit.author Commit.timestamp Commit.parent_hashes
       Commit.file_blobs Commit.new Commit.set_hash Commit.set_timestamp app] in *.
  subst h m a t p. rewrite Hblobs. cbn [StdMap.empty].
  rewrite (fold_insert_sorted _ Hwf). now destruct c.
Qed.

(** X20: [Commit::from_string] reads back the commit written by
    [Commit::to_string] when the text fields contain no newline, the file
    names no space, the time fits [time_t], no parent is listed twice and
    the file table is in key order; and [load_commit] returns the commit
    for every hash whose file in the objects directory reads as that
    text. *)
Theorem commit_round_trip (c : Commit.t) :
  no_newline (Commit.hash c) ->
  no_newline (Commit.message c) ->
  no_newline (Commit.author c) ->
  (LLONG_MIN <= Commit.timestamp c <= LLONG_MAX)%Z ->
  Forall no_newline (Commit.parent_hashes c) ->
  NoDup (Commit.parent_hashes c) ->
  (N.of_nat (List.length (Commit.parent_hashes c)) <= ULONG_MAX)%N ->
  Forall (fun '(f, h) => no_newline f /\ no_newline h) (Commit.file_blobs c) ->
  Forall (fun '(f, _) => find_from0 f " " = None) (Commit.file_blobs c) ->
  StdMap.wf (Commit.file_blobs c) = true ->
  (N.of_nat (StdMap.size (Commit.file_blobs c)) <= ULONG_MAX)%N ->
  Commit.from_string (Commit.to_string c) = Ok (Some c) /\
  (forall (st : MiniGit.t) (hash : string),
     MiniGit.read_file (MiniGit.disk st) (MiniGit.object_path st hash)
     = Commit.to_string c ->
     MiniGit.load_commit st hash = Ok (Some c)).
Proof.
  intros Hhash Hmessage Hauthor Htime Hparents Hnd Hpn Hfiles Hnames Hwf Hfn.
  assert (Hdecode : Commit.from_string (Commit.to_string c) = Ok (Some c))
    by now apply commit_decodes.
  split; [exact Hdecode|].
  intros st hash Hread.
  unfold MiniGit.load_commit. rewrite Hread.
  assert (Hdata : String.eqb (Commit.to_string c) "" = false)
    by (rewrite commit_to_string_lines; reflexivity).
  rewrite Hdata. exact Hdecode.
Qed.

Lemma commit_round_trip_witness :
  let c := Commit.mk "C" "m" "user" 1 ["B"] [("a.txt", "h3"); ("b.txt", "h2")] in
  Commit.from_string (Commit.to_string c) = Ok (Some c) /\
  MiniGit.load_commit Examples.two_branches "C" = Ok (Some c).
Proof.
  intros c.
  assert (Htime : (LLONG_MIN <= Commit.timestamp c <= LLONG_MAX)%Z)
    by (unfold LLONG_MIN, LLONG_MAX; simpl; lia).
  assert (Hparents : Forall no_newline (Commit.parent_hashes c))
    by (repeat constructor).
  assert (Hnd : NoDup (Commit.parent_hashes c))
    by (repeat constructor; rewrite list_elem_of_In; simpl; intuition discriminate).
  assert (Hpn : (N.of_nat (List.length (Commit.parent_hashes c)) <= ULONG_MAX)%N)
    by (unfold ULONG_MAX; simpl; lia).
  assert (Hfiles : Forall (fun '(f, h) => no_newline f /\ no_newline h)
                          (Commit.file_blobs c))
    by (repeat constructor).
  assert (Hnames : Forall (fun '(f, _) => find_from0 f " " = None) (Commit.file_blobs c))
    by (repeat constructor).
  assert (Hfn : (N.of_nat (StdMap.size (Commit.file_blobs c)) <= ULONG_MAX)%N)
    by (unfold ULONG_MAX; simpl; lia).
  destruct (commit_round_trip c eq_refl eq_refl eq_refl Htime Hparents Hnd Hpn
              Hfiles Hnames eq_refl Hfn) as (Hdecode & Hload).
  split; [exact Hdecode|]. apply Hload. vm_compute. reflexivity.
Defined.

(** * Further properties: what a commit leaves in HEAD *)

Lemma head_after_write (st : MiniGit.t) (text : string) :
  MiniGit.ends_with_slash (MiniGit.head_path st) = false ->
  MiniGit.load_head
    (MiniGit.set_disk st
       (MiniGit.write_file (MiniGit.disk st) (MiniGit.head_path st) text).2)
  = text.
Proof.
  intros Hfile. unfold MiniGit.load_head, MiniGit.read_file, MiniGit.write_file.
  cbn [MiniGit.head_path MiniGit.disk MiniGit.set_disk]. rewrite Hfile. cbn [snd].
  now rewrite lookup_insert_eq.
Qed.

(** [update_current_branch] writes under the refs directory only: HEAD
    reads as before. *)
Lemma update_current_branch_head (h m : string) (st : MiniGit.t) :
  MiniGit.head_path st = m ++ "/HEAD" ->
  MiniGit.refs_path st = m ++ "/refs" ->
  let st' := MiniGit.final (MiniGit.update_current_branch h st) in
  MiniGit.load_head st' = MiniGit.load_head st /\
  MiniGit.branches st'
  = match StdMap.find (MiniGit.current_branch st) (MiniGit.branches st) with
    | Some b => StdMap.insert (MiniGit.current_branch st) (Branch.set_commit_hash b h)
                  (MiniGit.branches st)
    | None => MiniGit.branches st
    end.
Proof.
  intros Hhead Hrefs. unfold MiniGit.update_current_branch. cbv zeta. rewrite bind_get.
  destruct (StdMap.find (MiniGit.current_branch st) (MiniGit.branches st)) as [b|];
    [|split; reflexivity].
  rewrite bind_modify. unfold MiniGit.save_branch. rewrite bind_get, bind_emit.
  cbn [preceded_by MiniGit.final MiniGit.write MiniGit.modify].
  split; [|reflexivity].
  unfold MiniGit.load_head, MiniGit.read_file, MiniGit.write_file.
  cbn [MiniGit.head_path MiniGit.refs_path MiniGit.disk MiniGit.set_disk
       MiniGit.set_branches].
  destruct (MiniGit.ends_with_slash (MiniGit.head_path st)); [reflexivity|].
  match goal with
  | |- context [if ?b then _ else _] => destruct b; [reflexivity|]
  end.
  cbn [snd]. rewrite lookup_insert_ne; [reflexivity|].
  rewrite Hhead, Hrefs, append_assoc. intros Heq.
  apply String.app_inj in Heq. discriminate.
Qed.

(** X21: in a repository with the constructor's paths whose current
    branch has a name without a path separator (so that the branch file
    written after HEAD lies in the refs directory), a [commit] that
    succeeds leaves an empty HEAD and an empty commit hash in the current
    branch, because the new commit's hash is empty: [get_head_commit]
    returns the empty string and [log] right after the commit prints
    "No commits yet". *)
Theorem commit_leaves_head_empty (st : MiniGit.t) (message : string) (now : Z) :
  MiniGit.is_initialized st = true ->
  standard_layout st ->
  current_branch_is_plain st ->
  MiniGit.staging_area st <> [] ->
  let r := MiniGit.commit message now st in
  MiniGit.value r = Ok true /\
  MiniGit.get_head_commit (MiniGit.final r) = "" /\
  (forall fuel : nat,
     MiniGit.log fuel (MiniGit.final r)
     = ([MiniGit.print_info "No commits yet"], [], Ok true)) /\
  (forall b : Branch.t,
     StdMap.find (MiniGit.current_branch st) (MiniGit.branches st) = Some b ->
     StdMap.find (MiniGit.current_branch st) (MiniGit.branches (MiniGit.final r))
     = Some (Branch.mk (Branch.name b) "")).
Proof.
  intros Hinit Hlayout _ Hstaged r.
  assert (Hr : r = MiniGit.commit message now st) by reflexivity.
  clearbody r. unfold MiniGit.commit in Hr.
  rewrite bind_get, Hinit in Hr. cbn [negb] in Hr.
  destruct (StdMap.is_empty (MiniGit.staging_area st)) eqn:Hs.
  { destruct (MiniGit.staging_area st); [contradiction|discriminate]. }
  cbv zeta in Hr.
  match type of Hr with
  | context [MiniGit.commit_staged ?l ?c'] =>
      destruct (commit_staged_run l c' st) as (Hv & _ & Hcur & Hbranches);
      destruct (commit_staged_final l c' st) as (_ & Hi & Hhead & Hrefs & _);
      set (c0 := c') in *
  end.
  rewrite (bind_ok _ _ _ _ Hv) in Hr.
  set (c := fold_left _ _ c0) in Hr.
  set (st1 := MiniGit.final _) in *.
  assert (Hhash : Commit.hash c = "").
  { subst c. rewrite (fold_add_file_hash Blob.hash). subst c0.
    destruct (String.eqb (MiniGit.load_head st) ""); [reflexivity|].
    now rewrite add_parent_hash. }
  rewrite bind_save_commit, bind_save_head in Hr.
  set (st1' := MiniGit.set_disk st1 _) in Hr.
  set (st2 := MiniGit.set_disk st1' _) in Hr.
  destruct (update_current_branch_run (Commit.hash c) st2) as (Hu & _ & _ & Hui & Huc).
  rewrite (bind_ok _ _ _ _ Hu), bind_modify, bind_emit in Hr.
  set (st3 := MiniGit.final (MiniGit.update_current_branch (Commit.hash c) st2)) in *.
  assert (Hshort : substr_n (Commit.hash c) 0 8 = Ok "") by now rewrite Hhash.
  rewrite Hshort, bind_lift, bind_emit in Hr.
  destruct Hlayout as (_ & _ & Hlrefs & Hlhead).
  assert (Hhead2 : MiniGit.head_path st2 = MiniGit.minigit_path st ++ "/HEAD")
    by (subst st2 st1'; cbn [MiniGit.head_path MiniGit.set_disk]; congruence).
  assert (Hrefs2 : MiniGit.refs_path st2 = MiniGit.minigit_path st ++ "/refs")
    by (subst st2 st1'; cbn [MiniGit.refs_path MiniGit.set_disk]; congruence).
  destruct (update_current_branch_head (Commit.hash c) _ st2 Hhead2 Hrefs2)
    as (Hload3 & Hbranches3).
  fold st3 in Hload3, Hbranches3.
  assert (Hload2 : MiniGit.load_head st2 = "").
  { subst st2. rewrite head_after_write; [exact Hhash|].
    subst st1'. cbn [MiniGit.head_path MiniGit.set_disk]. rewrite Hhead, Hlhead.
    now rewrite ends_with_slash_append by discriminate. }
  assert (Hfinal : MiniGit.final r = MiniGit.set_staging_area st3 StdMap.empty)
    by (rewrite Hr; reflexivity).
  assert (Hempty : MiniGit.load_head (MiniGit.final r) = "").
  { rewrite Hfinal.
    change (MiniGit.load_head (MiniGit.set_staging_area st3 StdMap.empty))
      with (MiniGit.load_head st3).
    now rewrite Hload3. }
  split; [rewrite Hr; reflexivity|]. split; [exact Hempty|]. split.
  - intros fuel. unfold MiniGit.log. rewrite Hempty.
    rewrite Hfinal. cbn [MiniGit.is_initialized MiniGit.set_staging_area].
    rewrite Hui. subst st2 st1'. cbn [MiniGit.is_initialized MiniGit.set_disk].
    rewrite Hi, Hinit. reflexivity.
  - intros b Hfind. rewrite Hfinal. cbn [MiniGit.branches MiniGit.set_staging_area].
    rewrite Hbranches3.
    assert (Hcur2 : MiniGit.current_branch st2 = MiniGit.current_branch st)
      by (subst st2 st1'; cbn [MiniGit.current_branch MiniGit.set_disk]; exact Hcur).
    assert (Hb2 : MiniGit.branches st2 = MiniGit.branches st)
      by (subst st2 st1'; cbn [MiniGit.branches MiniGit.set_disk]; exact Hbranches).
    rewrite Hcur2, Hb2, Hfind, find_insert_same, Hhash. reflexivity.
Qed.

Lemma commit_leaves_head_empty_witness :
  (MiniGit.is_initialized Examples.one_staged = true /\
   standard_layout Examples.one_staged /\
   current_branch_is_plain Examples.one_staged /\
   MiniGit.staging_area Examples.one_staged <> [] /\
   MiniGit.get_head_commit Examples.one_staged = "P") /\
  MiniGit.get_head_commit (MiniGit.final (MiniGit.commit "second" 7 Examples.one_staged))
  = "".
Proof.
  assert (H : MiniGit.is_initialized Examples.one_staged = true /\
              standard_layout Examples.one_staged /\
              current_branch_is_plain Examples.one_staged /\
              MiniGit.staging_area Examples.one_staged <> [] /\
              MiniGit.get_head_commit Examples.one_staged = "P").
  { split; [reflexivity|]. split; [repeat split|]. split.
    - intros b Hb. vm_compute in Hb. injection Hb as <-. reflexivity.
    - split; [discriminate|reflexivity]. }
  split; [exact H|]. destruct H as (Hinit & Hlayout & Hplain & Hstaged & _).
  exact (proj1 (proj2 (commit_leaves_head_empty _ "second" 7 Hinit Hlayout Hplain Hstaged))).
Defined.

(** * Further properties of the history walk *)

Lemma loop_chain (st : MiniGit.t) (fuel : nat) :
  forall (current : string) (acc result : list string),
    MiniGit.ancestors_loop fuel st current acc = Ok result ->
    exists more : list string,
      result = (acc ++ more)%list /\ first_parent_chain st current more.
Proof.
  induction fuel as [|fuel IH]; intros current acc result; [discriminate|].
  cbn [MiniGit.ancestors_loop].
  destruct (String.eqb_spec current "") as [->|Hne].
  { intros [= <-]. exists []. split; [now rewrite app_nil_r|constructor]. }
  destruct (MiniGit.load_commit st current) as [[c|]| |] eqn:Hload;
    cbn [mbind outcome_bind Cpp.bind]; try discriminate.
  2:{ intros [= <-]. exists []. split; [now rewrite app_nil_r|now constructor]. }
  cbv zeta. unfold Commit.is_initial_commit.
  destruct (Commit.parent_hashes c) as [|parent others] eqn:Hparents.
  { intros [= <-]. exists [current]. split; [reflexivity|].
    now apply (chain_root st current c). }
  intros Hrun. apply IH in Hrun as (more & -> & Hchain).
  exists (current :: more). split; [now rewrite <- app_assoc|].
  now apply (chain_step st current c parent others).
Qed.

Lemma ancestors_loop_step (st : MiniGit.t) (fuel : nat) (h : string) (c : Commit.t)
      (acc : list string) :
  h <> "" ->
  MiniGit.load_commit st h = Ok (Some c) ->
  MiniGit.ancestors_loop (S fuel) st h acc
  = if Commit.is_initial_commit c then Ok (acc ++ [h])%list
    else MiniGit.ancestors_loop fuel st
           match Commit.parent_hashes c with
           | [] => ""
           | parent :: _ => parent
           end (acc ++ [h])%list.
Proof.
  intros Hne Hload. cbn [MiniGit.ancestors_loop].
  now rewrite (eqb_neq_false _ _ Hne), Hload.
Qed.

Lemma chain_loop (st : MiniGit.t) (current : string) (more : list string) :
  first_parent_chain st current more ->
  forall acc : list string,
    MiniGit.ancestors_loop (S (List.length more)) st current acc = Ok (acc ++ more)%list.
Proof.
  induction 1 as [|h Hne Hload|h c Hne Hload Hparents
                  |h c parent others rest Hne Hload Hparents Hchain IH]; intros acc.
  - cbn. now rewrite app_nil_r.
  - cbn [MiniGit.ancestors_loop]. rewrite (eqb_neq_false _ _ Hne), Hload.
    cbn. now rewrite app_nil_r.
  - rewrite (ancestors_loop_step _ _ _ _ _ Hne Hload).
    unfold Commit.is_initial_commit. now rewrite Hparents.
  - cbn [List.length]. rewrite (ancestors_loop_step _ _ _ _ _ Hne Hload).
    unfold Commit.is_initial_commit. rewrite Hparents.
    rewrite IH. now rewrite <- app_assoc.
Qed.

Lemma chain_functional (st : MiniGit.t) (current : string) (more1 more2 : list string) :
  first_parent_chain st current more1 ->
  first_parent_chain st current more2 ->
  more1 = more2.
Proof.
  intros H1. revert more2.
  induction H1 as [|h Hne Hload|h c Hne Hload Hparents
                   |h c parent others rest Hne Hload Hparents Hchain IH];
    intros more2 H2; inversion H2; subst; try congruence.
  f_equal. apply IH.
  match goal with
  | Ha : MiniGit.load_commit st h = Ok (Some ?c1),
    Hb : MiniGit.load_commit st h = Ok (Some ?c2) |- _ =>
      rewrite Ha in Hb; injection Hb as <-
  end.
  match goal with
  | Ha : Commit.parent_hashes c = ?p1 :: _,
    Hb : Commit.parent_hashes c = ?p2 :: _ |- _ =>
      rewrite Ha in Hb; injection Hb as <- <-
  end.
  assumption.
Qed.

Lemma chain_suffix (st : MiniGit.t) (current : string) (more : list string) :
  first_parent_chain st current more ->
  forall (before : list string) (x : string) (after : list string),
    more = (before ++ x :: after)%list ->
    first_parent_chain st x (x :: after).
Proof.
  induction 1 as [|h Hne Hload|h c Hne Hload Hparents
                  |h c parent others rest Hne Hload Hparents Hchain IH];
    intros before x after Heq.
  - now destruct before.
  - now destruct before.
  - destruct before as [|b before]; [|now destruct before].
    injection Heq as <- <-. now apply (chain_root st h c).
  - destruct before as [|b before].
    + injection Heq as <- <-. now apply (chain_step st h c parent others).
    + injection Heq as <- Hrest. exact (IH _ _ _ Hrest).
Qed.

Lemma chain_NoDup (st : MiniGit.t) (current : string) (more : list string) :
  first_parent_chain st current more -> NoDup more.
Proof.
  intros Hchain.
  induction Hchain as [|h Hne Hload|h c Hne Hload Hparents
                       |h c parent others rest Hne Hload Hparents Hchain IH].
  - constructor.
  - constructor.
  - apply NoDup_singleton.
  - constructor; [|exact IH].
    intros Hin. apply list_elem_of_In, in_split in Hin as (before & after & Hrest).
    pose proof (chain_suffix _ _ _ Hchain _ _ _ Hrest) as Hagain.
    pose proof (chain_step st h c parent others rest Hne Hload Hparents Hchain) as Hfull.
    pose proof (chain_functional _ _ _ _ Hagain Hfull) as Heq.
    injection Heq as Heq. rewrite Hrest in Heq.
    apply (f_equal (@List.length string)) in Heq.
    rewrite length_app in Heq. cbn [List.length] in Heq. lia.
Qed.

(** X22: when [get_commit_ancestors] returns, its result is the
    first-parent chain from the given hash: it starts with the hash (if
    that loads), every next entry is the first parent of the one before,
    only first parents are followed, and no hash occurs twice.
    Conversely, for every such chain the function returns it. *)
Theorem ancestors_are_the_first_parent_chain
        (st : MiniGit.t) (commit_hash : string) (result : list string) :
  (forall fuel : nat,
     MiniGit.get_commit_ancestors fuel st commit_hash = Ok result ->
     first_parent_chain st commit_hash result /\ NoDup result) /\
  (first_parent_chain st commit_hash result ->
   forall fuel : nat,
     List.length result < fuel ->
     MiniGit.get_commit_ancestors fuel st commit_hash = Ok result).
Proof.
  unfold MiniGit.get_commit_ancestors. split.
  - intros fuel Hrun. apply loop_chain in Hrun as (more & -> & Hchain).
    cbn [app]. split; [exact Hchain|exact (chain_NoDup _ _ _ Hchain)].
  - intros Hchain fuel Hfuel.
    apply (ancestors_loop_more_fuel st (S (List.length result))); [|lia].
    exact (chain_loop _ _ _ Hchain []).
Qed.

Lemma ancestors_are_the_first_parent_chain_witness :
  MiniGit.get_commit_ancestors 3 Examples.two_branches "T" = Ok ["T"; "B"] /\
  first_parent_chain Examples.two_branches "T" ["T"; "B"] /\
  NoDup ["T"; "B"].
Proof.
  assert (H : MiniGit.get_commit_ancestors 3 Examples.two_branches "T" = Ok ["T"; "B"])
    by (vm_compute; reflexivity).
  split; [exact H|].
  exact (proj1 (ancestors_are_the_first_parent_chain Examples.two_branches "T" ["T"; "B"])
           3 H).
Defined.

(** * Further properties: one object per run *)

Lemma branch_from_string_returns (data : string) :
  exists branch : option Branch.t, Branch.from_string data = Ok branch.
Proof.
  unfold Branch.from_string. cbv zeta.
  destruct (List.length (utils.split data nl) <? 2)%nat; [eauto|].
  destruct (starts_with (nth 0 (utils.split data nl) "") "branch ") eqn:H0; [|eauto].
  rewrite (substr_guarded _ "branch " 7 eq_refl H0). cbn [negb mbind outcome_bind Cpp.bind].
  destruct (starts_with (nth 1 (utils.split data nl) "") "commit ") eqn:H1; [|eauto].
  rewrite (substr_guarded _ "commit " 7 eq_refl H1). cbn [negb mbind outcome_bind Cpp.bind].
  eauto.
Qed.

Lemma load_branches_returns (st : MiniGit.t) (branch_files : list string) :
  forall branches : StdMap.t Branch.t,
  exists loaded : StdMap.t Branch.t,
    MiniGit.load_branches st branch_files branches = Ok loaded.
Proof.
  induction branch_files as [|branch_file rest IH]; intros branches; [now exists branches|].
  cbn [MiniGit.load_branches]. cbv zeta.
  destruct (String.eqb _ ""); [apply IH|].
  destruct (branch_from_string_returns
              (MiniGit.read_file (MiniGit.disk st)
                 (MiniGit.refs_path st ++ "/" ++ branch_file))) as ([b|] & ->);
    cbn [mbind outcome_bind Cpp.bind]; apply IH.
Qed.

Section OneObjectPerRun.
Context `{utils.Hasher}.


End OneObjectPerRun.

(** * Further properties of [trim] *)

Lemma first_not_blank_spec (s : string) :
  match utils.find_first_not_blank s with
  | None => Forall (fun c => utils.is_blank c = true) (list_ascii_of_string s)
  | Some start =>
      exists c rest,
        string_drop start s = String c rest /\ utils.is_blank c = false /\
        Forall (fun c => utils.is_blank c = true)
               (list_ascii_of_string (string_take start s))
  end.
Proof.
  induction s as [|a s IH]; [constructor|].
  cbn [utils.find_first_not_blank].
  destruct (utils.is_blank a) eqn:Ha.
  - destruct (utils.find_first_not_blank s) as [start|].
    + destruct IH as (c & rest & Hdrop & Hc & Hpre).
      exists c, rest. cbn [string_drop string_take list_ascii_of_string].
      repeat split; [exact Hdrop|exact Hc|now constructor].
    + cbn [list_ascii_of_string]. now constructor.
  - exists a, s. repeat split; [exact Ha|constructor].
Qed.

Lemma last_not_blank_spec (s : string) :
  match utils.find_last_not_blank s with
  | None => Forall (fun c => utils.is_blank c = true) (list_ascii_of_string s)
  | Some last =>
      exists c,
        String.get last s = Some c /\ utils.is_blank c = false /\
        (last < String.length s)%nat /\
        Forall (fun c => utils.is_blank c = true)
               (list_ascii_of_string (string_drop (S last) s))
  end.
Proof.
  induction s as [|a s IH]; [constructor|].
  cbn [utils.find_last_not_blank].
  destruct (utils.find_last_not_blank s) as [last|].
  - destruct IH as (c & Hget & Hc & Hlen & Hpost).
    exists c. cbn [String.get string_drop String.length].
    repeat split; [exact Hget|exact Hc|lia|exact Hpost].
  - destruct (utils.is_blank a) eqn:Ha.
    + cbn [list_ascii_of_string]. now constructor.
    + exists a. cbn [String.get string_drop String.length].
      repeat split; [exact Ha|lia|exact IH].
Qed.

Lemma take_drop_string (n : nat) (s : string) : string_take n s ++ string_drop n s = s.
Proof.
  revert s. induction n as [|n IH]; intros [|a s]; try reflexivity.
  cbn [string_take string_drop]. rewrite append_cons. now rewrite IH.
Qed.

Lemma get_blank (s : string) (i : nat) (c : ascii) :
  Forall (fun c => utils.is_blank c = true) (list_ascii_of_string s) ->
  String.get i s = Some c -> utils.is_blank c = true.
Proof.
  revert i. induction s as [|a s IH]; intros i Hall Hget; [discriminate|].
  cbn [list_ascii_of_string] in Hall. apply Forall_cons_iff in Hall as (Ha & Hall).
  destruct i as [|i]; [now injection Hget as <-|exact (IH i Hall Hget)].
Qed.

Lemma get_take (n i : nat) (s : string) :
  (i < n)%nat -> String.get i (string_take n s) = String.get i s.
Proof.
  revert i s. induction n as [|n IH]; intros i [|a s] Hi; try lia; try reflexivity.
  destruct i as [|i]; [reflexivity|]. cbn [string_take String.get]. apply IH. lia.
Qed.

Lemma get_drop (n i : nat) (s : string) :
  String.get i (string_drop n s) = String.get (n + i) s.
Proof.
  revert s. induction n as [|n IH]; intros [|a s]; try reflexivity.
  cbn [string_drop]. apply IH.
Qed.

Lemma length_take (n : nat) (s : string) :
  (n <= String.length s)%nat -> String.length (string_take n s) = n.
Proof.
  revert s. induction n as [|n IH]; intros [|a s] Hn; cbn in *; try lia; try reflexivity.
  rewrite IH; lia.
Qed.

(** The two scans of [trim] agree: the first non-blank character is not
    after the last one. *)
Lemma first_before_last (s : string) (start : nat) :
  utils.find_first_not_blank s = Some start ->
  exists last, utils.find_last_not_blank s = Some last /\ (start <= last)%nat.
Proof.
  intros Hfirst.
  pose proof (first_not_blank_spec s) as Hf. rewrite Hfirst in Hf.
  destruct Hf as (c & rest & Hdrop & Hc & Hpre).
  assert (Hget : String.get start s = Some c).
  { pose proof (get_drop start 0 s) as Hg. rewrite Hdrop, Nat.add_0_r in Hg.
    now rewrite <- Hg. }
  pose proof (last_not_blank_spec s) as Hl.
  destruct (utils.find_last_not_blank s) as [last|].
  - exists last. split; [reflexivity|].
    destruct Hl as (c' & Hget' & Hc' & Hlen & Hpost).
    destruct (Nat.le_gt_cases start last) as [Hle|Hgt]; [exact Hle|].
    assert (Hin : String.get (start - S last) (string_drop (S last) s) = Some c).
    { rewrite get_drop. now replace (S last + (start - S last)) with start by lia. }
    rewrite (get_blank _ _ _ Hpost Hin) in Hc. discriminate.
  - rewrite (get_blank _ _ _ Hl Hget) in Hc. discriminate.
Qed.

(** X24: [trim] removes blanks (space, tab, newline, carriage return)
    from both ends and nothing else: the input is the result between two
    runs of blanks, and the result is empty or begins and ends with a
    character that is not blank. *)
Theorem trim_spec (str : string) :
  (exists before after : string,
      str = before ++ utils.trim str ++ after /\
      Forall (fun c => utils.is_blank c = true) (list_ascii_of_string before) /\
      Forall (fun c => utils.is_blank c = true) (list_ascii_of_string after)) /\
  (utils.trim str = "" \/
   exists first last : ascii,
     String.get 0 (utils.trim str) = Some first /\ utils.is_blank first = false /\
     String.get (String.length (utils.trim str) - 1) (utils.trim str) = Some last /\
     utils.is_blank last = false).
Proof.
  unfold utils.trim.
  pose proof (first_not_blank_spec str) as Hf.
  destruct (utils.find_first_not_blank str) as [start|] eqn:Hfirst.
  2:{ split; [|now left]. exists str, "".
      rewrite append_nil_l, append_nil_r. repeat split; [exact Hf|constructor]. }
  destruct (first_before_last _ _ Hfirst) as (last & Hlast & Hle).
  rewrite Hlast.
  destruct Hf as (c & rest & Hdrop & Hc & Hpre).
  pose proof (last_not_blank_spec str) as Hl. rewrite Hlast in Hl.
  destruct Hl as (c' & Hget' & Hc' & Hlen & Hpost).
  set (middle := string_take (last - start + 1) (string_drop start str)).
  assert (Hdd : string_drop (last - start + 1) (string_drop start str)
                = string_drop (S last) str).
  { rewrite <- string_drop_drop. f_equal. lia. }
  assert (Hmid_len : String.length middle = (last - start + 1)%nat).
  { subst middle. apply length_take.
    pose proof (length_string_drop start str) as Hd. lia. }
  split.
  - exists (string_take start str), (string_drop (S last) str).
    split; [|split; [exact Hpre|exact Hpost]].
    rewrite <- Hdd. subst middle. now rewrite take_drop_string, take_drop_string.
  - right. exists c, c'. repeat split; [|exact Hc| |exact Hc'].
    + subst middle. rewrite get_take by lia. now rewrite Hdrop.
    + rewrite Hmid_len. subst middle. rewrite get_take by lia.
      rewrite get_drop. now replace (start + (last - start + 1 - 1)) with last by lia.
Qed.

(** * Further properties: what the commands save *)

(** X25: the objects that [init], [add], [branch] and [checkout] hand to
    [save_blob], [save_commit], [save_head] and [save_branch], the only
    methods that write a file.  [add] saves nothing; [init] saves the
    branch [main] with no commit, once, when the object was not
    initialised and the directories could be made; [branch] saves the new
    branch at the commit HEAD names when the name is free; [checkout]
    saves only HEAD: the commit of the target branch when it has one, the
    target itself when it is no branch but loads as a commit.  None of
    them saves a blob or a commit, and [checkout] saves no file of the
    working directory. *)
Theorem saves_of_the_commands `{utils.Hasher} (st : MiniGit.t) :
  saves (MiniGit.init st)
  = (if MiniGit.is_initialized st then []
     else match MiniGit.create_directory_structure st with
          | Ok _ => [MiniGit.save_branch_call (Branch.mk "main" "")]
          | _ => []
          end) /\
  (forall filename, saves (MiniGit.add filename st) = []) /\
  (forall name,
     saves (MiniGit.branch name st)
     = if MiniGit.is_initialized st
       then match StdMap.find name (MiniGit.branches st) with
            | Some _ => []
            | None => [MiniGit.save_branch_call (Branch.mk name (MiniGit.load_head st))]
            end
       else []) /\
  (forall target,
     saves (MiniGit.checkout target st)
     = if MiniGit.is_initialized st
       then match StdMap.find target (MiniGit.branches st) with
            | Some target_branch =>
                if String.eqb (Branch.commit_hash target_branch) "" then []
                else [MiniGit.save_head_call (Branch.commit_hash target_branch)]
            | None =>
                match MiniGit.load_commit st target with
                | Ok (Some _) => [MiniGit.save_head_call target]
                | _ => []
                end
            end
       else []).
Proof.
  repeat match goal with |- _ /\ _ => split end; intros; unfold saves.
  - unfold MiniGit.init. rewrite bind_get.
    destruct (MiniGit.is_initialized st); [reflexivity|].
    destruct (MiniGit.create_directory_structure st) as [[]| |]; reflexivity.
  - unfold MiniGit.add. rewrite bind_get.
    destruct (MiniGit.is_initialized st); [|reflexivity]. cbn [negb].
    destruct (MiniGit.file_exists (MiniGit.disk st) filename); reflexivity.
  - unfold MiniGit.branch. rewrite bind_get.
    destruct (MiniGit.is_initialized st); [|reflexivity]. cbn [negb].
    destruct (StdMap.find name (MiniGit.branches st)); reflexivity.
  - unfold MiniGit.checkout. rewrite bind_get.
    destruct (MiniGit.is_initialized st); [|reflexivity]. cbn [negb].
    destruct (StdMap.find target (MiniGit.branches st)) as [target_branch|].
    + cbv zeta. rewrite bind_modify.
      destruct (String.eqb (Branch.commit_hash target_branch) ""); reflexivity.
    + destruct (MiniGit.load_commit st target) as [[c|]| |]; reflexivity.
Qed.

(** * Further properties: the common ancestor on one line of history *)

Lemma first_in_set_head (known : gset string) (h : string) (rest : list string) :
  h ∈ known -> MiniGit.first_in_set known (h :: rest) = h.
Proof. intros Hin. cbn [MiniGit.first_in_set]. now rewrite bool_decide_eq_true_2. Qed.

Lemma first_in_set_skip (known : gset string) (before : list string) :
  forall (h : string) (after : list string),
    (forall x, x ∈ before -> x ∉ known) -> h ∈ known ->
    MiniGit.first_in_set known (before ++ h :: after) = h.
Proof.
  induction before as [|x before IH]; intros h after Hnone Hin.
  - now apply first_in_set_head.
  - cbn [app MiniGit.first_in_set].
    rewrite bool_decide_eq_false_2 by (apply Hnone; left).
    apply IH; [|exact Hin]. intros y Hy. apply Hnone. now right.
Qed.

(** X26: on one line of history the common ancestor is the older
    commit: when [older] occurs in the first-parent chain of [newer],
    [find_lowest_common_ancestor] returns [older] for the pair in either
    order, with any fuel that covers the chain. *)
Theorem common_ancestor_on_a_chain
        (st : MiniGit.t) (newer older : string) (chain : list string) (fuel : nat) :
  first_parent_chain st newer chain ->
  In older chain ->
  List.length chain < fuel ->
  MiniGit.find_lowest_common_ancestor fuel st newer older = Ok older /\
  MiniGit.find_lowest_common_ancestor fuel st older newer = Ok older.
Proof.
  intros Hchain Hin Hfuel.
  apply in_split in Hin as (before & after & Hsplit).
  pose proof (chain_suffix _ _ _ Hchain _ _ _ Hsplit) as Holder.
  pose proof (chain_NoDup _ _ _ Hchain) as Hnd.
  assert (Hlen : List.length (older :: after) <= List.length chain)
    by (rewrite Hsplit, length_app; lia).
  assert (Hnewer : MiniGit.get_commit_ancestors fuel st newer = Ok chain).
  { unfold MiniGit.get_commit_ancestors.
    apply (ancestors_loop_more_fuel st (S (List.length chain))); [|lia].
    exact (chain_loop _ _ _ Hchain []). }
  assert (Hold : MiniGit.get_commit_ancestors fuel st older = Ok (older :: after)).
  { unfold MiniGit.get_commit_ancestors.
    apply (ancestors_loop_more_fuel st (S (List.length (older :: after)))); [|lia].
    exact (chain_loop _ _ _ Holder []). }
  unfold MiniGit.find_lowest_common_ancestor. rewrite Hnewer, Hold.
  cbn [mbind outcome_bind Cpp.bind]. cbv zeta. split; f_equal.
  - apply first_in_set_head. rewrite Hsplit.
    apply elem_of_list_to_set, list_elem_of_In, in_or_app. right. now left.
  - rewrite Hsplit. apply first_in_set_skip.
    + intros x Hx Hknown. apply elem_of_list_to_set in Hknown.
      rewrite Hsplit in Hnd. apply NoDup_app in Hnd as (_ & Hdisjoint & _).
      exact (Hdisjoint x Hx Hknown).
    + apply elem_of_list_to_set. now left.
Qed.

Lemma common_ancestor_on_a_chain_witness :
  (first_parent_chain Examples.two_branches "C" ["C"; "B"] /\
   In "B" ["C"; "B"] /\ List.length ["C"; "B"] < 3) /\
  MiniGit.find_lowest_common_ancestor 3 Examples.two_branches "B" "C" = Ok "B".
Proof.
  assert (Hrun : MiniGit.get_commit_ancestors 3 Examples.two_branches "C" = Ok ["C"; "B"])
    by (vm_compute; reflexivity).
  assert (H : first_parent_chain Examples.two_branches "C" ["C"; "B"] /\
              In "B" ["C"; "B"] /\ List.length ["C"; "B"] < 3).
  { split; [|split; [simpl; tauto|simpl; lia]].
    unfold MiniGit.get_commit_ancestors in Hrun.
    apply loop_chain in Hrun as (more & Heq & Hchain).
    cbn [app] in Heq. now subst more. }
  split; [exact H|]. destruct H as (Hchain & Hin & Hfuel).
  exact (proj2 (common_ancestor_on_a_chain _ _ _ _ _ Hchain Hin Hfuel)).
Defined.

(** X28: on a store where the two first-parent walks return,
    [find_lowest_common_ancestor] returns, with enough fuel, the first
    hash of [ancestors(b)], in order, that occurs in [ancestors(a)]; it
    returns the empty string exactly when the two sequences share no
    commit; and for a committed [x] the answer to [(x, x)] is [x]. *)
Theorem lowest_common_ancestor_spec
        (st : MiniGit.t) (a b : string) (fuel_a fuel_b : nat)
        (ancestors_a ancestors_b : list string) :
  MiniGit.get_commit_ancestors fuel_a st a = Ok ancestors_a ->
  MiniGit.get_commit_ancestors fuel_b st b = Ok ancestors_b ->
  exists r : string,
    (forall fuel, Nat.max fuel_a fuel_b <= fuel ->
       MiniGit.find_lowest_common_ancestor fuel st a b = Ok r) /\
    ((exists before after : list string,
         ancestors_b = (before ++ r :: after)%list /\ r ∈ ancestors_a /\
         (forall h, h ∈ before -> h ∉ ancestors_a))
     \/ (r = "" /\ forall h, h ∈ ancestors_b -> h ∉ ancestors_a)) /\
    (r = "" <-> (forall h, h ∈ ancestors_a -> h ∉ ancestors_b)) /\
    (a = b -> a <> "" -> (exists c, MiniGit.load_commit st a = Ok (Some c)) -> r = a).
Proof.
  intros Ha Hb.
  exists (MiniGit.first_in_set (list_to_set ancestors_a) ancestors_b).
  pose proof (first_in_set_spec ancestors_a ancestors_b) as Hspec. simpl in Hspec.
  unfold MiniGit.get_commit_ancestors in Ha, Hb.
  destruct (ancestors_loop_extends _ _ _ _ _ Ha) as (la & Hla & Hnea & Hheada).
  destruct (ancestors_loop_extends _ _ _ _ _ Hb) as (lb & Hlb & Hneb & Hheadb).
  simpl in Hla, Hlb. subst ancestors_a ancestors_b.
  split; [|split; [exact Hspec|split]].
  - intros fuel Hfuel. unfold MiniGit.find_lowest_common_ancestor,
      MiniGit.get_commit_ancestors.
    rewrite (ancestors_loop_more_fuel _ _ _ _ _ Ha fuel) by lia.
    rewrite (ancestors_loop_more_fuel _ _ _ _ _ Hb fuel) by lia.
    reflexivity.
  - split.
    + intros Hr h Hina Hinb.
      destruct Hspec as [(before & after & Heq & Hin & Hbefore)|(_ & Hnone)].
      * rewrite Hr in Hin. contradiction.
      * exact (Hnone h Hinb Hina).
    + intros Hdisjoint.
      destruct Hspec as [(before & after & Heq & Hin & Hbefore)|(Hr & _)];
        [|exact Hr].
      exfalso. apply (Hdisjoint _ Hin). rewrite Heq at 2.
      apply elem_of_app. right. apply elem_of_cons. now left.
  - intros <- Hne Hcommitted.
    destruct (Hheada Hne Hcommitted) as (rest & ->).
    assert (Ok (a :: rest) = Ok lb) as Hsame.
    { rewrite <- (ancestors_loop_more_fuel _ _ _ _ _ Ha (Nat.max fuel_a fuel_b)) by lia.
      rewrite <- (ancestors_loop_more_fuel _ _ _ _ _ Hb (Nat.max fuel_a fuel_b)) by lia.
      reflexivity. }
    injection Hsame as <-.
    cbn [MiniGit.first_in_set].
    rewrite bool_decide_eq_true_2; [reflexivity|].
    apply elem_of_list_to_set. apply elem_of_cons. now left.
Qed.

Lemma lowest_common_ancestor_spec_witness :
  (MiniGit.get_commit_ancestors 3 Examples.two_branches "C" = Ok ["C"; "B"] /\
   MiniGit.get_commit_ancestors 3 Examples.two_branches "T" = Ok ["T"; "B"]) /\
  (exists r : string,
     MiniGit.find_lowest_common_ancestor 3 Examples.two_branches "C" "T" = Ok r /\
     (r = "" <-> (forall h, h ∈ ["C"; "B"] -> h ∉ ["T"; "B"]))) /\
  MiniGit.find_lowest_common_ancestor 3 Examples.two_branches "C" "C" = Ok "C".
Proof.
  assert (H : MiniGit.get_commit_ancestors 3 Examples.two_branches "C" = Ok ["C"; "B"] /\
              MiniGit.get_commit_ancestors 3 Examples.two_branches "T" = Ok ["T"; "B"])
    by (split; vm_compute; reflexivity).
  split; [exact H|].
  destruct H as (Ha & Hb).
  split.
  - destruct (lowest_common_ancestor_spec _ _ _ _ _ _ _ Ha Hb)
      as (r & Hrun & _ & Hnone & _).
    exists r. split; [apply Hrun; simpl; lia|exact Hnone].
  - destruct (lowest_common_ancestor_spec _ _ _ _ _ _ _ Ha Ha)
      as (r & Hrun & _ & _ & Hself).
    rewrite (Hrun 3) by (simpl; lia). f_equal.
    apply Hself; [reflexivity|discriminate|].
    eexists. vm_compute. reflexivity.
Defined.

(** * Further properties: what a merge leaves in HEAD *)

Lemma set_disk_same (st : MiniGit.t) : MiniGit.set_disk st (MiniGit.disk st) = st.
Proof. now destruct st. Qed.

Lemma cfo_same {A : Type} (m : MiniGit.M A) :
  (forall st, MiniGit.final (m st) = st) -> changes_files_only m.
Proof. intros Hm st. exists (MiniGit.disk st). now rewrite Hm, set_disk_same. Qed.

Lemma cfo_bind {A B : Type} (m : MiniGit.M A) (k : A -> MiniGit.M B) :
  changes_files_only m -> (forall a, changes_files_only (k a)) ->
  changes_files_only (x ← m; k x).
Proof.
  intros Hm Hk st. destruct (Hm st) as (files & Hfiles).
  unfold mbind, MiniGit.M_bind, MiniGit.bind. cbv zeta.
  destruct (MiniGit.value (m st)) as [a| |]; cbn [MiniGit.final]; [|eauto..].
  destruct (Hk a (MiniGit.final (m st))) as (files' & Hfiles').
  exists files'. now rewrite Hfiles', Hfiles.
Qed.

Section MergeLeavesHead.
Context `{utils.Hasher}.

Lemma cfo_merge_target_changes (lca : string) (cc : StdMap.t string)
      (l : list (string * string)) :
  forall (hc : bool) (mf : StdMap.t string),
    changes_files_only (MiniGit.merge_target_changes l lca cc hc mf).
Proof.
  induction l as [|[f h] l IH]; intros hc mf; cbn [MiniGit.merge_target_changes].
  - now apply cfo_same.
  - destruct (StdMap.find f cc) as [ours|]; [|apply IH].
    destruct (String.eqb ours h); [apply IH|].
    apply cfo_bind; [now apply cfo_same|intros _].
    apply cfo_bind; [now apply cfo_same|intros s].
    do 5 (apply cfo_bind; [now apply cfo_same|intros ?]).
    apply cfo_bind; [|intros ?; apply IH].
    repeat match goal with
           | |- changes_files_only (match ?x with _ => _ end) => destruct x
           end; try now apply cfo_same.
    cbv zeta. apply cfo_bind; [|intros _; now apply cfo_same].
    intros st. eexists. reflexivity.
Qed.

(** X27: in a repository with the constructor's paths whose current
    branch has a name without a path separator (so that the branch file
    written after HEAD lies in the refs directory), a [merge] that gets
    past its guards and returns leaves HEAD empty, because the merge
    commit's hash is empty: [get_head_commit] returns the empty string
    and [log] right after the merge prints "No commits yet".  The
    staging area is as before. *)
Theorem merge_leaves_head_empty
        (fuel : nat) (st : MiniGit.t) (branch_name : string) (now : Z)
        (target_branch : Branch.t) (lca : string) (cc tc : StdMap.t string) (b : bool) :
  standard_layout st ->
  current_branch_is_plain st ->
  MiniGit.is_initialized st = true ->
  StdMap.find branch_name (MiniGit.branches st) = Some target_branch ->
  MiniGit.load_head st <> Branch.commit_hash target_branch ->
  MiniGit.find_lowest_common_ancestor fuel st (MiniGit.load_head st)
    (Branch.commit_hash target_branch) = Ok lca ->
  lca <> "" ->
  MiniGit.get_file_changes st lca (MiniGit.load_head st) = Ok cc ->
  MiniGit.get_file_changes st lca (Branch.commit_hash target_branch) = Ok tc ->
  MiniGit.value (MiniGit.merge fuel branch_name now st) = Ok b ->
  let st' := MiniGit.final (MiniGit.merge fuel branch_name now st) in
  MiniGit.get_head_commit st' = "" /\
  (forall fuel' : nat,
     MiniGit.log fuel' st' = ([MiniGit.print_info "No commits yet"], [], Ok true)) /\
  MiniGit.staging_area st' = MiniGit.staging_area st.
Proof.
  intros Hlayout _ Hinit Hfind Hne Hlca Hbase Hcc Htc.
  set (r := MiniGit.merge fuel branch_name now st).
  assert (Hr : r = MiniGit.merge fuel branch_name now st) by reflexivity.
  clearbody r. unfold MiniGit.merge in Hr.
  rewrite bind_get, Hinit, Hfind in Hr. cbn [negb] in Hr. cbv zeta in Hr.
  rewrite (eqb_neq_false _ _ Hne), Hlca, bind_lift in Hr.
  rewrite (eqb_neq_false _ _ Hbase), Hcc, bind_lift, Htc, bind_lift in Hr.
  destruct (cfo_merge_target_changes lca cc tc false StdMap.empty st) as (files & Hloop_st).
  destruct (MiniGit.value (MiniGit.merge_target_changes tc lca cc false StdMap.empty st))
    as [[hc mf]| |] eqn:Hloop.
  2,3: intros Hb; exfalso; rewrite Hr in Hb; revert Hb;
       apply bind_not_ok; intros a; rewrite Hloop; discriminate.
  intros _.
  rewrite (bind_ok _ _ _ _ Hloop), Hloop_st in Hr. cbv beta iota in Hr.
  rewrite bind_save_commit, bind_save_head in Hr.
  set (c := MiniGit.make_merge_commit _ _ _ _ _) in Hr.
  assert (Hhash : Commit.hash c = "") by apply make_merge_commit_hash.
  set (st1 := MiniGit.set_disk (MiniGit.set_disk st files) _) in Hr.
  set (st2 := MiniGit.set_disk st1 _) in Hr.
  destruct (update_current_branch_run (Commit.hash c) st2) as (Hu & _ & Hus & Hui & _).
  rewrite (bind_ok _ _ _ _ Hu), bind_emit in Hr.
  destruct Hlayout as (_ & _ & Hlrefs & Hlhead).
  destruct (update_current_branch_head (Commit.hash c) (MiniGit.minigit_path st) st2
              Hlhead Hlrefs) as (Hload3 & _).
  assert (Hload2 : MiniGit.load_head st2 = "").
  { subst st2. rewrite head_after_write; [exact Hhash|].
    subst st1. cbn [MiniGit.head_path MiniGit.set_disk]. rewrite Hlhead.
    now rewrite ends_with_slash_append by discriminate. }
  assert (Hfinal : MiniGit.final r
                   = MiniGit.final (MiniGit.update_current_branch (Commit.hash c) st2))
    by (rewrite Hr; reflexivity).
  cbv zeta. rewrite Hfinal.
  assert (Hempty : MiniGit.load_head
                     (MiniGit.final (MiniGit.update_current_branch (Commit.hash c) st2))
                   = "") by now rewrite Hload3.
  split; [exact Hempty|]. split.
  - intros fuel'. unfold MiniGit.log. rewrite Hempty, Hui.
    subst st2 st1. cbn [MiniGit.is_initialized MiniGit.set_disk]. rewrite Hinit.
    reflexivity.
  - rewrite Hus. reflexivity.
Qed.

End MergeLeavesHead.

Lemma merge_leaves_head_empty_witness :
  let st := Examples.two_branches in
  (MiniGit.get_head_commit st = "C" /\
   current_branch_is_plain st /\
   MiniGit.value (MiniGit.merge (H := Examples.length_digest) 3 "feat" 5 st) = Ok true) /\
  MiniGit.get_head_commit
    (MiniGit.final (MiniGit.merge (H := Examples.length_digest) 3 "feat" 5 st)) = "".
Proof.
  intros st.
  assert (H0 : MiniGit.get_head_commit st = "C" /\
               current_branch_is_plain st /\
               MiniGit.value (MiniGit.merge (H := Examples.length_digest) 3 "feat" 5 st)
               = Ok true).
  { split; [vm_compute; reflexivity|]. split; [|vm_compute; reflexivity].
    intros b Hb. vm_compute in Hb. injection Hb as <-. reflexivity. }
  split; [exact H0|]. destruct H0 as (_ & Hplain & Hvalue).
  assert (Hlayout : standard_layout st) by (repeat split).
  assert (Hne : MiniGit.load_head st <> "T") by (vm_compute; discriminate).
  assert (Hlca : MiniGit.find_lowest_common_ancestor 3 st (MiniGit.load_head st) "T" = Ok "B")
    by (vm_compute; reflexivity).
  assert (Hbase : "B" <> "") by discriminate.
  assert (Hcc : MiniGit.get_file_changes st "B" (MiniGit.load_head st)
                = Ok [("a.txt", "h3")]) by (vm_compute; reflexivity).
  assert (Htc : MiniGit.get_file_changes st "B" "T" = Ok [("c.txt", "h4")])
    by (vm_compute; reflexivity).
  exact (proj1 (merge_leaves_head_empty (H := Examples.length_digest)
                  3 st "feat" 5 (Branch.mk "feat" "T") "B" _ _ true
                  Hlayout Hplain eq_refl eq_refl Hne Hlca Hbase Hcc Htc Hvalue)).
Defined.
